(** * peerswap: the swap service (swap/service.go)

    A shallow embedding of the registry of active swaps and of its entry
    points: message dispatch, chain and payment callbacks, swap creation and
    recovery.  The state machine, the wire messages, the wallets, the store
    and the messenger live in other files of the package; they enter this
    development as the fields of [SwapServices], the counterpart of the Go
    struct of the same name. *)

From Stdlib Require Import ZArith String Ascii List Bool.
From stdpp Require Import gmap strings list fin_maps.
Import ListNotations.

Local Open Scope string_scope.

(** ** Errors *)

(** Go errors are compared by identity.  The two package-level sentinels keep
    their own constructor; a value built at a call site by [errors.New] or
    [fmt.Errorf] is an [ErrorString] and is never identical to a sentinel. *)
Inductive error : Type :=
| ErrSwapDoesNotExist
| ErrEventRejected
| ErrUnknownSwapMessageType (s : string)
| PeerNotAllowedError (s : string)
| WrongAssetError (s : string)
| ErrorString (msg : string).

Definition error_eqb (a b : error) : bool :=
  match a, b with
  | ErrSwapDoesNotExist, ErrSwapDoesNotExist => true
  | ErrEventRejected, ErrEventRejected => true
  | ErrUnknownSwapMessageType x, ErrUnknownSwapMessageType y => String.eqb x y
  | PeerNotAllowedError x, PeerNotAllowedError y => String.eqb x y
  | WrongAssetError x, WrongAssetError y => String.eqb x y
  | ErrorString x, ErrorString y => String.eqb x y
  | _, _ => false
  end.

Inductive result (A : Type) : Type :=
| Ok (a : A)
| Err (e : error).
Arguments Ok {A} a.
Arguments Err {A} e.

(** ** Identifiers and enumerations *)

Definition PEERSWAP_PROTOCOL_VERSION : Z := 2.

Definition AllowedAssets : list string := ["btc"; "l-btc"].
Definition btc_chain : string := "btc".
Definition l_btc_chain : string := "l-btc".

Definition PaymentLabelSeparator : string := "_".

(** [hex.EncodeToString]: two lowercase digits per byte. *)
Definition hexdigit (n : N) : ascii :=
  match n with
  | 0%N => "0" | 1%N => "1" | 2%N => "2" | 3%N => "3"
  | 4%N => "4" | 5%N => "5" | 6%N => "6" | 7%N => "7"
  | 8%N => "8" | 9%N => "9" | 10%N => "a" | 11%N => "b"
  | 12%N => "c" | 13%N => "d" | 14%N => "e" | _ => "f"
  end%char.

Definition hex_of_byte (b : Byte.byte) : string :=
  let n := Byte.to_N b in
  String (hexdigit (n / 16)) (String (hexdigit (n mod 16)) EmptyString).

Fixpoint EncodeToString (bs : list Byte.byte) : string :=
  match bs with
  | [] => EmptyString
  | b :: rest => hex_of_byte b ++ EncodeToString rest
  end.

(** Modelled from the spec: the type SwapId is declared outside this file; it
    is a 32-byte identifier rendered as lowercase hex. *)
Record SwapId : Type := { swapid_bytes : list Byte.byte }.

Definition SwapId_String (id : SwapId) : string := EncodeToString (swapid_bytes id).

Inductive SwapType : Type := SWAPTYPE_IN | SWAPTYPE_OUT.
Inductive SwapRole : Type := SWAPROLE_SENDER | SWAPROLE_RECEIVER.

Definition SwapType_eqb (a b : SwapType) : bool :=
  match a, b with
  | SWAPTYPE_IN, SWAPTYPE_IN | SWAPTYPE_OUT, SWAPTYPE_OUT => true
  | _, _ => false
  end.

Definition SwapRole_eqb (a b : SwapRole) : bool :=
  match a, b with
  | SWAPROLE_SENDER, SWAPROLE_SENDER | SWAPROLE_RECEIVER, SWAPROLE_RECEIVER => true
  | _, _ => false
  end.

(** The message types of package [messages] that the dispatcher switches on;
    every other tag of the enumeration is [MESSAGETYPE_OTHER]. *)
Inductive MessageType : Type :=
| MESSAGETYPE_SWAPINREQUEST
| MESSAGETYPE_SWAPOUTREQUEST
| MESSAGETYPE_SWAPINAGREEMENT
| MESSAGETYPE_SWAPOUTAGREEMENT
| MESSAGETYPE_OPENINGTXBROADCASTED
| MESSAGETYPE_CANCELED
| MESSAGETYPE_COOPCLOSE
| MESSAGETYPE_OTHER (tag : Z).

(** The events this file injects into a state machine. *)
Inductive EventType : Type :=
| Event_OnSwapOutStarted
| Event_SwapInSender_OnSwapInRequested
| Event_SwapInReceiver_OnRequestReceived
| Event_OnSwapOutRequestReceived
| Event_SwapInSender_OnAgreementReceived
| Event_OnFeeInvoiceReceived
| Event_OnFeeInvoicePaid
| Event_OnClaimInvoicePaid
| Event_OnTxOpenedMessage
| Event_OnTxConfirmed
| Event_OnCsvPassed
| Event_OnCancelReceived
| Event_OnCoopCloseReceived
| Event_OnInvalid_Message
| Event_OnTimeout
| Event_ActionFailed.

(** ** Wire messages

    Modelled from the spec: the message structs are declared outside this
    file; their fields are those of the wire-protocol table. *)

Record SwapOutRequestMessage : Type := {
  sor_ProtocolVersion : Z;
  sor_SwapId : SwapId;
  sor_Asset : string;
  sor_Network : string;
  sor_Scid : string;
  sor_Amount : Z;
  sor_Pubkey : string
}.

Record SwapInRequestMessage : Type := {
  sir_ProtocolVersion : Z;
  sir_SwapId : SwapId;
  sir_Asset : string;
  sir_Network : string;
  sir_Scid : string;
  sir_Amount : Z;
  sir_Pubkey : string
}.

Record SwapOutAgreementMessage : Type := {
  soa_ProtocolVersion : Z;
  soa_SwapId : SwapId;
  soa_Pubkey : string;
  soa_Payreq : string
}.

Record SwapInAgreementMessage : Type := {
  sia_ProtocolVersion : Z;
  sia_SwapId : SwapId;
  sia_Pubkey : string;
  sia_Premium : Z
}.

Record OpeningTxBroadcastedMessage : Type := {
  otb_SwapId : SwapId;
  otb_Payreq : string;
  otb_TxId : string;
  otb_ScriptOut : Z;
  otb_BlindingKey : string
}.

Record CancelMessage : Type := {
  cm_SwapId : SwapId;
  cm_Message : string
}.

Record CoopCloseMessage : Type := {
  ccm_SwapId : SwapId;
  ccm_Message : string;
  ccm_Privkey : string
}.

(** The argument of [MarshalPeerswapMessage] (a Go interface value). *)
Inductive PeerMessage : Type :=
| PM_SwapOutRequest (m : SwapOutRequestMessage)
| PM_SwapInRequest (m : SwapInRequestMessage)
| PM_SwapOutAgreement (m : SwapOutAgreementMessage)
| PM_SwapInAgreement (m : SwapInAgreementMessage)
| PM_OpeningTxBroadcasted (m : OpeningTxBroadcastedMessage)
| PM_Cancel (m : CancelMessage)
| PM_CoopClose (m : CoopCloseMessage).

(** ** SwapData and the state machine record

    Modelled from the spec: SwapData and SwapStateMachine are declared outside
    this file; the fields are those of the data model which this file reads or
    writes, under the names the source uses. *)

Record SwapData : Type := {
  Data_Id : SwapId;
  Data_Type : SwapType;
  Data_Role : SwapRole;
  InitiatorNodeId : string;
  PeerNodeId : string;
  PrivkeyBytes : list Byte.byte;
  SwapOutRequest : option SwapOutRequestMessage;
  SwapInRequest : option SwapInRequestMessage;
  SwapOutAgreement : option SwapOutAgreementMessage;
  SwapInAgreement : option SwapInAgreementMessage;
  OpeningTxBroadcasted : option OpeningTxBroadcastedMessage;
  Cancel : option CancelMessage;
  CoopClose : option CoopCloseMessage;
  OpeningTxHex : string;
  CancelMessage_ : string;
  NextMessage : list Byte.byte;
  NextMessageType : Z;
  LastErr : option error;
  toCancel : bool
}.

Record SwapStateMachine : Type := {
  Id : string;
  SwapId_ : SwapId;
  Type_ : SwapType;
  Role : SwapRole;
  Current : string;
  Data : SwapData
}.

(** Field assignments [swap.Data.F = v], one function per field assigned in
    this file. *)

Definition set_SwapOutRequest (v : option SwapOutRequestMessage) (d : SwapData) : SwapData :=
  {| Data_Id := Data_Id d;
     Data_Type := Data_Type d;
     Data_Role := Data_Role d;
     InitiatorNodeId := InitiatorNodeId d;
     PeerNodeId := PeerNodeId d;
     PrivkeyBytes := PrivkeyBytes d;
     SwapOutRequest := v;
     SwapInRequest := SwapInRequest d;
     SwapOutAgreement := SwapOutAgreement d;
     SwapInAgreement := SwapInAgreement d;
     OpeningTxBroadcasted := OpeningTxBroadcasted d;
     Cancel := Cancel d;
     CoopClose := CoopClose d;
     OpeningTxHex := OpeningTxHex d;
     CancelMessage_ := CancelMessage_ d;
     NextMessage := NextMessage d;
     NextMessageType := NextMessageType d;
     LastErr := LastErr d;
     toCancel := toCancel d |}.

Definition set_SwapInRequest (v : option SwapInRequestMessage) (d : SwapData) : SwapData :=
  {| Data_Id := Data_Id d;
     Data_Type := Data_Type d;
     Data_Role := Data_Role d;
     InitiatorNodeId := InitiatorNodeId d;
     PeerNodeId := PeerNodeId d;
     PrivkeyBytes := PrivkeyBytes d;
     SwapOutRequest := SwapOutRequest d;
     SwapInRequest := v;
     SwapOutAgreement := SwapOutAgreement d;
     SwapInAgreement := SwapInAgreement d;
     OpeningTxBroadcasted := OpeningTxBroadcasted d;
     Cancel := Cancel d;
     CoopClose := CoopClose d;
     OpeningTxHex := OpeningTxHex d;
     CancelMessage_ := CancelMessage_ d;
     NextMessage := NextMessage d;
     NextMessageType := NextMessageType d;
     LastErr := LastErr d;
     toCancel := toCancel d |}.

Definition set_SwapOutAgreement (v : option SwapOutAgreementMessage) (d : SwapData) : SwapData :=
  {| Data_Id := Data_Id d;
     Data_Type := Data_Type d;
     Data_Role := Data_Role d;
     InitiatorNodeId := InitiatorNodeId d;
     PeerNodeId := PeerNodeId d;
     PrivkeyBytes := PrivkeyBytes d;
     SwapOutRequest := SwapOutRequest d;
     SwapInRequest := SwapInRequest d;
     SwapOutAgreement := v;
     SwapInAgreement := SwapInAgreement d;
     OpeningTxBroadcasted := OpeningTxBroadcasted d;
     Cancel := Cancel d;
     CoopClose := CoopClose d;
     OpeningTxHex := OpeningTxHex d;
     CancelMessage_ := CancelMessage_ d;
     NextMessage := NextMessage d;
     NextMessageType := NextMessageType d;
     LastErr := LastErr d;
     toCancel := toCancel d |}.

Definition set_SwapInAgreement (v : option SwapInAgreementMessage) (d : SwapData) : SwapData :=
  {| Data_Id := Data_Id d;
     Data_Type := Data_Type d;
     Data_Role := Data_Role d;
     InitiatorNodeId := InitiatorNodeId d;
     PeerNodeId := PeerNodeId d;
     PrivkeyBytes := PrivkeyBytes d;
     SwapOutRequest := SwapOutRequest d;
     SwapInRequest := SwapInRequest d;
     SwapOutAgreement := SwapOutAgreement d;
     SwapInAgreement := v;
     OpeningTxBroadcasted := OpeningTxBroadcasted d;
     Cancel := Cancel d;
     CoopClose := CoopClose d;
     OpeningTxHex := OpeningTxHex d;
     CancelMessage_ := CancelMessage_ d;
     NextMessage := NextMessage d;
     NextMessageType := NextMessageType d;
     LastErr := LastErr d;
     toCancel := toCancel d |}.

Definition set_OpeningTxBroadcasted (v : option OpeningTxBroadcastedMessage) (d : SwapData) : SwapData :=
  {| Data_Id := Data_Id d;
     Data_Type := Data_Type d;
     Data_Role := Data_Role d;
     InitiatorNodeId := InitiatorNodeId d;
     PeerNodeId := PeerNodeId d;
     PrivkeyBytes := PrivkeyBytes d;
     SwapOutRequest := SwapOutRequest d;
     SwapInRequest := SwapInRequest d;
     SwapOutAgreement := SwapOutAgreement d;
     SwapInAgreement := SwapInAgreement d;
     OpeningTxBroadcasted := v;
     Cancel := Cancel d;
     CoopClose := CoopClose d;
     OpeningTxHex := OpeningTxHex d;
     CancelMessage_ := CancelMessage_ d;
     NextMessage := NextMessage d;
     NextMessageType := NextMessageType d;
     LastErr := LastErr d;
     toCancel := toCancel d |}.

Definition set_Cancel (v : option CancelMessage) (d : SwapData) : SwapData :=
  {| Data_Id := Data_Id d;
     Data_Type := Data_Type d;
     Data_Role := Data_Role d;
     InitiatorNodeId := InitiatorNodeId d;
     PeerNodeId := PeerNodeId d;
     PrivkeyBytes := PrivkeyBytes d;
     SwapOutRequest := SwapOutRequest d;
     SwapInRequest := SwapInRequest d;
     SwapOutAgreement := SwapOutAgreement d;
     SwapInAgreement := SwapInAgreement d;
     OpeningTxBroadcasted := OpeningTxBroadcasted d;
     Cancel := v;
     CoopClose := CoopClose d;
     OpeningTxHex := OpeningTxHex d;
     CancelMessage_ := CancelMessage_ d;
     NextMessage := NextMessage d;
     NextMessageType := NextMessageType d;
     LastErr := LastErr d;
     toCancel := toCancel d |}.

Definition set_CoopClose (v : option CoopCloseMessage) (d : SwapData) : SwapData :=
  {| Data_Id := Data_Id d;
     Data_Type := Data_Type d;
     Data_Role := Data_Role d;
     InitiatorNodeId := InitiatorNodeId d;
     PeerNodeId := PeerNodeId d;
     PrivkeyBytes := PrivkeyBytes d;
     SwapOutRequest := SwapOutRequest d;
     SwapInRequest := SwapInRequest d;
     SwapOutAgreement := SwapOutAgreement d;
     SwapInAgreement := SwapInAgreement d;
     OpeningTxBroadcasted := OpeningTxBroadcasted d;
     Cancel := Cancel d;
     CoopClose := v;
     OpeningTxHex := OpeningTxHex d;
     CancelMessage_ := CancelMessage_ d;
     NextMessage := NextMessage d;
     NextMessageType := NextMessageType d;
     LastErr := LastErr d;
     toCancel := toCancel d |}.

Definition set_OpeningTxHex (v : string) (d : SwapData) : SwapData :=
  {| Data_Id := Data_Id d;
     Data_Type := Data_Type d;
     Data_Role := Data_Role d;
     InitiatorNodeId := InitiatorNodeId d;
     PeerNodeId := PeerNodeId d;
     PrivkeyBytes := PrivkeyBytes d;
     SwapOutRequest := SwapOutRequest d;
     SwapInRequest := SwapInRequest d;
     SwapOutAgreement := SwapOutAgreement d;
     SwapInAgreement := SwapInAgreement d;
     OpeningTxBroadcasted := OpeningTxBroadcasted d;
     Cancel := Cancel d;
     CoopClose := CoopClose d;
     OpeningTxHex := v;
     CancelMessage_ := CancelMessage_ d;
     NextMessage := NextMessage d;
     NextMessageType := NextMessageType d;
     LastErr := LastErr d;
     toCancel := toCancel d |}.

Definition set_CancelMessage_ (v : string) (d : SwapData) : SwapData :=
  {| Data_Id := Data_Id d;
     Data_Type := Data_Type d;
     Data_Role := Data_Role d;
     InitiatorNodeId := InitiatorNodeId d;
     PeerNodeId := PeerNodeId d;
     PrivkeyBytes := PrivkeyBytes d;
     SwapOutRequest := SwapOutRequest d;
     SwapInRequest := SwapInRequest d;
     SwapOutAgreement := SwapOutAgreement d;
     SwapInAgreement := SwapInAgreement d;
     OpeningTxBroadcasted := OpeningTxBroadcasted d;
     Cancel := Cancel d;
     CoopClose := CoopClose d;
     OpeningTxHex := OpeningTxHex d;
     CancelMessage_ := v;
     NextMessage := NextMessage d;
     NextMessageType := NextMessageType d;
     LastErr := LastErr d;
     toCancel := toCancel d |}.

Definition set_NextMessage (v : list Byte.byte) (d : SwapData) : SwapData :=
  {| Data_Id := Data_Id d;
     Data_Type := Data_Type d;
     Data_Role := Data_Role d;
     InitiatorNodeId := InitiatorNodeId d;
     PeerNodeId := PeerNodeId d;
     PrivkeyBytes := PrivkeyBytes d;
     SwapOutRequest := SwapOutRequest d;
     SwapInRequest := SwapInRequest d;
     SwapOutAgreement := SwapOutAgreement d;
     SwapInAgreement := SwapInAgreement d;
     OpeningTxBroadcasted := OpeningTxBroadcasted d;
     Cancel := Cancel d;
     CoopClose := CoopClose d;
     OpeningTxHex := OpeningTxHex d;
     CancelMessage_ := CancelMessage_ d;
     NextMessage := v;
     NextMessageType := NextMessageType d;
     LastErr := LastErr d;
     toCancel := toCancel d |}.

Definition set_NextMessageType (v : Z) (d : SwapData) : SwapData :=
  {| Data_Id := Data_Id d;
     Data_Type := Data_Type d;
     Data_Role := Data_Role d;
     InitiatorNodeId := InitiatorNodeId d;
     PeerNodeId := PeerNodeId d;
     PrivkeyBytes := PrivkeyBytes d;
     SwapOutRequest := SwapOutRequest d;
     SwapInRequest := SwapInRequest d;
     SwapOutAgreement := SwapOutAgreement d;
     SwapInAgreement := SwapInAgreement d;
     OpeningTxBroadcasted := OpeningTxBroadcasted d;
     Cancel := Cancel d;
     CoopClose := CoopClose d;
     OpeningTxHex := OpeningTxHex d;
     CancelMessage_ := CancelMessage_ d;
     NextMessage := NextMessage d;
     NextMessageType := v;
     LastErr := LastErr d;
     toCancel := toCancel d |}.

Definition set_toCancel (v : bool) (d : SwapData) : SwapData :=
  {| Data_Id := Data_Id d;
     Data_Type := Data_Type d;
     Data_Role := Data_Role d;
     InitiatorNodeId := InitiatorNodeId d;
     PeerNodeId := PeerNodeId d;
     PrivkeyBytes := PrivkeyBytes d;
     SwapOutRequest := SwapOutRequest d;
     SwapInRequest := SwapInRequest d;
     SwapOutAgreement := SwapOutAgreement d;
     SwapInAgreement := SwapInAgreement d;
     OpeningTxBroadcasted := OpeningTxBroadcasted d;
     Cancel := Cancel d;
     CoopClose := CoopClose d;
     OpeningTxHex := OpeningTxHex d;
     CancelMessage_ := CancelMessage_ d;
     NextMessage := NextMessage d;
     NextMessageType := NextMessageType d;
     LastErr := LastErr d;
     toCancel := v |}.

(** [swap.Data = d] and the assignment of one field of [swap.Data]. *)
Definition set_Data (d : SwapData) (swap : SwapStateMachine) : SwapStateMachine :=
  {| Id := Id swap; SwapId_ := SwapId_ swap; Type_ := Type_ swap;
     Role := Role swap; Current := Current swap; Data := d |}.

Definition upd_Data (f : SwapData -> SwapData) (swap : SwapStateMachine) : SwapStateMachine :=
  set_Data (f (Data swap)) swap.

(** ** Collaborators

    [World] is the state outside the registry: the store, the messenger, the
    wallets, the chain watchers and the source of randomness.  Every call that
    leaves this file takes the world and returns the next one.  The fields of
    [SwapServices] are the functions and methods of the package that this file
    calls and that are defined elsewhere. *)

Record SwapServices (World : Type) : Type := {
  (* swap.SendEvent(event, nil): the machine after the call, done, err *)
  SendEvent : World -> SwapStateMachine -> EventType ->
              SwapStateMachine * bool * option error * World;
  (* swap.Recover() *)
  Recover : World -> SwapStateMachine ->
            SwapStateMachine * bool * option error * World;
  IsFinished : SwapStateMachine -> bool;
  (* the constructors of the four role machines *)
  newSwapOutSenderFSM : World -> SwapStateMachine * World;
  newSwapInSenderFSM : World -> SwapStateMachine * World;
  newSwapOutReceiverFSM : SwapId -> SwapStateMachine;
  newSwapInReceiverFSM : SwapId -> SwapStateMachine;
  swapInSenderFromStore : SwapStateMachine -> SwapStateMachine;
  swapInReceiverFromStore : SwapStateMachine -> SwapStateMachine;
  swapOutSenderFromStore : SwapStateMachine -> SwapStateMachine;
  swapOutReceiverFromStore : SwapStateMachine -> SwapStateMachine;
  (* the ephemeral key drawn by NewSwapData and NewSwapDataFromRequest *)
  getRandomPrivkey : World -> list Byte.byte * World;
  (* swap.Data.GetPrivkey().PubKey().SerializeCompressed() *)
  SerializeCompressedPubKey : list Byte.byte -> list Byte.byte;
  GetChain : SwapData -> string;
  (* swapStore.ListAll() *)
  ListAll : World -> result (list SwapStateMachine);
  (* messenger.SendMessage(peerId, msgBytes, msgType) *)
  messenger_SendMessage : World -> string -> list Byte.byte -> Z -> option error * World;
  liquidWallet_GetAsset : string;
  bitcoinWallet_GetNetwork : string;
  liquidEnabled : bool;
  bitcoinEnabled : bool;
  (* messages.HexStringToMessageType *)
  HexStringToMessageType : string -> result MessageType;
  ParseSwapIdFromString : string -> result SwapId;
  MarshalPeerswapMessage : PeerMessage -> result (list Byte.byte * Z);
  (* json.Unmarshal into a pointer of each message type: a message or an
     error.  A payload that leaves the pointer or the swap id of the message
     nil makes the Go code panic at the next field access; such payloads are
     outside these decoders. *)
  Unmarshal_SwapOutRequest : list Byte.byte -> result SwapOutRequestMessage;
  Unmarshal_SwapInRequest : list Byte.byte -> result SwapInRequestMessage;
  Unmarshal_SwapOutAgreement : list Byte.byte -> result SwapOutAgreementMessage;
  Unmarshal_SwapInAgreement : list Byte.byte -> result SwapInAgreementMessage;
  Unmarshal_OpeningTxBroadcasted : list Byte.byte -> result OpeningTxBroadcastedMessage;
  Unmarshal_Cancel : list Byte.byte -> result CancelMessage;
  Unmarshal_CoopClose : list Byte.byte -> result CoopCloseMessage;
  (* the Validate method of each message type *)
  Validate_SwapOutRequest : SwapOutRequestMessage -> option error;
  Validate_SwapInRequest : SwapInRequestMessage -> option error;
  Validate_SwapOutAgreement : SwapOutAgreementMessage -> option error;
  Validate_SwapInAgreement : SwapInAgreementMessage -> option error;
  Validate_OpeningTxBroadcasted : OpeningTxBroadcastedMessage -> string -> option error;
  Validate_CoopClose : CoopCloseMessage -> option error;
  (* the text of ErrEventRejected, declared beside the state machine *)
  ErrEventRejected_text : string
}.

Arguments SendEvent {World} _ _ _ _.
Arguments Recover {World} _ _ _.
Arguments IsFinished {World} _ _.
Arguments newSwapOutSenderFSM {World} _ _.
Arguments newSwapInSenderFSM {World} _ _.
Arguments newSwapOutReceiverFSM {World} _ _.
Arguments newSwapInReceiverFSM {World} _ _.
Arguments swapInSenderFromStore {World} _ _.
Arguments swapInReceiverFromStore {World} _ _.
Arguments swapOutSenderFromStore {World} _ _.
Arguments swapOutReceiverFromStore {World} _ _.
Arguments getRandomPrivkey {World} _ _.
Arguments SerializeCompressedPubKey {World} _ _.
Arguments GetChain {World} _ _.
Arguments ListAll {World} _ _.
Arguments messenger_SendMessage {World} _ _ _ _ _.
Arguments liquidWallet_GetAsset {World} _.
Arguments bitcoinWallet_GetNetwork {World} _.
Arguments liquidEnabled {World} _.
Arguments bitcoinEnabled {World} _.
Arguments HexStringToMessageType {World} _ _.
Arguments ParseSwapIdFromString {World} _ _.
Arguments MarshalPeerswapMessage {World} _ _.
Arguments Unmarshal_SwapOutRequest {World} _ _.
Arguments Unmarshal_SwapInRequest {World} _ _.
Arguments Unmarshal_SwapOutAgreement {World} _ _.
Arguments Unmarshal_SwapInAgreement {World} _ _.
Arguments Unmarshal_OpeningTxBroadcasted {World} _ _.
Arguments Unmarshal_Cancel {World} _ _.
Arguments Unmarshal_CoopClose {World} _ _.
Arguments Validate_SwapOutRequest {World} _ _.
Arguments Validate_SwapInRequest {World} _ _.
Arguments Validate_SwapOutAgreement {World} _ _.
Arguments Validate_SwapInAgreement {World} _ _.
Arguments Validate_OpeningTxBroadcasted {World} _ _ _.
Arguments Validate_CoopClose {World} _ _.
Arguments ErrEventRejected_text {World} _.

(** ** What the registry does to the outside

    [trace] is an observation log kept beside the registry: every event handed
    to a machine (with the machine as it is at the call), every message given
    to the messenger and every handler a dispatcher selects.  It has no
    counterpart in the Go struct and no function reads it. *)

Inductive Handler : Type :=
| H_OnSwapOutRequestReceived
| H_OnSwapOutAgreementReceived
| H_OnTxOpenedMessage
| H_OnCancelReceived
| H_OnSwapInRequestReceived
| H_OnSwapInAgreementReceived
| H_OnCoopCloseReceived
| H_OnFeeInvoicePaid
| H_OnClaimInvoicePaid.

Inductive Effect : Type :=
| Eff_SendEvent (swap : SwapStateMachine) (event : EventType)
| Eff_SendMessage (peerId : string) (msgBytes : list Byte.byte) (msgType : Z)
| Eff_Dispatch (h : Handler) (swapId : SwapId).

(** SwapService contains the logic for swaps.  [activeSwaps] holds pointers in
    Go; here it holds the machines, and every assignment through a pointer
    that the registry holds is written back under the key that holds it. *)
Record SwapService (World : Type) : Type := {
  activeSwaps : gmap string SwapStateMachine;
  BitcoinEnabled : bool;
  LiquidEnabled : bool;
  world : World;
  trace : list Effect
}.

Arguments activeSwaps {World} _.
Arguments BitcoinEnabled {World} _.
Arguments LiquidEnabled {World} _.
Arguments world {World} _.
Arguments trace {World} _.
Arguments Build_SwapService {World} _ _ _ _ _.

(** ** Strings *)

(** [s[n:]] for [n <= len(s)]. *)
Fixpoint string_drop (n : nat) (s : string) : string :=
  match n, s with
  | O, _ => s
  | S n', String _ s' => string_drop n' s'
  | S _, EmptyString => EmptyString
  end.

(** The first occurrence of [sep] in [s]: the text before it and the text
    after it. *)
Fixpoint string_cut (sep s : string) : option (string * string) :=
  if String.prefix sep s then Some (EmptyString, string_drop (String.length sep) s)
  else match s with
       | EmptyString => None
       | String c s' =>
           match string_cut sep s' with
           | Some (before, after) => Some (String c before, after)
           | None => None
           end
       end.

(** [strings.SplitN(s, sep, 2)] for a non-empty separator. *)
Definition SplitN_2 (s sep : string) : list string :=
  match string_cut sep s with
  | Some (before, after) => [before; after]
  | None => [s]
  end.

Definition getPaymentLabel (description : string) : string :=
  let parts := SplitN_2 description PaymentLabelSeparator in
  if negb (Nat.eqb (List.length parts) 2) then EmptyString
  else nth 0 parts EmptyString.

(** ** SwapData helpers defined outside this file *)

(** Modelled from the spec: GetScid is defined with SwapData; the channel of a
    swap is the scid of its stored request envelope. *)
Definition GetScid (d : SwapData) : string :=
  match SwapInRequest d with
  | Some m => sir_Scid m
  | None =>
      match SwapOutRequest d with
      | Some m => sor_Scid m
      | None => EmptyString
      end
  end.

(** Modelled from the spec: NewSwapData is defined with SwapData; it records
    the id, the type, the initiator and the peer of a swap this node starts,
    with an ephemeral key. *)
Definition NewSwapData (swapId : SwapId) (swapType : SwapType)
    (initiatorNodeId peerNodeId : string) (privkey : list Byte.byte) : SwapData :=
  {| Data_Id := swapId; Data_Type := swapType; Data_Role := SWAPROLE_SENDER;
     InitiatorNodeId := initiatorNodeId; PeerNodeId := peerNodeId;
     PrivkeyBytes := privkey;
     SwapOutRequest := None; SwapInRequest := None; SwapOutAgreement := None;
     SwapInAgreement := None; OpeningTxBroadcasted := None; Cancel := None;
     CoopClose := None; OpeningTxHex := EmptyString;
     CancelMessage_ := EmptyString; NextMessage := []; NextMessageType := 0%Z;
     LastErr := None; toCancel := false |}.

(** Modelled from the spec: NewSwapDataFromRequest is defined with SwapData;
    it records the id, the type and the requesting peer of a swap this node
    answers, with an ephemeral key. *)
Definition NewSwapDataFromRequest (swapId : SwapId) (senderNodeId : string)
    (swapType : SwapType) (privkey : list Byte.byte) : SwapData :=
  {| Data_Id := swapId; Data_Type := swapType; Data_Role := SWAPROLE_RECEIVER;
     InitiatorNodeId := senderNodeId; PeerNodeId := senderNodeId;
     PrivkeyBytes := privkey;
     SwapOutRequest := None; SwapInRequest := None; SwapOutAgreement := None;
     SwapInAgreement := None; OpeningTxBroadcasted := None; Cancel := None;
     CoopClose := None; OpeningTxHex := EmptyString;
     CancelMessage_ := EmptyString; NextMessage := []; NextMessageType := 0%Z;
     LastErr := None; toCancel := false |}.

(** Modelled from the spec: WithSwapInMessage and WithSwapOutMessage are
    defined with SwapData; each stores the request envelope. *)
Definition WithSwapInMessage (message : SwapInRequestMessage) (d : SwapData) : SwapData :=
  set_SwapInRequest (Some message) d.

Definition WithSwapOutMessage (message : SwapOutRequestMessage) (d : SwapData) : SwapData :=
  set_SwapOutRequest (Some message) d.

Definition ErrReceivedMessageFromUnexpectedPeer (peerId : string) (swapId : SwapId) : error :=
  ErrorString ("received a message from an unexpected peer, peerId: " ++ peerId
               ++ ", swapId: " ++ SwapId_String swapId).

(** The error of the admission check, [fmt.Errorf] with a constant text. *)
Definition ErrActiveSwapOnChannel : error :=
  ErrorString "already has an active swap on channel".

Definition ErrPayloadTooLarge : error :=
  ErrorString "Payload is unexpectedly large".

Section Service.

Context {World : Type}.
Variable sv : SwapServices World.

Local Abbreviation Service := (SwapService World).

(** [err.Error()] *)
Definition Error_ (e : error) : string :=
  match e with
  | ErrSwapDoesNotExist => "swap does not exist"
  | ErrEventRejected => ErrEventRejected_text sv
  | ErrUnknownSwapMessageType s => "message type " ++ s ++ " is unknown to peerswap"
  | PeerNotAllowedError s => "requests from peer " ++ s ++ " are not allowed"
  | WrongAssetError s => "unallowed asset: " ++ s
  | ErrorString msg => msg
  end.

Definition NewSwapService : World -> Service := fun w =>
  {| activeSwaps := ∅;
     BitcoinEnabled := bitcoinEnabled sv;
     LiquidEnabled := liquidEnabled sv;
     world := w;
     trace := [] |}.

Definition with_activeSwaps (f : gmap string SwapStateMachine -> gmap string SwapStateMachine)
    (s : Service) : Service :=
  {| activeSwaps := f (activeSwaps s);
     BitcoinEnabled := BitcoinEnabled s; LiquidEnabled := LiquidEnabled s;
     world := world s; trace := trace s |}.

Definition with_world (w : World) (s : Service) : Service :=
  {| activeSwaps := activeSwaps s;
     BitcoinEnabled := BitcoinEnabled s; LiquidEnabled := LiquidEnabled s;
     world := w; trace := trace s |}.

Definition observe (e : Effect) (s : Service) : Service :=
  {| activeSwaps := activeSwaps s;
     BitcoinEnabled := BitcoinEnabled s; LiquidEnabled := LiquidEnabled s;
     world := world s; trace := trace s ++ [e] |}.

(** AddActiveSwap adds a swap to the active swaps *)
Definition AddActiveSwap (s : Service) (swapId : string) (swap : SwapStateMachine) : Service :=
  with_activeSwaps (fun m => <[swapId := swap]> m) s.

(** GetActiveSwap returns the active swap, or an error if it does not exist *)
Definition GetActiveSwap (s : Service) (swapId : string) : result SwapStateMachine :=
  match activeSwaps s !! swapId with
  | Some swap => Ok swap
  | None => Err ErrSwapDoesNotExist
  end.

(** RemoveActiveSwap removes a swap from the active swap map *)
Definition RemoveActiveSwap (s : Service) (swapId : string) : Service :=
  with_activeSwaps (fun m => delete swapId m) s.

(** The loop returns true at the first match; the order of a Go map range does
    not matter for that. *)
Definition hasActiveSwapOnChannel (s : Service) (channelId : string) : bool :=
  existsb (fun kv => String.eqb (GetScid (Data (snd kv))) channelId)
          (map_to_list (activeSwaps s)).

(** isMessageSenderExpectedPeer returns true if the senderId matches the
    PeerNodeId of the swap, false if not. *)
Definition isMessageSenderExpectedPeer (s : Service) (senderId : string) (swapId : SwapId)
    : result bool :=
  match GetActiveSwap s (SwapId_String swapId) with
  | Err err => Err err
  | Ok swap => Ok (String.eqb (PeerNodeId (Data swap)) senderId)
  end.

(** An assignment through the pointer [swap] that the registry holds under
    [key]: the registry sees the new value. *)
Definition assign (s : Service) (key : string) (swap : SwapStateMachine) : Service :=
  with_activeSwaps (fun m => <[key := swap]> m) s.

(** [done, err := swap.SendEvent(event, nil)] on the machine that the registry
    holds under [key]. *)
Definition swap_SendEvent (s : Service) (key : string) (swap : SwapStateMachine)
    (event : EventType) : SwapStateMachine * bool * option error * Service :=
  let s := observe (Eff_SendEvent swap event) s in
  let '(swap', done, err, w) := SendEvent sv (world s) swap event in
  (swap', done, err, assign (with_world w s) key swap').

(** The lines that follow most calls of SendEvent:
    [if err != nil { return err }; if done { s.RemoveActiveSwap(swap.Id) }; return nil]. *)
Definition return_after_SendEvent (r : SwapStateMachine * bool * option error * Service)
    : option error * Service :=
  let '(swap, done, err, s) := r in
  match err with
  | Some e => (Some e, s)
  | None => (None, if done then RemoveActiveSwap s (Id swap) else s)
  end.

(** [s.swapServices.messenger.SendMessage(peerId, msgBytes, msgType)] *)
Definition SendMessage (s : Service) (peerId : string) (msgBytes : list Byte.byte)
    (msgType : Z) : option error * Service :=
  let s := observe (Eff_SendMessage peerId msgBytes msgType) s in
  let '(err, w) := messenger_SendMessage sv (world s) peerId msgBytes msgType in
  (err, with_world w s).

(** ** Chain callbacks *)

(** OnTxConfirmed sends the txconfirmed event to the corresponding swap *)
Definition OnTxConfirmed (s : Service) (swapId txHex : string) : option error * Service :=
  match GetActiveSwap s swapId with
  | Err err => (Some err, s)
  | Ok swap =>
      let swap := upd_Data (set_OpeningTxHex txHex) swap in
      let s := assign s swapId swap in
      let '(swap, done, err, s) := swap_SendEvent s swapId swap Event_OnTxConfirmed in
      match err with
      | Some ErrEventRejected => (None, s)
      | Some err => (Some err, s)
      | None => (None, if done then RemoveActiveSwap s (Id swap) else s)
      end
  end.

(** OnCsvPassed sends the csvpassed event to the corresponding swap *)
Definition OnCsvPassed (s : Service) (swapId : string) : option error * Service :=
  match GetActiveSwap s swapId with
  | Err err => (Some err, s)
  | Ok swap =>
      let '(swap, done, err, s) := swap_SendEvent s swapId swap Event_OnCsvPassed in
      match err with
      | Some ErrEventRejected => (None, s)
      | Some err => (Some err, s)
      | None => (None, if done then RemoveActiveSwap s (Id swap) else s)
      end
  end.

(** ** Starting a swap *)

(** The two wire fields chosen from the chain argument:
    [(elementsAsset, bitcoinNetwork)], both empty at their declaration. *)
Definition chain_fields (chain : string) : string * string :=
  if String.eqb chain l_btc_chain then (liquidWallet_GetAsset sv, EmptyString)
  else if String.eqb chain btc_chain then (EmptyString, bitcoinWallet_GetNetwork sv)
  else (EmptyString, EmptyString).

(** SwapOut starts a new swap out process *)
Definition SwapOut (s : Service) (peer chain channelId initiator : string) (amount : Z)
    : result SwapStateMachine * Service :=
  if hasActiveSwapOnChannel s channelId then (Err ErrActiveSwapOnChannel, s)
  else
    let '(swap, w) := newSwapOutSenderFSM sv (world s) in
    let key := Id swap in
    let s := AddActiveSwap (with_world w s) key swap in
    let '(privkey, w) := getRandomPrivkey sv (world s) in
    let swap := set_Data (NewSwapData (SwapId_ swap) SWAPTYPE_OUT initiator peer privkey) swap in
    let s := assign (with_world w s) key swap in
    let '(elementsAsset, bitcoinNetwork) := chain_fields chain in
    let request :=
      {| sor_ProtocolVersion := PEERSWAP_PROTOCOL_VERSION;
         sor_SwapId := SwapId_ swap;
         sor_Asset := elementsAsset;
         sor_Network := bitcoinNetwork;
         sor_Scid := channelId;
         sor_Amount := amount;
         sor_Pubkey := EncodeToString
                         (SerializeCompressedPubKey sv (PrivkeyBytes (Data swap))) |} in
    let swap := upd_Data (set_SwapOutRequest (Some request)) swap in
    let s := assign s key swap in
    match MarshalPeerswapMessage sv (PM_SwapOutRequest request) with
    | Err err => (Err err, s)
    | Ok (nextMessage, nextMessageType) =>
        let swap := upd_Data (set_NextMessage nextMessage) swap in
        let swap := upd_Data (set_NextMessageType nextMessageType) swap in
        let s := assign s key swap in
        let '(swap, done, err, s) := swap_SendEvent s key swap Event_OnSwapOutStarted in
        match err with
        | Some err => (Err err, s)
        | None => (Ok swap, if done then RemoveActiveSwap s (Id swap) else s)
        end
    end.

(** SwapIn starts a new swap in process *)
Definition SwapIn (s : Service) (peer chain channelId initiator : string) (amount : Z)
    : result SwapStateMachine * Service :=
  if hasActiveSwapOnChannel s channelId then (Err ErrActiveSwapOnChannel, s)
  else
    let '(elementsAsset, bitcoinNetwork) := chain_fields chain in
    let '(swap, w) := newSwapInSenderFSM sv (world s) in
    let key := Id swap in
    let s := AddActiveSwap (with_world w s) key swap in
    let '(privkey, w) := getRandomPrivkey sv (world s) in
    let swap := set_Data (NewSwapData (SwapId_ swap) SWAPTYPE_IN initiator peer privkey) swap in
    let s := assign (with_world w s) key swap in
    let request :=
      {| sir_ProtocolVersion := PEERSWAP_PROTOCOL_VERSION;
         sir_SwapId := SwapId_ swap;
         sir_Asset := elementsAsset;
         sir_Network := bitcoinNetwork;
         sir_Scid := channelId;
         sir_Amount := amount;
         sir_Pubkey := EncodeToString
                         (SerializeCompressedPubKey sv (PrivkeyBytes (Data swap))) |} in
    let swap := upd_Data (set_SwapInRequest (Some request)) swap in
    let s := assign s key swap in
    match MarshalPeerswapMessage sv (PM_SwapInRequest request) with
    | Err err => (Err err, s)
    | Ok (nextMessage, nextMessageType) =>
        let swap := upd_Data (set_NextMessage nextMessage) swap in
        let swap := upd_Data (set_NextMessageType nextMessageType) swap in
        let s := assign s key swap in
        let '(swap, done, err, s) :=
          swap_SendEvent s key swap Event_SwapInSender_OnSwapInRequested in
        match err with
        | Some err => (Err err, s)
        | None => (Ok swap, if done then RemoveActiveSwap s (Id swap) else s)
        end
    end.

(** The answer to a request that fails validation: a CancelMessage with the
    reason goes to the peer and the result of the send is returned. *)
Definition reject_request (s : Service) (swapId : SwapId) (peerId : string) (err : error)
    : option error * Service :=
  match MarshalPeerswapMessage sv
          (PM_Cancel {| cm_SwapId := swapId;
                        cm_Message := "invalid request " ++ Error_ err |}) with
  | Err err => (Some err, s)
  | Ok (msgBytes, msgType) => SendMessage s peerId msgBytes msgType
  end.

(** OnSwapInRequestReceived creates a new swap-in process and sends the event
    to the swap statemachine *)
Definition OnSwapInRequestReceived (s : Service) (swapId : SwapId) (peerId : string)
    (message : SwapInRequestMessage) : option error * Service :=
  if hasActiveSwapOnChannel s (sir_Scid message) then (Some ErrActiveSwapOnChannel, s)
  else
    match Validate_SwapInRequest sv message with
    | Some err => reject_request s swapId peerId err
    | None =>
        let swap := newSwapInReceiverFSM sv swapId in
        let key := SwapId_String swapId in
        let s := AddActiveSwap s key swap in
        let '(privkey, w) := getRandomPrivkey sv (world s) in
        let swap :=
          set_Data (WithSwapInMessage message
                      (NewSwapDataFromRequest (SwapId_ swap) peerId SWAPTYPE_OUT privkey))
                   swap in
        let s := assign (with_world w s) key swap in
        let '(swap, done, err, s) :=
          swap_SendEvent s key swap Event_SwapInReceiver_OnRequestReceived in
        (err, if done then RemoveActiveSwap s (Id swap) else s)
    end.

(** OnSwapOutRequestReceived creates a new swap-out process and sends the
    event to the swap statemachine *)
Definition OnSwapOutRequestReceived (s : Service) (swapId : SwapId) (peerId : string)
    (message : SwapOutRequestMessage) : option error * Service :=
  if hasActiveSwapOnChannel s (sor_Scid message) then (Some ErrActiveSwapOnChannel, s)
  else
    match Validate_SwapOutRequest sv message with
    | Some err => reject_request s swapId peerId err
    | None =>
        let swap := newSwapOutReceiverFSM sv swapId in
        let '(privkey, w) := getRandomPrivkey sv (world s) in
        let swap :=
          set_Data (WithSwapOutMessage message
                      (NewSwapDataFromRequest (SwapId_ swap) peerId SWAPTYPE_OUT privkey))
                   swap in
        let key := SwapId_String swapId in
        let s := AddActiveSwap (with_world w s) key swap in
        return_after_SendEvent (swap_SendEvent s key swap Event_OnSwapOutRequestReceived)
    end.

(** ** Stage messages *)

Definition HandleInvalidMessage (s : Service) (key : string) (swapFsm : SwapStateMachine)
    (err : error) : option error * Service :=
  let swapFsm := upd_Data (set_CancelMessage_ ("invalid request " ++ Error_ err)) swapFsm in
  let s := assign s key swapFsm in
  return_after_SendEvent (swap_SendEvent s key swapFsm Event_OnInvalid_Message).

(** OnSwapInAgreementReceived sends the agreementreceived event to the
    corresponding swap state machine *)
Definition OnSwapInAgreementReceived (s : Service) (msg : SwapInAgreementMessage)
    : option error * Service :=
  let key := SwapId_String (sia_SwapId msg) in
  match GetActiveSwap s key with
  | Err err => (Some err, s)
  | Ok swap =>
      match Validate_SwapInAgreement sv msg with
      | Some err =>
          let swap := upd_Data (set_CancelMessage_ ("invalid request " ++ Error_ err)) swap in
          let s := assign s key swap in
          return_after_SendEvent (swap_SendEvent s key swap Event_OnInvalid_Message)
      | None =>
          let swap := upd_Data (set_SwapInAgreement (Some msg)) swap in
          let s := assign s key swap in
          return_after_SendEvent
            (swap_SendEvent s key swap Event_SwapInSender_OnAgreementReceived)
      end
  end.

(** OnSwapOutAgreementReceived sends the FeeInvoiceReceived event to the
    corresponding swap state machine *)
Definition OnSwapOutAgreementReceived (s : Service) (message : SwapOutAgreementMessage)
    : option error * Service :=
  let key := SwapId_String (soa_SwapId message) in
  match GetActiveSwap s key with
  | Err err => (Some err, s)
  | Ok swap =>
      match Validate_SwapOutAgreement sv message with
      | Some err => HandleInvalidMessage s key swap err
      | None =>
          let swap := upd_Data (set_SwapOutAgreement (Some message)) swap in
          let s := assign s key swap in
          return_after_SendEvent (swap_SendEvent s key swap Event_OnFeeInvoiceReceived)
      end
  end.

(** OnFeeInvoicePaid sends the FeeInvoicePaid event to the corresponding swap
    state machine *)
Definition OnFeeInvoicePaid (s : Service) (swapId : SwapId) : option error * Service :=
  let key := SwapId_String swapId in
  match GetActiveSwap s key with
  | Err err => (Some err, s)
  | Ok swap => return_after_SendEvent (swap_SendEvent s key swap Event_OnFeeInvoicePaid)
  end.

(** OnClaimInvoicePaid sends the ClaimInvoicePaid event to the corresponding
    swap state machine *)
Definition OnClaimInvoicePaid (s : Service) (swapId : SwapId) : option error * Service :=
  let key := SwapId_String swapId in
  match GetActiveSwap s key with
  | Err err => (Some err, s)
  | Ok swap => return_after_SendEvent (swap_SendEvent s key swap Event_OnClaimInvoicePaid)
  end.

(** OnTxOpenedMessage sends the TxOpenedMessage event to the corresponding
    swap state machine *)
Definition OnTxOpenedMessage (s : Service) (message : OpeningTxBroadcastedMessage)
    : option error * Service :=
  let key := SwapId_String (otb_SwapId message) in
  match GetActiveSwap s key with
  | Err err => (Some err, s)
  | Ok swap =>
      match Validate_OpeningTxBroadcasted sv message (GetChain sv (Data swap)) with
      | Some err => HandleInvalidMessage s key swap err
      | None =>
          let swap := upd_Data (set_OpeningTxBroadcasted (Some message)) swap in
          let s := assign s key swap in
          return_after_SendEvent (swap_SendEvent s key swap Event_OnTxOpenedMessage)
      end
  end.

(** SenderOnTxConfirmed sends the TxConfirmed event to the corresponding swap
    state machine; the swap is removed after the event in every case. *)
Definition SenderOnTxConfirmed (s : Service) (swapId : string) : option error * Service :=
  match GetActiveSwap s swapId with
  | Err err => (Some err, s)
  | Ok swap =>
      let '(swap, done, err, s) := swap_SendEvent s swapId swap Event_OnTxConfirmed in
      match err with
      | Some err => (Some err, s)
      | None =>
          let s := if done then RemoveActiveSwap s (Id swap) else s in
          (None, RemoveActiveSwap s (Id swap))
      end
  end.

(** OnPayment handles incoming payments and if it corresponds to a claim or
    fee invoice passes the data to the corresponding function.  It returns
    nothing; the errors are logged. *)
Definition OnPayment (s : Service) (description : string) : Service :=
  let label := getPaymentLabel description in
  if String.eqb label "fee" then
    match ParseSwapIdFromString sv (string_drop 4 description) with
    | Err _ => s
    | Ok swapId =>
        snd (OnFeeInvoicePaid (observe (Eff_Dispatch H_OnFeeInvoicePaid swapId) s) swapId)
    end
  else if String.eqb label "claim" then
    match ParseSwapIdFromString sv (string_drop 6 description) with
    | Err _ => s
    | Ok swapId =>
        snd (OnClaimInvoicePaid (observe (Eff_Dispatch H_OnClaimInvoicePaid swapId) s) swapId)
    end
  else s.

(** OnCancelReceived sends the CancelReceived event to the corresponding swap
    state machine *)
Definition OnCancelReceived (s : Service) (swapId : SwapId) (cancelMsg : CancelMessage)
    : option error * Service :=
  let key := SwapId_String swapId in
  match GetActiveSwap s key with
  | Err err => (Some err, s)
  | Ok swap =>
      let swap := upd_Data (set_Cancel (Some cancelMsg)) swap in
      let s := assign s key swap in
      return_after_SendEvent (swap_SendEvent s key swap Event_OnCancelReceived)
  end.

(** OnCoopCloseReceived sends the CoopMessage event to the corresponding swap
    state machine *)
Definition OnCoopCloseReceived (s : Service) (swapId : SwapId)
    (coopCloseMessage : CoopCloseMessage) : option error * Service :=
  let key := SwapId_String swapId in
  match GetActiveSwap s key with
  | Err err => (Some err, s)
  | Ok swap =>
      match Validate_CoopClose sv coopCloseMessage with
      | Some err => HandleInvalidMessage s key swap err
      | None =>
          let swap := upd_Data (set_CoopClose (Some coopCloseMessage)) swap in
          let s := assign s key swap in
          return_after_SendEvent (swap_SendEvent s key swap Event_OnCoopCloseReceived)
      end
  end.

(** ** Message dispatch *)

(** The check made for every message that is not a request, before its
    handler: the result of the handler, or the error of the check. *)
Definition dispatch_checked (s : Service) (peerId : string) (swapId : SwapId)
    (h : Handler) (handler : Service -> option error * Service) : option error * Service :=
  match isMessageSenderExpectedPeer s peerId swapId with
  | Err err => (Some err, s)
  | Ok ok =>
      if negb ok then (Some (ErrReceivedMessageFromUnexpectedPeer peerId swapId), s)
      else handler (observe (Eff_Dispatch h swapId) s)
  end.

(** The body of OnMessageReceived below its size check: the type tag is
    parsed, the payload is decoded for that type and the handler is called. *)
Definition dispatchMessage (s : Service) (peerId msgTypeString : string)
    (payload : list Byte.byte) : option error * Service :=
    match HexStringToMessageType sv msgTypeString with
    | Err err => (Some err, s)
    | Ok msgType =>
        match msgType with
        | MESSAGETYPE_SWAPOUTREQUEST =>
            match Unmarshal_SwapOutRequest sv payload with
            | Err err => (Some err, s)
            | Ok msg =>
                OnSwapOutRequestReceived
                  (observe (Eff_Dispatch H_OnSwapOutRequestReceived (sor_SwapId msg)) s)
                  (sor_SwapId msg) peerId msg
            end
        | MESSAGETYPE_SWAPOUTAGREEMENT =>
            match Unmarshal_SwapOutAgreement sv payload with
            | Err err => (Some err, s)
            | Ok msg =>
                dispatch_checked s peerId (soa_SwapId msg) H_OnSwapOutAgreementReceived
                  (fun s => OnSwapOutAgreementReceived s msg)
            end
        | MESSAGETYPE_OPENINGTXBROADCASTED =>
            match Unmarshal_OpeningTxBroadcasted sv payload with
            | Err err => (Some err, s)
            | Ok msg =>
                dispatch_checked s peerId (otb_SwapId msg) H_OnTxOpenedMessage
                  (fun s => OnTxOpenedMessage s msg)
            end
        | MESSAGETYPE_CANCELED =>
            match Unmarshal_Cancel sv payload with
            | Err err => (Some err, s)
            | Ok msg =>
                dispatch_checked s peerId (cm_SwapId msg) H_OnCancelReceived
                  (fun s => OnCancelReceived s (cm_SwapId msg) msg)
            end
        | MESSAGETYPE_SWAPINREQUEST =>
            match Unmarshal_SwapInRequest sv payload with
            | Err err => (Some err, s)
            | Ok msg =>
                OnSwapInRequestReceived
                  (observe (Eff_Dispatch H_OnSwapInRequestReceived (sir_SwapId msg)) s)
                  (sir_SwapId msg) peerId msg
            end
        | MESSAGETYPE_SWAPINAGREEMENT =>
            match Unmarshal_SwapInAgreement sv payload with
            | Err err => (Some err, s)
            | Ok msg =>
                dispatch_checked s peerId (sia_SwapId msg) H_OnSwapInAgreementReceived
                  (fun s => OnSwapInAgreementReceived s msg)
            end
        | MESSAGETYPE_COOPCLOSE =>
            match Unmarshal_CoopClose sv payload with
            | Err err => (Some err, s)
            | Ok msg =>
                dispatch_checked s peerId (ccm_SwapId msg) H_OnCoopCloseReceived
                  (fun s => OnCoopCloseReceived s (ccm_SwapId msg) msg)
            end
        | MESSAGETYPE_OTHER _ => (None, s)
        end
    end.

(** OnMessageReceived handles incoming valid peermessages *)
Definition OnMessageReceived (s : Service) (peerId msgTypeString : string)
    (payload : list Byte.byte) : option error * Service :=
  if (Z.of_nat (List.length payload) >? 100 * 1024)%Z then (Some ErrPayloadTooLarge, s)
  else dispatchMessage s peerId msgTypeString payload.

(** ** Recovery *)

(** The machine constructor chosen from the stored type and role. *)
Definition fromStore (swap : SwapStateMachine) : SwapStateMachine :=
  if SwapType_eqb (Type_ swap) SWAPTYPE_IN && SwapRole_eqb (Role swap) SWAPROLE_SENDER
  then swapInSenderFromStore sv swap
  else if SwapType_eqb (Type_ swap) SWAPTYPE_IN && SwapRole_eqb (Role swap) SWAPROLE_RECEIVER
  then swapInReceiverFromStore sv swap
  else if SwapType_eqb (Type_ swap) SWAPTYPE_OUT && SwapRole_eqb (Role swap) SWAPROLE_SENDER
  then swapOutSenderFromStore sv swap
  else if SwapType_eqb (Type_ swap) SWAPTYPE_OUT && SwapRole_eqb (Role swap) SWAPROLE_RECEIVER
  then swapOutReceiverFromStore sv swap
  else swap.

(** The body of the loop of RecoverSwaps over the stored swaps. *)
Fixpoint RecoverSwaps_loop (s : Service) (swaps : list SwapStateMachine)
    : option error * Service :=
  match swaps with
  | [] => (None, s)
  | swap :: rest =>
      if IsFinished sv swap then RecoverSwaps_loop s rest
      else
        let swap := fromStore swap in
        let key := Id swap in
        let s := AddActiveSwap s key swap in
        let '(swap, done, err, w) := Recover sv (world s) swap in
        let s := assign (with_world w s) key swap in
        match err with
        | Some err => (Some err, s)
        | None =>
            RecoverSwaps_loop (if done then RemoveActiveSwap s (Id swap) else s) rest
        end
  end.

(** RecoverSwaps tries to recover swaps that are not yet finished *)
Definition RecoverSwaps (s : Service) : option error * Service :=
  match ListAll sv (world s) with
  | Err err => (Some err, s)
  | Ok swaps => RecoverSwaps_loop s swaps
  end.

(** The function returned by createTimeoutCallback. *)
Definition timeoutCallback (s : Service) (swapId : string) : Service :=
  match GetActiveSwap s swapId with
  | Err _ => s
  | Ok swap =>
      let swap := upd_Data (set_toCancel false) swap in
      let s := assign s swapId swap in
      let '(swap, done, err, s) := swap_SendEvent s swapId swap Event_OnTimeout in
      match err with
      | Some _ => s
      | None => if done then RemoveActiveSwap s (Id swap) else s
      end
  end.

End Service.

(** ** A small instance of the collaborators

    One concrete [SwapServices] on which the registry can be run: a machine
    with a handful of states, a store held in the world, identifiers drawn
    from a counter and a toy wire format (32 bytes of swap id, then text). *)

Module Demo.

Record World : Type := {
  counter : N;
  stored : list SwapStateMachine;
  sent : nat
}.

Definition byte_of_N (n : N) : Byte.byte :=
  match Byte.of_N (n mod 256) with
  | Some b => b
  | None => Byte.x00
  end.

Definition fresh_id (n : N) : SwapId :=
  {| swapid_bytes := repeat Byte.x00 31 ++ [byte_of_N n] |}.

Definition tick (w : World) : World :=
  {| counter := counter w + 1; stored := stored w; sent := sent w |}.

Definition emptyData (id : SwapId) : SwapData :=
  NewSwapData id SWAPTYPE_OUT EmptyString EmptyString [].

Definition newFSM (id : SwapId) (t : SwapType) (r : SwapRole) : SwapStateMachine :=
  {| Id := SwapId_String id; SwapId_ := id; Type_ := t; Role := r;
     Current := EmptyString; Data := emptyData id |}.

(** The transition table: the next state and whether it is terminal. *)
Definition next (cur : string) (ev : EventType) : option (string * bool) :=
  match ev with
  | Event_OnSwapOutStarted | Event_SwapInSender_OnSwapInRequested =>
      if String.eqb cur "" then Some ("AwaitingAgreement", false) else None
  | Event_OnSwapOutRequestReceived | Event_SwapInReceiver_OnRequestReceived =>
      if String.eqb cur "" then Some ("AwaitingOpeningTx", false) else None
  | Event_OnFeeInvoiceReceived | Event_SwapInSender_OnAgreementReceived =>
      if String.eqb cur "AwaitingAgreement" then Some ("AwaitingOpeningTx", false) else None
  | Event_OnTxOpenedMessage =>
      if String.eqb cur "AwaitingOpeningTx" then Some ("AwaitingConfirmation", false) else None
  | Event_OnTxConfirmed =>
      if String.eqb cur "AwaitingConfirmation" then Some ("ClaimedPreimage", true) else None
  | Event_OnCsvPassed =>
      if String.eqb cur "AwaitingConfirmation" then Some ("ClaimedCsv", true) else None
  | Event_OnInvalid_Message | Event_OnCancelReceived | Event_OnTimeout =>
      if String.eqb cur "AwaitingClaim" then None else Some ("Canceled", true)
  | _ => None
  end.

Definition move (cur : string) (m : SwapStateMachine) : SwapStateMachine :=
  {| Id := Id m; SwapId_ := SwapId_ m; Type_ := Type_ m; Role := Role m;
     Current := cur; Data := Data m |}.

(** A machine in state "StoreDown" fails every event with a store error; in
    every other state an event without a transition is rejected and leaves
    the machine as it is. *)
Definition sendEvent (w : World) (m : SwapStateMachine) (ev : EventType)
    : SwapStateMachine * bool * option error * World :=
  if String.eqb (Current m) "StoreDown"
  then (m, false, Some (ErrorString "store: write failed"), w)
  else match next (Current m) ev with
       | None => (m, false, Some ErrEventRejected, w)
       | Some (cur, done) =>
           (move cur m, done, None,
            {| counter := counter w; stored := move cur m :: stored w; sent := sent w |})
       end.

Definition isFinished (m : SwapStateMachine) : bool :=
  String.eqb (Current m) "Canceled" || String.eqb (Current m) "ClaimedPreimage"
  || String.eqb (Current m) "ClaimedCsv".

Definition unhex (c : ascii) : option N :=
  let n := N_of_ascii c in
  if ((48 <=? n) && (n <=? 57))%N then Some (n - 48)%N
  else if ((97 <=? n) && (n <=? 102))%N then Some (n - 87)%N
  else None.

Fixpoint decodeHex (s : string) : option (list Byte.byte) :=
  match s with
  | EmptyString => Some []
  | String a (String b rest) =>
      match unhex a, unhex b, decodeHex rest with
      | Some x, Some y, Some bs => Some (byte_of_N (16 * x + y) :: bs)
      | _, _, _ => None
      end
  | String _ EmptyString => None
  end.

(** The parser accepts exactly 64 hex characters. *)
Definition parseSwapId (s : string) : result SwapId :=
  if Nat.eqb (String.length s) 64 then
    match decodeHex s with
    | Some bs => Ok {| swapid_bytes := bs |}
    | None => Err (ErrorString "encoding/hex: invalid byte")
    end
  else Err (ErrorString "SwapId must be 32 bytes").

Definition hexToMessageType (s : string) : result MessageType :=
  if String.eqb s "a455" then Ok MESSAGETYPE_SWAPINREQUEST
  else if String.eqb s "a457" then Ok MESSAGETYPE_SWAPOUTREQUEST
  else if String.eqb s "a459" then Ok MESSAGETYPE_SWAPINAGREEMENT
  else if String.eqb s "a45b" then Ok MESSAGETYPE_SWAPOUTAGREEMENT
  else if String.eqb s "a45d" then Ok MESSAGETYPE_OPENINGTXBROADCASTED
  else if String.eqb s "a45f" then Ok MESSAGETYPE_CANCELED
  else if String.eqb s "a461" then Ok MESSAGETYPE_COOPCLOSE
  else if String.eqb s "a463" then Ok (MESSAGETYPE_OTHER 42083)
  else Err (ErrUnknownSwapMessageType s).

Definition text_of (bs : list Byte.byte) : string := string_of_list_byte bs.
Definition bytes_of (s : string) : list Byte.byte := list_byte_of_string s.

(** The toy wire format: the swap id, then one text field. *)
Definition split_payload (payload : list Byte.byte) : result (SwapId * string) :=
  if Nat.ltb (List.length payload) 32 then Err (ErrorString "unexpected end of JSON input")
  else Ok ({| swapid_bytes := firstn 32 payload |}, text_of (skipn 32 payload)).

Definition with_payload {A : Type} (f : SwapId -> string -> A) (payload : list Byte.byte)
    : result A :=
  match split_payload payload with
  | Err e => Err e
  | Ok (id, text) => Ok (f id text)
  end.

Definition marshal (m : PeerMessage) : result (list Byte.byte * Z) :=
  match m with
  | PM_SwapInRequest r => Ok ((swapid_bytes (sir_SwapId r) ++ bytes_of (sir_Scid r))%list, 42069%Z)
  | PM_SwapOutRequest r => Ok ((swapid_bytes (sor_SwapId r) ++ bytes_of (sor_Scid r))%list, 42071%Z)
  | PM_SwapInAgreement r => Ok ((swapid_bytes (sia_SwapId r) ++ bytes_of (sia_Pubkey r))%list, 42073%Z)
  | PM_SwapOutAgreement r => Ok ((swapid_bytes (soa_SwapId r) ++ bytes_of (soa_Payreq r))%list, 42075%Z)
  | PM_OpeningTxBroadcasted r =>
      Ok ((swapid_bytes (otb_SwapId r) ++ bytes_of (otb_TxId r))%list, 42077%Z)
  | PM_Cancel r => Ok ((swapid_bytes (cm_SwapId r) ++ bytes_of (cm_Message r))%list, 42079%Z)
  | PM_CoopClose r => Ok ((swapid_bytes (ccm_SwapId r) ++ bytes_of (ccm_Message r))%list, 42081%Z)
  end.

Definition check_version (v : Z) : option error :=
  if (v =? PEERSWAP_PROTOCOL_VERSION)%Z then None
  else Some (ErrorString "incompatible protocol version").

Definition check_text (s : string) : option error :=
  if String.eqb s "" then Some (ErrorString "missing field") else None.

Definition sv : SwapServices World :=
  {| SendEvent := sendEvent;
     Recover := fun w m => (m, isFinished m, None, w);
     IsFinished := isFinished;
     newSwapOutSenderFSM := fun w =>
       (newFSM (fresh_id (counter w)) SWAPTYPE_OUT SWAPROLE_SENDER, tick w);
     newSwapInSenderFSM := fun w =>
       (newFSM (fresh_id (counter w)) SWAPTYPE_IN SWAPROLE_SENDER, tick w);
     newSwapOutReceiverFSM := fun id => newFSM id SWAPTYPE_OUT SWAPROLE_RECEIVER;
     newSwapInReceiverFSM := fun id => newFSM id SWAPTYPE_IN SWAPROLE_RECEIVER;
     swapInSenderFromStore := fun m => m;
     swapInReceiverFromStore := fun m => m;
     swapOutSenderFromStore := fun m => m;
     swapOutReceiverFromStore := fun m => m;
     getRandomPrivkey := fun w => (repeat (byte_of_N (counter w)) 32, tick w);
     SerializeCompressedPubKey := fun k => Byte.x02 :: k;
     GetChain := fun d => btc_chain;
     ListAll := fun w => Ok (stored w);
     messenger_SendMessage := fun w _ _ _ =>
       (None, {| counter := counter w; stored := stored w; sent := S (sent w) |});
     liquidWallet_GetAsset := "6f0279e9ed041c3d710a9f57d0c02928416460c4b722ae3457a11eec381c526d";
     bitcoinWallet_GetNetwork := "mainnet";
     liquidEnabled := true;
     bitcoinEnabled := true;
     HexStringToMessageType := hexToMessageType;
     ParseSwapIdFromString := parseSwapId;
     MarshalPeerswapMessage := marshal;
     Unmarshal_SwapOutRequest := with_payload (fun id t =>
       {| sor_ProtocolVersion := 2; sor_SwapId := id; sor_Asset := "";
          sor_Network := "mainnet"; sor_Scid := t; sor_Amount := 100000;
          sor_Pubkey := "" |});
     Unmarshal_SwapInRequest := with_payload (fun id t =>
       {| sir_ProtocolVersion := 2; sir_SwapId := id; sir_Asset := "";
          sir_Network := "mainnet"; sir_Scid := t; sir_Amount := 100000;
          sir_Pubkey := "" |});
     Unmarshal_SwapOutAgreement := with_payload (fun id t =>
       {| soa_ProtocolVersion := 2; soa_SwapId := id; soa_Pubkey := ""; soa_Payreq := t |});
     Unmarshal_SwapInAgreement := with_payload (fun id t =>
       {| sia_ProtocolVersion := 2; sia_SwapId := id; sia_Pubkey := t; sia_Premium := 0 |});
     Unmarshal_OpeningTxBroadcasted := with_payload (fun id t =>
       {| otb_SwapId := id; otb_Payreq := ""; otb_TxId := t; otb_ScriptOut := 0;
          otb_BlindingKey := "" |});
     Unmarshal_Cancel := with_payload (fun id t => {| cm_SwapId := id; cm_Message := t |});
     Unmarshal_CoopClose := with_payload (fun id t =>
       {| ccm_SwapId := id; ccm_Message := ""; ccm_Privkey := t |});
     Validate_SwapOutRequest := fun m => check_version (sor_ProtocolVersion m);
     Validate_SwapInRequest := fun m => check_version (sir_ProtocolVersion m);
     Validate_SwapOutAgreement := fun m => check_version (soa_ProtocolVersion m);
     Validate_SwapInAgreement := fun m => check_version (sia_ProtocolVersion m);
     Validate_OpeningTxBroadcasted := fun m _ => check_text (otb_TxId m);
     Validate_CoopClose := fun m => check_text (ccm_Privkey m);
     ErrEventRejected_text := "event rejected" |}.

Definition w0 : World := {| counter := 7; stored := []; sent := 0 |}.

(** The empty registry. *)
Definition s0 : SwapService World := NewSwapService sv w0.

Definition idA : SwapId := {| swapid_bytes := repeat Byte.xaa 32 |}.
Definition idB : SwapId := {| swapid_bytes := repeat Byte.xbb 32 |}.

(** A swap-out sender machine with peer "A" on channel "600000x1x0", in the
    given state. *)
Definition swapWith (id : SwapId) (cur : string) : SwapStateMachine :=
  {| Id := SwapId_String id; SwapId_ := id; Type_ := SWAPTYPE_OUT;
     Role := SWAPROLE_SENDER; Current := cur;
     Data := set_SwapOutRequest
               (Some {| sor_ProtocolVersion := 2; sor_SwapId := id; sor_Asset := "";
                        sor_Network := "mainnet"; sor_Scid := "600000x1x0";
                        sor_Amount := 100000; sor_Pubkey := "" |})
               (NewSwapData id SWAPTYPE_OUT "N" "A" (repeat Byte.x01 32)) |}.

(** A registry with one active swap [idA] in the given state. *)
Definition s1 (cur : string) : SwapService World :=
  AddActiveSwap s0 (SwapId_String idA) (swapWith idA cur).

(** The payload of the toy wire format for a swap id and a text. *)
Definition payloadFor (id : SwapId) (text : string) : list Byte.byte :=
  (swapid_bytes id ++ bytes_of text)%list.

(** An empty registry over a store that holds two unfinished swaps, [idA] and
    [idB], both on channel "600000x1x0". *)
Definition sStored : SwapService World :=
  NewSwapService sv
    {| counter := 7;
       stored := [swapWith idA "AwaitingAgreement"; swapWith idB "AwaitingAgreement"];
       sent := 0 |}.

End Demo.

(** * Properties *)

(** ** The vocabulary of the statements *)

(** A decoded inbound message, of one of the seven types the dispatcher
    knows. *)
Inductive Inbound : Type :=
| In_SwapOutRequest (m : SwapOutRequestMessage)
| In_SwapInRequest (m : SwapInRequestMessage)
| In_SwapOutAgreement (m : SwapOutAgreementMessage)
| In_SwapInAgreement (m : SwapInAgreementMessage)
| In_OpeningTxBroadcasted (m : OpeningTxBroadcastedMessage)
| In_Cancel (m : CancelMessage)
| In_CoopClose (m : CoopCloseMessage).

Definition inbound_SwapId (i : Inbound) : SwapId :=
  match i with
  | In_SwapOutRequest m => sor_SwapId m
  | In_SwapInRequest m => sir_SwapId m
  | In_SwapOutAgreement m => soa_SwapId m
  | In_SwapInAgreement m => sia_SwapId m
  | In_OpeningTxBroadcasted m => otb_SwapId m
  | In_Cancel m => cm_SwapId m
  | In_CoopClose m => ccm_SwapId m
  end.

Definition is_request (i : Inbound) : bool :=
  match i with
  | In_SwapOutRequest _ | In_SwapInRequest _ => true
  | _ => false
  end.

(** The stage messages that carry a Validate method and belong to a swap that
    already exists. *)
Definition is_validated_stage (i : Inbound) : bool :=
  match i with
  | In_SwapOutAgreement _ | In_SwapInAgreement _
  | In_OpeningTxBroadcasted _ | In_CoopClose _ => true
  | _ => false
  end.

Definition handler_name (i : Inbound) : Handler :=
  match i with
  | In_SwapOutRequest _ => H_OnSwapOutRequestReceived
  | In_SwapInRequest _ => H_OnSwapInRequestReceived
  | In_SwapOutAgreement _ => H_OnSwapOutAgreementReceived
  | In_SwapInAgreement _ => H_OnSwapInAgreementReceived
  | In_OpeningTxBroadcasted _ => H_OnTxOpenedMessage
  | In_Cancel _ => H_OnCancelReceived
  | In_CoopClose _ => H_OnCoopCloseReceived
  end.

(** The event a stage message fires when it is valid. *)
Definition normal_event (i : Inbound) : EventType :=
  match i with
  | In_SwapOutRequest _ => Event_OnSwapOutRequestReceived
  | In_SwapInRequest _ => Event_SwapInReceiver_OnRequestReceived
  | In_SwapOutAgreement _ => Event_OnFeeInvoiceReceived
  | In_SwapInAgreement _ => Event_SwapInSender_OnAgreementReceived
  | In_OpeningTxBroadcasted _ => Event_OnTxOpenedMessage
  | In_Cancel _ => Event_OnCancelReceived
  | In_CoopClose _ => Event_OnCoopCloseReceived
  end.

(** The envelopes of the validated stage messages held by a swap. *)
Definition stage_envelopes (d : SwapData) :
    option SwapOutAgreementMessage * option SwapInAgreementMessage
    * option OpeningTxBroadcastedMessage * option CoopCloseMessage :=
  (SwapOutAgreement d, SwapInAgreement d, OpeningTxBroadcasted d, CoopClose d).

Section Vocabulary.

Context {World : Type}.
Variable sv : SwapServices World.

(** The tag [ty] and the payload decode to the message [i]. *)
Definition decodes (ty : MessageType) (payload : list Byte.byte) (i : Inbound) : Prop :=
  match i with
  | In_SwapOutRequest m =>
      ty = MESSAGETYPE_SWAPOUTREQUEST /\ Unmarshal_SwapOutRequest sv payload = Ok m
  | In_SwapInRequest m =>
      ty = MESSAGETYPE_SWAPINREQUEST /\ Unmarshal_SwapInRequest sv payload = Ok m
  | In_SwapOutAgreement m =>
      ty = MESSAGETYPE_SWAPOUTAGREEMENT /\ Unmarshal_SwapOutAgreement sv payload = Ok m
  | In_SwapInAgreement m =>
      ty = MESSAGETYPE_SWAPINAGREEMENT /\ Unmarshal_SwapInAgreement sv payload = Ok m
  | In_OpeningTxBroadcasted m =>
      ty = MESSAGETYPE_OPENINGTXBROADCASTED
      /\ Unmarshal_OpeningTxBroadcasted sv payload = Ok m
  | In_Cancel m =>
      ty = MESSAGETYPE_CANCELED /\ Unmarshal_Cancel sv payload = Ok m
  | In_CoopClose m =>
      ty = MESSAGETYPE_COOPCLOSE /\ Unmarshal_CoopClose sv payload = Ok m
  end.

(** The handler OnMessageReceived calls for the message [i] of peer
    [peerId]. *)
Definition handler (i : Inbound) (peerId : string) (s : SwapService World)
    : option error * SwapService World :=
  match i with
  | In_SwapOutRequest m => OnSwapOutRequestReceived sv s (sor_SwapId m) peerId m
  | In_SwapInRequest m => OnSwapInRequestReceived sv s (sir_SwapId m) peerId m
  | In_SwapOutAgreement m => OnSwapOutAgreementReceived sv s m
  | In_SwapInAgreement m => OnSwapInAgreementReceived sv s m
  | In_OpeningTxBroadcasted m => OnTxOpenedMessage sv s m
  | In_Cancel m => OnCancelReceived sv s (cm_SwapId m) m
  | In_CoopClose m => OnCoopCloseReceived sv s (ccm_SwapId m) m
  end.

(** The result of the Validate method of the message [i], for the swap it is
    addressed to. *)
Definition validate (i : Inbound) (swap : SwapStateMachine) : option error :=
  match i with
  | In_SwapOutRequest m => Validate_SwapOutRequest sv m
  | In_SwapInRequest m => Validate_SwapInRequest sv m
  | In_SwapOutAgreement m => Validate_SwapOutAgreement sv m
  | In_SwapInAgreement m => Validate_SwapInAgreement sv m
  | In_OpeningTxBroadcasted m =>
      Validate_OpeningTxBroadcasted sv m (GetChain sv (Data swap))
  | In_Cancel _ => None
  | In_CoopClose m => Validate_CoopClose sv m
  end.

(** A swap is active on the channel. *)
Definition active_on_channel (s : SwapService World) (channelId : string) : Prop :=
  exists key swap,
    activeSwaps s !! key = Some swap /\ GetScid (Data swap) = channelId.

(** At most one active swap per channel. *)
Definition one_swap_per_channel (s : SwapService World) : Prop :=
  forall k1 k2 swap1 swap2,
    activeSwaps s !! k1 = Some swap1 ->
    activeSwaps s !! k2 = Some swap2 ->
    GetScid (Data swap1) = GetScid (Data swap2) ->
    k1 = k2.

(** No event moves a swap to another channel: SendEvent leaves the scid of
    the stored request as it is. *)
Definition SendEvent_keeps_scid : Prop :=
  forall w swap event,
    GetScid (Data (fst (fst (fst (SendEvent sv w swap event)))))
    = GetScid (Data swap).

End Vocabulary.

(** ** A machine whose store is down

    The collaborators of [Demo] with a SendEvent that fails every event with
    a store error and leaves the machine as it is. *)

Module StoreDown.

Definition sv : SwapServices Demo.World :=
  {|
     SendEvent := fun w m _ => (m, false, Some (ErrorString "store: write failed"), w);
     Recover := Recover Demo.sv;
     IsFinished := IsFinished Demo.sv;
     newSwapOutSenderFSM := newSwapOutSenderFSM Demo.sv;
     newSwapInSenderFSM := newSwapInSenderFSM Demo.sv;
     newSwapOutReceiverFSM := newSwapOutReceiverFSM Demo.sv;
     newSwapInReceiverFSM := newSwapInReceiverFSM Demo.sv;
     swapInSenderFromStore := swapInSenderFromStore Demo.sv;
     swapInReceiverFromStore := swapInReceiverFromStore Demo.sv;
     swapOutSenderFromStore := swapOutSenderFromStore Demo.sv;
     swapOutReceiverFromStore := swapOutReceiverFromStore Demo.sv;
     getRandomPrivkey := getRandomPrivkey Demo.sv;
     SerializeCompressedPubKey := SerializeCompressedPubKey Demo.sv;
     GetChain := GetChain Demo.sv;
     ListAll := ListAll Demo.sv;
     messenger_SendMessage := messenger_SendMessage Demo.sv;
     liquidWallet_GetAsset := liquidWallet_GetAsset Demo.sv;
     bitcoinWallet_GetNetwork := bitcoinWallet_GetNetwork Demo.sv;
     liquidEnabled := liquidEnabled Demo.sv;
     bitcoinEnabled := bitcoinEnabled Demo.sv;
     HexStringToMessageType := HexStringToMessageType Demo.sv;
     ParseSwapIdFromString := ParseSwapIdFromString Demo.sv;
     MarshalPeerswapMessage := MarshalPeerswapMessage Demo.sv;
     Unmarshal_SwapOutRequest := Unmarshal_SwapOutRequest Demo.sv;
     Unmarshal_SwapInRequest := Unmarshal_SwapInRequest Demo.sv;
     Unmarshal_SwapOutAgreement := Unmarshal_SwapOutAgreement Demo.sv;
     Unmarshal_SwapInAgreement := Unmarshal_SwapInAgreement Demo.sv;
     Unmarshal_OpeningTxBroadcasted := Unmarshal_OpeningTxBroadcasted Demo.sv;
     Unmarshal_Cancel := Unmarshal_Cancel Demo.sv;
     Unmarshal_CoopClose := Unmarshal_CoopClose Demo.sv;
     Validate_SwapOutRequest := Validate_SwapOutRequest Demo.sv;
     Validate_SwapInRequest := Validate_SwapInRequest Demo.sv;
     Validate_SwapOutAgreement := Validate_SwapOutAgreement Demo.sv;
     Validate_SwapInAgreement := Validate_SwapInAgreement Demo.sv;
     Validate_OpeningTxBroadcasted := Validate_OpeningTxBroadcasted Demo.sv;
     Validate_CoopClose := Validate_CoopClose Demo.sv;
     ErrEventRejected_text := ErrEventRejected_text Demo.sv |}.

End StoreDown.

(** ** Runs of the service

    The entry points of the service as calls with their arguments, so that a
    run is a list of calls applied in order. *)

Inductive Call : Type :=
| Call_SwapOut (peer chain channelId initiator : string) (amount : Z)
| Call_SwapIn (peer chain channelId initiator : string) (amount : Z)
| Call_OnMessageReceived (peerId msgTypeString : string) (payload : list Byte.byte)
| Call_OnTxConfirmed (swapId txHex : string)
| Call_OnCsvPassed (swapId : string)
| Call_OnPayment (description : string)
| Call_SenderOnTxConfirmed (swapId : string)
| Call_Timeout (swapId : string)
| Call_RecoverSwaps.

Definition is_RecoverSwaps (c : Call) : bool :=
  match c with
  | Call_RecoverSwaps => true
  | _ => false
  end.

(** The calls that look a swap up by its id and never register one. *)
Definition is_callback (c : Call) : bool :=
  match c with
  | Call_OnTxConfirmed _ _ | Call_OnCsvPassed _ | Call_OnPayment _
  | Call_SenderOnTxConfirmed _ | Call_Timeout _ => true
  | _ => false
  end.

(** The events handed to machines among the observations. *)
Definition events_of (l : list Effect) : list EventType :=
  flat_map (fun e => match e with
                     | Eff_SendEvent _ event => [event]
                     | _ => []
                     end) l.

Section Runs.

Context {World : Type}.
Variable sv : SwapServices World.

(** The service after one call; the result of the call is dropped. *)
Definition call (s : SwapService World) (c : Call) : SwapService World :=
  match c with
  | Call_SwapOut peer chain channelId initiator amount =>
      snd (SwapOut sv s peer chain channelId initiator amount)
  | Call_SwapIn peer chain channelId initiator amount =>
      snd (SwapIn sv s peer chain channelId initiator amount)
  | Call_OnMessageReceived peerId msgTypeString payload =>
      snd (OnMessageReceived sv s peerId msgTypeString payload)
  | Call_OnTxConfirmed swapId txHex => snd (OnTxConfirmed sv s swapId txHex)
  | Call_OnCsvPassed swapId => snd (OnCsvPassed sv s swapId)
  | Call_OnPayment description => OnPayment sv s description
  | Call_SenderOnTxConfirmed swapId => snd (SenderOnTxConfirmed sv s swapId)
  | Call_Timeout swapId => timeoutCallback sv s swapId
  | Call_RecoverSwaps => snd (RecoverSwaps sv s)
  end.

Definition run (s : SwapService World) (calls : list Call) : SwapService World :=
  fold_left call calls s.

(** Every active swap is registered under its own Id. *)
Definition well_keyed (s : SwapService World) : Prop :=
  forall key swap, activeSwaps s !! key = Some swap -> Id swap = key.

(** [s'] holds no swap that [s] does not hold under the same key, and the
    swaps it holds have the same [f] as before. *)
Definition shrinks {A : Type} (f : SwapStateMachine -> A) (s s' : SwapService World) : Prop :=
  forall key swap',
    activeSwaps s' !! key = Some swap' ->
    exists swap, activeSwaps s !! key = Some swap /\ f swap' = f swap.

(** [f] reads nothing of a machine but its Id and the two request envelopes
    of its data. *)
Definition reads_identity {A : Type} (f : SwapStateMachine -> A) : Prop :=
  forall swap d,
    SwapInRequest d = SwapInRequest (Data swap) ->
    SwapOutRequest d = SwapOutRequest (Data swap) ->
    f (set_Data d swap) = f swap.

(** SendEvent leaves [f] of the machine as it is. *)
Definition SendEvent_keeps {A : Type} (f : SwapStateMachine -> A) : Prop :=
  forall w swap event, f (fst (fst (fst (SendEvent sv w swap event)))) = f swap.

Definition SendEvent_keeps_Id : Prop := SendEvent_keeps Id.

(** Recover leaves the Id of the machine as it is. *)
Definition Recover_keeps_Id : Prop :=
  forall w swap, Id (fst (fst (fst (Recover sv w swap)))) = Id swap.

(** The two receiver constructors name the machine after the swap id. *)
Definition receivers_keyed : Prop :=
  forall swapId,
    Id (newSwapOutReceiverFSM sv swapId) = SwapId_String swapId
    /\ Id (newSwapInReceiverFSM sv swapId) = SwapId_String swapId.

(** The decoder of the type [ty] refuses the payload with [err]. *)
Definition decode_fails (ty : MessageType) (payload : list Byte.byte) (err : error) : Prop :=
  match ty with
  | MESSAGETYPE_SWAPOUTREQUEST => Unmarshal_SwapOutRequest sv payload = Err err
  | MESSAGETYPE_SWAPINREQUEST => Unmarshal_SwapInRequest sv payload = Err err
  | MESSAGETYPE_SWAPOUTAGREEMENT => Unmarshal_SwapOutAgreement sv payload = Err err
  | MESSAGETYPE_SWAPINAGREEMENT => Unmarshal_SwapInAgreement sv payload = Err err
  | MESSAGETYPE_OPENINGTXBROADCASTED =>
      Unmarshal_OpeningTxBroadcasted sv payload = Err err
  | MESSAGETYPE_CANCELED => Unmarshal_Cancel sv payload = Err err
  | MESSAGETYPE_COOPCLOSE => Unmarshal_CoopClose sv payload = Err err
  | MESSAGETYPE_OTHER _ => False
  end.

(** The type tag parses to one of the two request types. *)
Definition is_request_tag (msgTypeString : string) : Prop :=
  HexStringToMessageType sv msgTypeString = Ok MESSAGETYPE_SWAPOUTREQUEST
  \/ HexStringToMessageType sv msgTypeString = Ok MESSAGETYPE_SWAPINREQUEST.

End Runs.

(** The field assignment a handler makes for a message that passed its
    validation: the envelope goes to the field of its type. *)
Definition store_envelope (i : Inbound) (d : SwapData) : SwapData :=
  match i with
  | In_SwapOutRequest m => set_SwapOutRequest (Some m) d
  | In_SwapInRequest m => set_SwapInRequest (Some m) d
  | In_SwapOutAgreement m => set_SwapOutAgreement (Some m) d
  | In_SwapInAgreement m => set_SwapInAgreement (Some m) d
  | In_OpeningTxBroadcasted m => set_OpeningTxBroadcasted (Some m) d
  | In_Cancel m => set_Cancel (Some m) d
  | In_CoopClose m => set_CoopClose (Some m) d
  end.

(** The channel of a machine. *)
Definition scid_of (swap : SwapStateMachine) : string := GetScid (Data swap).

(** No character of the string is the underscore. *)
Fixpoint no_underscore (s : string) : bool :=
  match s with
  | EmptyString => true
  | String c s' => negb (Ascii.eqb c "_") && no_underscore s'
  end.

Local Open Scope list_scope.

(** ** The registry primitives *)

Section Registry.

Context {World : Type}.
Variable sv : SwapServices World.

Implicit Type s : SwapService World.

Lemma hasActiveSwapOnChannel_true s channelId :
  hasActiveSwapOnChannel s channelId = true <-> active_on_channel s channelId.
Proof.
  unfold hasActiveSwapOnChannel, active_on_channel.
  rewrite existsb_exists. split.
  - intros [[key swap] [Hin Heq]]. exists key, swap. split.
    + apply elem_of_map_to_list, list_elem_of_In, Hin.
    + apply String.eqb_eq, Heq.
  - intros (key & swap & Hlook & Hscid). exists (key, swap). split.
    + apply list_elem_of_In, elem_of_map_to_list, Hlook.
    + apply String.eqb_eq, Hscid.
Qed.

Lemma hasActiveSwapOnChannel_false s channelId :
  hasActiveSwapOnChannel s channelId = false <->
  forall key swap, activeSwaps s !! key = Some swap -> GetScid (Data swap) <> channelId.
Proof.
  rewrite <- not_true_iff_false, hasActiveSwapOnChannel_true.
  unfold active_on_channel. split.
  - intros Hno key swap Hlook Hscid. apply Hno. eauto.
  - intros Hall (key & swap & Hlook & Hscid). exact (Hall key swap Hlook Hscid).
Qed.

Lemma GetActiveSwap_Some s swapId swap :
  activeSwaps s !! swapId = Some swap -> GetActiveSwap s swapId = Ok swap.
Proof. unfold GetActiveSwap. intros ->. reflexivity. Qed.

Lemma GetActiveSwap_None s swapId :
  activeSwaps s !! swapId = None -> GetActiveSwap s swapId = Err ErrSwapDoesNotExist.
Proof. unfold GetActiveSwap. intros ->. reflexivity. Qed.

(** What one call of SendEvent adds to the observation log. *)
Lemma swap_SendEvent_trace s key swap event :
  trace (snd (swap_SendEvent sv s key swap event))
  = trace s ++ [Eff_SendEvent swap event].
Proof.
  unfold swap_SendEvent. cbn.
  destruct (SendEvent sv (world s) swap event) as [[[swap' done] err] w].
  reflexivity.
Qed.

Lemma return_after_SendEvent_trace
    (r : SwapStateMachine * bool * option error * SwapService World) :
  trace (snd (return_after_SendEvent r)) = trace (snd r).
Proof.
  destruct r as [[[swap done] err] s]. cbn.
  destruct err; [reflexivity|]. destruct done; reflexivity.
Qed.

End Registry.

(** ** The size check of OnMessageReceived *)

Section OversizedPayload.

Context {World : Type}.
Variable sv : SwapServices World.

(** C4: a payload of more than 102 400 bytes is refused with the error
    "Payload is unexpectedly large" whatever the type tag and whatever the
    parser and the decoders would answer, and the service is left as it was
    (registry, world and observation log); a payload of at most 102 400 bytes
    goes on to the parsing of the type tag and to the dispatch. *)
Theorem C4_oversized_payload_rejected
    (s : SwapService World) (peerId msgTypeString : string) (payload : list Byte.byte) :
  ((102400 < Z.of_nat (List.length payload))%Z ->
     OnMessageReceived sv s peerId msgTypeString payload
     = (Some (ErrorString "Payload is unexpectedly large"), s))
  /\ ((Z.of_nat (List.length payload) <= 102400)%Z ->
        OnMessageReceived sv s peerId msgTypeString payload
        = dispatchMessage sv s peerId msgTypeString payload
        /\ (forall err, HexStringToMessageType sv msgTypeString = Err err ->
              OnMessageReceived sv s peerId msgTypeString payload = (Some err, s))).
Proof.
  unfold OnMessageReceived. split; intros Hlen.
  - replace (Z.of_nat (List.length payload) >? 100 * 1024)%Z with true
      by (symmetry; apply Z.gtb_lt; lia).
    reflexivity.
  - replace (Z.of_nat (List.length payload) >? 100 * 1024)%Z with false
      by (symmetry; rewrite Z.gtb_ltb; apply Z.ltb_ge; lia).
    split; [reflexivity|].
    intros err Herr. unfold dispatchMessage. rewrite Herr. reflexivity.
Qed.

End OversizedPayload.

Lemma C4_oversized_payload_rejected_witness :
  OnMessageReceived Demo.sv Demo.s0 "B" "a45b" (repeat Byte.x00 (N.to_nat 102401))
  = (Some (ErrorString "Payload is unexpectedly large"), Demo.s0)
  /\ OnMessageReceived Demo.sv Demo.s0 "B" "zzzz" (repeat Byte.x00 (N.to_nat 102400))
     = (Some (ErrUnknownSwapMessageType "zzzz"), Demo.s0).
Proof.
  split.
  - apply (proj1 (C4_oversized_payload_rejected Demo.sv Demo.s0 "B" "a45b"
                    (repeat Byte.x00 (N.to_nat 102401)))).
    vm_compute. reflexivity.
  - apply (proj2 (C4_oversized_payload_rejected Demo.sv Demo.s0 "B" "zzzz"
                    (repeat Byte.x00 (N.to_nat 102400)))).
    + vm_compute. discriminate.
    + reflexivity.
Defined.

(** ** Callbacks for a swap that is not active *)

Section MissingSwap.

Context {World : Type}.
Variable sv : SwapServices World.

(** C6 (as amended): a callback entry point called with a swap id that is not
    in activeSwaps does no further work, the service is left as it was and no
    event reaches any machine, and it returns ErrSwapDoesNotExist to its
    caller. *)
Theorem C6_missing_swap_returns_error
    (s : SwapService World) (swapId txHex : string) (id : SwapId) :
  (activeSwaps s !! swapId = None ->
     OnTxConfirmed sv s swapId txHex = (Some ErrSwapDoesNotExist, s)
     /\ OnCsvPassed sv s swapId = (Some ErrSwapDoesNotExist, s))
  /\ (activeSwaps s !! SwapId_String id = None ->
        OnFeeInvoicePaid sv s id = (Some ErrSwapDoesNotExist, s)
        /\ OnClaimInvoicePaid sv s id = (Some ErrSwapDoesNotExist, s)).
Proof.
  split; intros Hnone.
  - unfold OnTxConfirmed, OnCsvPassed.
    rewrite (GetActiveSwap_None s swapId Hnone). split; reflexivity.
  - unfold OnFeeInvoicePaid, OnClaimInvoicePaid.
    rewrite (GetActiveSwap_None s _ Hnone). split; reflexivity.
Qed.

(** OnPayment, the caller of the two invoice handlers, returns nothing: for a
    swap that is not active only the choice of the handler is observed. *)
Lemma OnPayment_missing_swap (s : SwapService World) (swapId : SwapId) :
  activeSwaps s !! SwapId_String swapId = None ->
  snd (OnFeeInvoicePaid sv (observe (Eff_Dispatch H_OnFeeInvoicePaid swapId) s) swapId)
  = observe (Eff_Dispatch H_OnFeeInvoicePaid swapId) s.
Proof.
  intros Hnone. unfold OnFeeInvoicePaid.
  rewrite GetActiveSwap_None by exact Hnone. reflexivity.
Qed.

End MissingSwap.

Lemma C6_missing_swap_returns_error_witness :
  (OnTxConfirmed Demo.sv Demo.s0 "00" "0200" = (Some ErrSwapDoesNotExist, Demo.s0)
   /\ OnCsvPassed Demo.sv Demo.s0 "00" = (Some ErrSwapDoesNotExist, Demo.s0))
  /\ (OnFeeInvoicePaid Demo.sv Demo.s0 Demo.idA = (Some ErrSwapDoesNotExist, Demo.s0)
      /\ OnClaimInvoicePaid Demo.sv Demo.s0 Demo.idA
         = (Some ErrSwapDoesNotExist, Demo.s0)).
Proof.
  split.
  - apply (proj1 (C6_missing_swap_returns_error Demo.sv Demo.s0 "00" "0200" Demo.idA)).
    reflexivity.
  - apply (proj2 (C6_missing_swap_returns_error Demo.sv Demo.s0 "00" "0200" Demo.idA)).
    reflexivity.
Defined.

(** C6 (as stated) fails: on the empty registry OnTxConfirmed hands
    ErrSwapDoesNotExist back to the chain watcher that called it, and so does
    OnFeeInvoicePaid to its caller. *)
Lemma C6_missing_swap_counterexample :
  fst (OnTxConfirmed Demo.sv Demo.s0 "00" "0200") = Some ErrSwapDoesNotExist
  /\ fst (OnCsvPassed Demo.sv Demo.s0 "00") = Some ErrSwapDoesNotExist
  /\ fst (OnFeeInvoicePaid Demo.sv Demo.s0 Demo.idA) = Some ErrSwapDoesNotExist
  /\ fst (OnClaimInvoicePaid Demo.sv Demo.s0 Demo.idA) = Some ErrSwapDoesNotExist.
Proof. repeat split; vm_compute; reflexivity. Qed.

(** ** Rejected events in the chain callbacks *)

Section ChainCallbacks.

Context {World : Type}.
Variable sv : SwapServices World.

(** C7: for an active swap, when SendEvent inside OnTxConfirmed or OnCsvPassed
    answers with an error, the callback returns nil if the error is
    ErrEventRejected and returns the error itself otherwise. *)
Theorem C7_event_rejected_swallowed
    (s : SwapService World) (swapId txHex : string) (swap : SwapStateMachine)
    (e : error) :
  activeSwaps s !! swapId = Some swap ->
  (forall swap' done w,
      SendEvent sv (world s) (upd_Data (set_OpeningTxHex txHex) swap) Event_OnTxConfirmed
      = (swap', done, Some e, w) ->
      fst (OnTxConfirmed sv s swapId txHex)
      = if error_eqb e ErrEventRejected then None else Some e)
  /\ (forall swap' done w,
        SendEvent sv (world s) swap Event_OnCsvPassed = (swap', done, Some e, w) ->
        fst (OnCsvPassed sv s swapId)
        = if error_eqb e ErrEventRejected then None else Some e).
Proof.
  intros Hactive. split; intros swap' done w Hsend.
  - unfold OnTxConfirmed. rewrite (GetActiveSwap_Some s swapId swap Hactive).
    unfold swap_SendEvent. cbn. rewrite Hsend. destruct e; reflexivity.
  - unfold OnCsvPassed. rewrite (GetActiveSwap_Some s swapId swap Hactive).
    unfold swap_SendEvent. cbn. rewrite Hsend. destruct e; reflexivity.
Qed.

(** C10: OnTxConfirmed hands the machine to SendEvent with OpeningTxHex
    already set to the given txHex; when the event is rejected and the
    rejection leaves that field alone, the call returns nil and the active
    swap holds the new OpeningTxHex, so a swap that held another one has been
    changed. *)
Theorem C10_opening_tx_hex_overwritten
    (s : SwapService World) (swapId txHex : string) (swap : SwapStateMachine) :
  activeSwaps s !! swapId = Some swap ->
  let assigned := upd_Data (set_OpeningTxHex txHex) swap in
  OpeningTxHex (Data assigned) = txHex
  /\ trace (snd (OnTxConfirmed sv s swapId txHex))
     = trace s ++ [Eff_SendEvent assigned Event_OnTxConfirmed]
  /\ (forall swap' done w,
        SendEvent sv (world s) assigned Event_OnTxConfirmed
        = (swap', done, Some ErrEventRejected, w) ->
        OpeningTxHex (Data swap') = OpeningTxHex (Data assigned) ->
        fst (OnTxConfirmed sv s swapId txHex) = None
        /\ activeSwaps (snd (OnTxConfirmed sv s swapId txHex)) !! swapId = Some swap'
        /\ OpeningTxHex (Data swap') = txHex
        /\ (OpeningTxHex (Data swap) <> txHex ->
            activeSwaps (snd (OnTxConfirmed sv s swapId txHex)) !! swapId
            <> activeSwaps s !! swapId)).
Proof.
  intros Hactive assigned. split; [reflexivity|]. split.
  - unfold OnTxConfirmed. rewrite (GetActiveSwap_Some s swapId swap Hactive).
    fold assigned. unfold swap_SendEvent. cbn.
    destruct (SendEvent sv (world s) assigned Event_OnTxConfirmed)
      as [[[swap' done] err] w].
    destruct err as [e|]; [destruct e; reflexivity|].
    destruct done; reflexivity.
  - intros swap' done w Hsend Hkept.
    unfold OnTxConfirmed. rewrite (GetActiveSwap_Some s swapId swap Hactive).
    fold assigned. unfold swap_SendEvent. cbn. rewrite Hsend. cbn.
    rewrite lookup_insert_eq. repeat split.
    + exact Hkept.
    + intros Hold Heq. rewrite Hactive in Heq. inversion Heq as [Hswap].
      apply Hold. rewrite <- Hswap. exact Hkept.
Qed.

End ChainCallbacks.

Lemma C7_event_rejected_swallowed_witness :
  fst (OnTxConfirmed Demo.sv (Demo.s1 "AwaitingAgreement") (SwapId_String Demo.idA) "0200")
  = None
  /\ fst (OnCsvPassed Demo.sv (Demo.s1 "AwaitingAgreement") (SwapId_String Demo.idA))
     = None
  /\ fst (OnTxConfirmed Demo.sv (Demo.s1 "StoreDown") (SwapId_String Demo.idA) "0200")
     = Some (ErrorString "store: write failed")
  /\ fst (OnCsvPassed Demo.sv (Demo.s1 "StoreDown") (SwapId_String Demo.idA))
     = Some (ErrorString "store: write failed").
Proof.
  pose (rejecting := Demo.swapWith Demo.idA "AwaitingAgreement").
  pose (failing := Demo.swapWith Demo.idA "StoreDown").
  split; [|split; [|split]].
  - apply (proj1 (C7_event_rejected_swallowed Demo.sv (Demo.s1 "AwaitingAgreement")
                    (SwapId_String Demo.idA) "0200" rejecting ErrEventRejected
                    ltac:(vm_compute; reflexivity))
             (upd_Data (set_OpeningTxHex "0200") rejecting) false Demo.w0).
    vm_compute. reflexivity.
  - apply (proj2 (C7_event_rejected_swallowed Demo.sv (Demo.s1 "AwaitingAgreement")
                    (SwapId_String Demo.idA) "0200" rejecting ErrEventRejected
                    ltac:(vm_compute; reflexivity))
             rejecting false Demo.w0).
    vm_compute. reflexivity.
  - apply (proj1 (C7_event_rejected_swallowed Demo.sv (Demo.s1 "StoreDown")
                    (SwapId_String Demo.idA) "0200" failing
                    (ErrorString "store: write failed")
                    ltac:(vm_compute; reflexivity))
             (upd_Data (set_OpeningTxHex "0200") failing) false Demo.w0).
    vm_compute. reflexivity.
  - apply (proj2 (C7_event_rejected_swallowed Demo.sv (Demo.s1 "StoreDown")
                    (SwapId_String Demo.idA) "0200" failing
                    (ErrorString "store: write failed")
                    ltac:(vm_compute; reflexivity))
             failing false Demo.w0).
    vm_compute. reflexivity.
Defined.

Lemma C10_opening_tx_hex_overwritten_witness :
  let s := Demo.s1 "AwaitingAgreement" in
  let key := SwapId_String Demo.idA in
  fst (OnTxConfirmed Demo.sv s key "0200") = None
  /\ (OpeningTxHex <$> (Data <$> activeSwaps s !! key)) = Some ""%string
  /\ (OpeningTxHex <$> (Data <$> activeSwaps (snd (OnTxConfirmed Demo.sv s key "0200")) !! key))
     = Some "0200"%string.
Proof.
  intros s key.
  pose (swap := Demo.swapWith Demo.idA "AwaitingAgreement").
  destruct (C10_opening_tx_hex_overwritten Demo.sv s key "0200" swap
              ltac:(vm_compute; reflexivity)) as (_ & _ & Hrejected).
  destruct (Hrejected (upd_Data (set_OpeningTxHex "0200") swap) false Demo.w0
              ltac:(vm_compute; reflexivity) ltac:(reflexivity))
    as (Hnil & Hstored & _ & _).
  split; [exact Hnil|]. split; [vm_compute; reflexivity|].
  rewrite Hstored. reflexivity.
Defined.

(** ** The sender check of OnMessageReceived *)

Section SenderCheck.

Context {World : Type}.
Variable sv : SwapServices World.

Lemma size_check_passed (s : SwapService World) (peerId msgTypeString : string)
    (payload : list Byte.byte) :
  (Z.of_nat (List.length payload) <= 102400)%Z ->
  OnMessageReceived sv s peerId msgTypeString payload
  = dispatchMessage sv s peerId msgTypeString payload.
Proof.
  intros Hlen. unfold OnMessageReceived.
  replace (Z.of_nat (List.length payload) >? 100 * 1024)%Z with false
    by (symmetry; rewrite Z.gtb_ltb; apply Z.ltb_ge; lia).
  reflexivity.
Qed.

Lemma dispatch_checked_unexpected (s : SwapService World) (peerId : string)
    (swapId : SwapId) (h : Handler) (swap : SwapStateMachine)
    (k : SwapService World -> option error * SwapService World) :
  activeSwaps s !! SwapId_String swapId = Some swap ->
  PeerNodeId (Data swap) <> peerId ->
  dispatch_checked s peerId swapId h k
  = (Some (ErrReceivedMessageFromUnexpectedPeer peerId swapId), s).
Proof.
  intros Hactive Hpeer. unfold dispatch_checked, isMessageSenderExpectedPeer.
  rewrite (GetActiveSwap_Some s _ swap Hactive).
  apply String.eqb_neq in Hpeer. rewrite Hpeer. reflexivity.
Qed.

Lemma dispatch_checked_expected (s : SwapService World) (peerId : string)
    (swapId : SwapId) (h : Handler) (swap : SwapStateMachine)
    (k : SwapService World -> option error * SwapService World) :
  activeSwaps s !! SwapId_String swapId = Some swap ->
  PeerNodeId (Data swap) = peerId ->
  dispatch_checked s peerId swapId h k = k (observe (Eff_Dispatch h swapId) s).
Proof.
  intros Hactive Hpeer. unfold dispatch_checked, isMessageSenderExpectedPeer.
  rewrite (GetActiveSwap_Some s _ swap Hactive).
  apply String.eqb_eq in Hpeer. rewrite Hpeer. reflexivity.
Qed.

(** C1: a message of a non-request type that names an active swap and comes
    from a peer other than the swap's PeerNodeId makes OnMessageReceived
    return ErrReceivedMessageFromUnexpectedPeer with the service as it was: no
    handler is selected and no event reaches the machine.  A message of one of
    the two request types goes to its handler whoever the sender is. *)
Theorem C1_unexpected_peer_rejected
    (s : SwapService World) (peerId msgTypeString : string) (payload : list Byte.byte)
    (ty : MessageType) (i : Inbound) :
  (Z.of_nat (List.length payload) <= 102400)%Z ->
  HexStringToMessageType sv msgTypeString = Ok ty ->
  decodes sv ty payload i ->
  (is_request i = false ->
   forall swap,
     activeSwaps s !! SwapId_String (inbound_SwapId i) = Some swap ->
     PeerNodeId (Data swap) <> peerId ->
     OnMessageReceived sv s peerId msgTypeString payload
     = (Some (ErrReceivedMessageFromUnexpectedPeer peerId (inbound_SwapId i)), s))
  /\ (is_request i = true ->
      OnMessageReceived sv s peerId msgTypeString payload
      = handler sv i peerId
          (observe (Eff_Dispatch (handler_name i) (inbound_SwapId i)) s)).
Proof.
  intros Hlen Hty Hdec.
  rewrite (size_check_passed s peerId msgTypeString payload Hlen).
  unfold dispatchMessage. rewrite Hty.
  destruct i as [m|m|m|m|m|m|m]; cbn in Hdec; destruct Hdec as [-> Hdec];
    rewrite Hdec; cbn [is_request inbound_SwapId handler handler_name];
    (split; [intros Hreq | intros Hreq]); try discriminate Hreq;
    try reflexivity;
    intros swap Hactive Hpeer;
    exact (dispatch_checked_unexpected s peerId _ _ swap _ Hactive Hpeer).
Qed.

(** The check lets the swap's own peer through: the handler is called. *)
Lemma expected_peer_dispatched
    (s : SwapService World) (peerId msgTypeString : string) (payload : list Byte.byte)
    (ty : MessageType) (i : Inbound) (swap : SwapStateMachine) :
  (Z.of_nat (List.length payload) <= 102400)%Z ->
  HexStringToMessageType sv msgTypeString = Ok ty ->
  decodes sv ty payload i ->
  is_request i = false ->
  activeSwaps s !! SwapId_String (inbound_SwapId i) = Some swap ->
  PeerNodeId (Data swap) = peerId ->
  OnMessageReceived sv s peerId msgTypeString payload
  = handler sv i peerId (observe (Eff_Dispatch (handler_name i) (inbound_SwapId i)) s).
Proof.
  intros Hlen Hty Hdec Hreq Hactive Hpeer.
  rewrite (size_check_passed s peerId msgTypeString payload Hlen).
  unfold dispatchMessage. rewrite Hty.
  destruct i as [m|m|m|m|m|m|m]; try discriminate Hreq;
    cbn in Hdec; destruct Hdec as [-> Hdec]; rewrite Hdec;
    cbn [inbound_SwapId handler handler_name] in *;
    exact (dispatch_checked_expected s peerId _ _ swap _ Hactive Hpeer).
Qed.

End SenderCheck.

Lemma C1_unexpected_peer_rejected_witness :
  let s := Demo.s1 "AwaitingAgreement" in
  OnMessageReceived Demo.sv s "B" "a45b" (Demo.payloadFor Demo.idA "lnbc1fee")
  = (Some (ErrReceivedMessageFromUnexpectedPeer "B" Demo.idA), s)
  /\ OnMessageReceived Demo.sv s "B" "a457" (Demo.payloadFor Demo.idA "700000x2x1")
     = OnSwapOutRequestReceived Demo.sv
         (observe (Eff_Dispatch H_OnSwapOutRequestReceived Demo.idA) s) Demo.idA "B"
         {| sor_ProtocolVersion := 2; sor_SwapId := Demo.idA; sor_Asset := "";
            sor_Network := "mainnet"; sor_Scid := "700000x2x1"; sor_Amount := 100000;
            sor_Pubkey := "" |}.
Proof.
  intros s. split.
  - apply (proj1 (C1_unexpected_peer_rejected Demo.sv s "B" "a45b"
                    (Demo.payloadFor Demo.idA "lnbc1fee") MESSAGETYPE_SWAPOUTAGREEMENT
                    (In_SwapOutAgreement
                       {| soa_ProtocolVersion := 2; soa_SwapId := Demo.idA;
                          soa_Pubkey := ""; soa_Payreq := "lnbc1fee" |})
                    ltac:(vm_compute; discriminate) ltac:(reflexivity)
                    ltac:(split; vm_compute; reflexivity))
             ltac:(reflexivity) (Demo.swapWith Demo.idA "AwaitingAgreement")).
    + vm_compute. reflexivity.
    + vm_compute. discriminate.
  - apply (proj2 (C1_unexpected_peer_rejected Demo.sv s "B" "a457"
                    (Demo.payloadFor Demo.idA "700000x2x1") MESSAGETYPE_SWAPOUTREQUEST
                    (In_SwapOutRequest
                       {| sor_ProtocolVersion := 2; sor_SwapId := Demo.idA;
                          sor_Asset := ""; sor_Network := "mainnet";
                          sor_Scid := "700000x2x1"; sor_Amount := 100000;
                          sor_Pubkey := "" |})
                    ltac:(vm_compute; discriminate) ltac:(reflexivity)
                    ltac:(split; vm_compute; reflexivity))
             ltac:(reflexivity)).
Defined.

(** ** Stage messages that fail validation *)

Section InvalidMessage.

Context {World : Type}.
Variable sv : SwapServices World.

(** C5: when the Validate method of a stage message (SwapOutAgreement,
    SwapInAgreement, OpeningTxBroadcasted, CoopClose) addressed to an active
    swap returns an error, the handler hands the machine exactly one event,
    Event_OnInvalid_Message and not the event of the stage, and the machine it
    hands over has CancelMessage set to "invalid request " followed by the
    text of the error and holds the same envelopes as before. *)
Theorem C5_invalid_stage_message_cancels
    (s : SwapService World) (i : Inbound) (peerId : string)
    (swap : SwapStateMachine) (err : error) :
  is_validated_stage i = true ->
  activeSwaps s !! SwapId_String (inbound_SwapId i) = Some swap ->
  validate sv i swap = Some err ->
  let key := SwapId_String (inbound_SwapId i) in
  let cancelled :=
    upd_Data (set_CancelMessage_ ("invalid request " ++ Error_ sv err)%string) swap in
  handler sv i peerId s
  = return_after_SendEvent
      (swap_SendEvent sv (assign s key cancelled) key cancelled Event_OnInvalid_Message)
  /\ trace (snd (handler sv i peerId s))
     = trace s ++ [Eff_SendEvent cancelled Event_OnInvalid_Message]
  /\ Event_OnInvalid_Message <> normal_event i
  /\ CancelMessage_ (Data cancelled) = ("invalid request " ++ Error_ sv err)%string
  /\ stage_envelopes (Data cancelled) = stage_envelopes (Data swap).
Proof.
  intros Hstage Hactive Hinvalid key cancelled.
  assert (Hcall : handler sv i peerId s
                  = return_after_SendEvent
                      (swap_SendEvent sv (assign s key cancelled) key cancelled
                         Event_OnInvalid_Message)).
  { destruct i as [m|m|m|m|m|m|m]; try discriminate Hstage;
      cbn [handler inbound_SwapId validate] in *;
      [ unfold OnSwapOutAgreementReceived
      | unfold OnSwapInAgreementReceived
      | unfold OnTxOpenedMessage
      | unfold OnCoopCloseReceived ];
      cbv zeta; rewrite (GetActiveSwap_Some s _ swap Hactive), Hinvalid;
      reflexivity. }
  split; [exact Hcall|]. split.
  - rewrite Hcall, return_after_SendEvent_trace, swap_SendEvent_trace. reflexivity.
  - split; [destruct i; discriminate|]. split; reflexivity.
Qed.

End InvalidMessage.

Lemma C5_invalid_stage_message_cancels_witness :
  let s := Demo.s1 "AwaitingAgreement" in
  let agreement :=
    {| soa_ProtocolVersion := 1; soa_SwapId := Demo.idA; soa_Pubkey := "";
       soa_Payreq := "lnbc1fee" |} in
  let cancelled :=
    upd_Data (set_CancelMessage_ "invalid request incompatible protocol version")
             (Demo.swapWith Demo.idA "AwaitingAgreement") in
  trace (snd (OnSwapOutAgreementReceived Demo.sv s agreement))
  = [Eff_SendEvent cancelled Event_OnInvalid_Message]
  /\ SwapOutAgreement (Data cancelled) = None.
Proof.
  intros s agreement cancelled.
  destruct (C5_invalid_stage_message_cancels Demo.sv s (In_SwapOutAgreement agreement)
              "A" (Demo.swapWith Demo.idA "AwaitingAgreement")
              (ErrorString "incompatible protocol version")
              ltac:(reflexivity) ltac:(vm_compute; reflexivity) ltac:(reflexivity))
    as (_ & Htrace & _ & _ & _).
  split; [exact Htrace | reflexivity].
Defined.

(** ** Payment descriptions *)

Lemma prefix_empty (s : string) : String.prefix EmptyString s = true.
Proof. destruct s; reflexivity. Qed.

Lemma string_drop_0 (s : string) : string_drop 0 s = s.
Proof. destruct s; reflexivity. Qed.

Lemma prefix_string_drop (sep s : string) :
  String.prefix sep s = true ->
  s = (sep ++ string_drop (String.length sep) s)%string.
Proof.
  revert s. induction sep as [|a sep IH]; intros s Hpre.
  - cbn. symmetry. apply string_drop_0.
  - destruct s as [|b s]; [discriminate Hpre|].
    cbn in Hpre. destruct (ascii_dec a b) as [->|]; [|discriminate Hpre].
    cbn [String.length string_drop]. cbv [String.append]. fold String.append.
    f_equal. apply IH, Hpre.
Qed.

Lemma string_cut_unfold (sep s : string) :
  string_cut sep s
  = if String.prefix sep s then Some (EmptyString, string_drop (String.length sep) s)
    else match s with
         | EmptyString => None
         | String c s' =>
             match string_cut sep s' with
             | Some (before, after) => Some (String c before, after)
             | None => None
             end
         end.
Proof. destruct s; reflexivity. Qed.

(** A cut splits the string around the separator. *)
Lemma string_cut_Some (sep s before after : string) :
  string_cut sep s = Some (before, after) ->
  s = (before ++ sep ++ after)%string.
Proof.
  revert before after. induction s as [|c s IH]; intros before after Hcut;
    rewrite string_cut_unfold in Hcut;
    destruct (String.prefix sep _) eqn:Hpre.
  - inversion Hcut; subst. apply (prefix_string_drop sep EmptyString Hpre).
  - discriminate Hcut.
  - inversion Hcut; subst. apply (prefix_string_drop sep (String c s) Hpre).
  - destruct (string_cut sep s) as [[b a]|] eqn:Hrest; [|discriminate Hcut].
    inversion Hcut; subst. cbv [String.append]. fold String.append.
    f_equal. apply IH. reflexivity.
Qed.

Lemma getPaymentLabel_fee (x : string) : getPaymentLabel ("fee_" ++ x) = "fee"%string.
Proof.
  unfold getPaymentLabel, SplitN_2, PaymentLabelSeparator. cbv [String.append].
  cbn. rewrite prefix_empty. reflexivity.
Qed.

Lemma getPaymentLabel_claim (x : string) : getPaymentLabel ("claim_" ++ x) = "claim"%string.
Proof.
  unfold getPaymentLabel, SplitN_2, PaymentLabelSeparator. cbv [String.append].
  cbn. rewrite prefix_empty. reflexivity.
Qed.

(** A description whose label is [label] is [label], the separator and the
    rest. *)
Lemma getPaymentLabel_inv (description label : string) :
  label <> EmptyString ->
  getPaymentLabel description = label ->
  description
  = (label ++ "_" ++ string_drop (String.length label + 1) description)%string.
Proof.
  intros Hne Hlabel. unfold getPaymentLabel, SplitN_2, PaymentLabelSeparator in Hlabel.
  destruct (string_cut "_" description) as [[before after]|] eqn:Hcut.
  - cbn in Hlabel. subst before.
    pose proof (string_cut_Some "_" description label after Hcut) as Hd.
    rewrite Hd at 1. do 2 f_equal. rewrite Hd. clear.
    induction label as [|c label IH]; [reflexivity|]. cbn. exact IH.
  - cbn in Hlabel. congruence.
Qed.

Lemma getPaymentLabel_no_separator (description : string) :
  string_cut "_" description = None -> getPaymentLabel description = EmptyString.
Proof.
  intros Hcut. unfold getPaymentLabel, SplitN_2, PaymentLabelSeparator.
  rewrite Hcut. reflexivity.
Qed.

Section Payments.

Context {World : Type}.
Variable sv : SwapServices World.

(** C8: OnPayment calls OnFeeInvoicePaid with the parsed id for a description
    "fee_" followed by a parsable swap id, calls OnClaimInvoicePaid with the
    parsed id for "claim_" followed by a parsable swap id, and for every other
    description selects no handler and returns with the service as it was. *)
Theorem C8_payment_dispatch (s : SwapService World) :
  (forall x id,
      ParseSwapIdFromString sv x = Ok id ->
      OnPayment sv s ("fee_" ++ x)
      = snd (OnFeeInvoicePaid sv (observe (Eff_Dispatch H_OnFeeInvoicePaid id) s) id))
  /\ (forall x id,
        ParseSwapIdFromString sv x = Ok id ->
        OnPayment sv s ("claim_" ++ x)
        = snd (OnClaimInvoicePaid sv
                 (observe (Eff_Dispatch H_OnClaimInvoicePaid id) s) id))
  /\ (forall description,
        (forall x id, description = ("fee_" ++ x)%string ->
                      ParseSwapIdFromString sv x <> Ok id) ->
        (forall x id, description = ("claim_" ++ x)%string ->
                      ParseSwapIdFromString sv x <> Ok id) ->
        OnPayment sv s description = s).
Proof.
  split; [|split].
  - intros x id Hparse. unfold OnPayment. rewrite getPaymentLabel_fee.
    cbv [String.append]. cbn. rewrite Hparse. reflexivity.
  - intros x id Hparse. unfold OnPayment. rewrite getPaymentLabel_claim.
    cbv [String.append]. cbn. rewrite Hparse. reflexivity.
  - intros description Hfee Hclaim. unfold OnPayment.
    destruct (String.eqb (getPaymentLabel description) "fee") eqn:Hlabel.
    + apply String.eqb_eq in Hlabel.
      apply getPaymentLabel_inv in Hlabel; [|discriminate]. cbn in Hlabel.
      destruct (ParseSwapIdFromString sv (string_drop 4 description)) as [id|e] eqn:Hparse;
        [|reflexivity].
      exfalso. exact (Hfee _ id Hlabel Hparse).
    + destruct (String.eqb (getPaymentLabel description) "claim") eqn:Hlabel';
        [|reflexivity].
      apply String.eqb_eq in Hlabel'.
      apply getPaymentLabel_inv in Hlabel'; [|discriminate]. cbn in Hlabel'.
      destruct (ParseSwapIdFromString sv (string_drop 6 description)) as [id|e] eqn:Hparse;
        [|reflexivity].
      exfalso. exact (Hclaim _ id Hlabel' Hparse).
Qed.

(** The three kinds of other descriptions: another label, no separator, an
    id that does not parse. *)
Lemma OnPayment_ignored (s : SwapService World) (description : string) :
  (getPaymentLabel description <> "fee"%string
   /\ getPaymentLabel description <> "claim"%string)
  \/ string_cut "_" description = None
  \/ (exists x e, (description = ("fee_" ++ x)%string
                   \/ description = ("claim_" ++ x)%string)
                  /\ ParseSwapIdFromString sv x = Err e) ->
  OnPayment sv s description = s.
Proof.
  intros Hcases. unfold OnPayment.
  destruct Hcases as [[Hfee Hclaim]|[Hcut|(x & e & [->| ->] & Hparse)]].
  - apply String.eqb_neq in Hfee, Hclaim. rewrite Hfee, Hclaim. reflexivity.
  - rewrite (getPaymentLabel_no_separator description Hcut). reflexivity.
  - rewrite getPaymentLabel_fee. cbv [String.append]. cbn. rewrite Hparse. reflexivity.
  - rewrite getPaymentLabel_claim. cbv [String.append]. cbn. rewrite Hparse. reflexivity.
Qed.

End Payments.

Lemma C8_payment_dispatch_witness :
  let s := Demo.s1 "AwaitingAgreement" in
  let hexA := SwapId_String Demo.idA in
  OnPayment Demo.sv s ("fee_" ++ hexA)
  = snd (OnFeeInvoicePaid Demo.sv (observe (Eff_Dispatch H_OnFeeInvoicePaid Demo.idA) s)
           Demo.idA)
  /\ OnPayment Demo.sv s ("claim_" ++ hexA)
     = snd (OnClaimInvoicePaid Demo.sv
              (observe (Eff_Dispatch H_OnClaimInvoicePaid Demo.idA) s) Demo.idA)
  /\ OnPayment Demo.sv s "fee_zz" = s
  /\ OnPayment Demo.sv s "tip" = s.
Proof.
  intros s hexA.
  destruct (C8_payment_dispatch Demo.sv s) as (Hfee & Hclaim & Hother).
  split; [|split; [|split]].
  - apply (Hfee hexA Demo.idA). vm_compute. reflexivity.
  - apply (Hclaim hexA Demo.idA). vm_compute. reflexivity.
  - apply (Hother "fee_zz"%string).
    + intros x id Hx. cbv [String.append] in Hx. injection Hx as Hx. subst x.
      vm_compute. discriminate.
    + intros x id Hx. discriminate Hx.
  - apply (Hother "tip"%string).
    + intros x id Hx. discriminate Hx.
    + intros x id Hx. discriminate Hx.
Defined.

(** ** The request staged by SwapOut *)

Section SwapOutRequest.

Context {World : Type}.
Variable sv : SwapServices World.

Lemma chain_fields_l_btc :
  chain_fields sv "l-btc" = (liquidWallet_GetAsset sv, EmptyString).
Proof. reflexivity. Qed.

Lemma chain_fields_btc :
  chain_fields sv "btc" = (EmptyString, bitcoinWallet_GetNetwork sv).
Proof. reflexivity. Qed.

Lemma chain_fields_other (chain : string) :
  chain <> "l-btc"%string -> chain <> "btc"%string ->
  chain_fields sv chain = (EmptyString, EmptyString).
Proof.
  intros Hl Hb. unfold chain_fields, l_btc_chain, btc_chain.
  apply String.eqb_neq in Hl, Hb. rewrite Hl, Hb. reflexivity.
Qed.

(** C9 (as amended): when SwapOut returns without error, the machine was
    started with Event_OnSwapOutStarted, and at that moment its SwapOutRequest
    has ProtocolVersion 2, the SwapId of the new machine, the given scid and
    amount, the hex of the compressed public key of the swap's key, Asset
    equal to the liquid wallet's asset with an empty Network when chain is
    l-btc, Network equal to the bitcoin wallet's network with an empty Asset
    when chain is btc, and both empty for any other chain; NextMessage and
    NextMessageType hold the marshalled request. *)
Theorem C9_swap_out_request_staged
    (s s' : SwapService World) (peer chain channelId initiator : string) (amount : Z)
    (swap : SwapStateMachine) :
  SwapOut sv s peer chain channelId initiator amount = (Ok swap, s') ->
  exists started request,
    trace s' = trace s ++ [Eff_SendEvent started Event_OnSwapOutStarted]
    /\ SwapOutRequest (Data started) = Some request
    /\ sor_ProtocolVersion request = 2%Z
    /\ sor_SwapId request = SwapId_ (fst (newSwapOutSenderFSM sv (world s)))
    /\ SwapId_ started = SwapId_ (fst (newSwapOutSenderFSM sv (world s)))
    /\ sor_Scid request = channelId
    /\ sor_Amount request = amount
    /\ sor_Pubkey request
       = EncodeToString (SerializeCompressedPubKey sv (PrivkeyBytes (Data started)))
    /\ (chain = "l-btc"%string ->
        sor_Asset request = liquidWallet_GetAsset sv
        /\ sor_Network request = EmptyString)
    /\ (chain = "btc"%string ->
        sor_Asset request = EmptyString
        /\ sor_Network request = bitcoinWallet_GetNetwork sv)
    /\ (chain <> "l-btc"%string -> chain <> "btc"%string ->
        sor_Asset request = EmptyString /\ sor_Network request = EmptyString)
    /\ MarshalPeerswapMessage sv (PM_SwapOutRequest request)
       = Ok (NextMessage (Data started), NextMessageType (Data started)).
Proof.
  unfold SwapOut. intros Hcall.
  destruct (hasActiveSwapOnChannel s channelId); [discriminate Hcall|].
  destruct (newSwapOutSenderFSM sv (world s)) as [fsm w1] eqn:Hnew.
  cbn [world with_world AddActiveSwap with_activeSwaps] in Hcall.
  destruct (getRandomPrivkey sv w1) as [privkey w2].
  destruct (chain_fields sv chain) as [asset network] eqn:Hchain.
  match type of Hcall with
  | context [MarshalPeerswapMessage sv (PM_SwapOutRequest ?r)] =>
      set (request := r) in *
  end.
  destruct (MarshalPeerswapMessage sv (PM_SwapOutRequest request))
    as [[nextMessage nextMessageType]|e] eqn:Hmarshal; [|discriminate Hcall].
  match type of Hcall with
  | context [swap_SendEvent sv _ _ ?m Event_OnSwapOutStarted] => set (started := m) in *
  end.
  exists started, request.
  assert (Htrace : trace s' = trace s ++ [Eff_SendEvent started Event_OnSwapOutStarted]).
  { unfold swap_SendEvent in Hcall. cbn in Hcall.
    destruct (SendEvent sv w2 started Event_OnSwapOutStarted) as [[[after done] err] w3].
    destruct err; [discriminate Hcall|].
    inversion Hcall; subst. destruct done; reflexivity. }
  split; [exact Htrace|].
  split; [reflexivity|]. split; [reflexivity|]. split; [reflexivity|].
  split; [reflexivity|]. split; [reflexivity|]. split; [reflexivity|].
  split; [reflexivity|].
  split; [|split; [|split]].
  - intros ->. rewrite chain_fields_l_btc in Hchain. injection Hchain as Ha Hn.
    split; [exact (eq_sym Ha) | exact (eq_sym Hn)].
  - intros ->. rewrite chain_fields_btc in Hchain. injection Hchain as Ha Hn.
    split; [exact (eq_sym Ha) | exact (eq_sym Hn)].
  - intros Hl Hb. rewrite (chain_fields_other chain Hl Hb) in Hchain.
    injection Hchain as Ha Hn. split; [exact (eq_sym Ha) | exact (eq_sym Hn)].
  - exact Hmarshal.
Qed.

End SwapOutRequest.

Lemma C9_swap_out_request_staged_witness :
  let r := SwapOut Demo.sv Demo.s0 "P" "btc" "600000x1x0" "N" 100000 in
  exists started request,
    trace (snd r) = [Eff_SendEvent started Event_OnSwapOutStarted]
    /\ SwapOutRequest (Data started) = Some request
    /\ sor_ProtocolVersion request = 2%Z
    /\ sor_Asset request = EmptyString
    /\ sor_Network request = "mainnet"%string.
Proof.
  intros r.
  pose (returned := match fst r with
                    | Ok swap => swap
                    | Err _ => Demo.swapWith Demo.idA ""
                    end).
  destruct (C9_swap_out_request_staged Demo.sv Demo.s0 (snd r)
              "P" "btc" "600000x1x0" "N" 100000 returned
              ltac:(vm_compute; reflexivity))
    as (started & request & Htrace & Hreq & Hver & _ & _ & _ & _ & _ & _ & Hbtc & _ & _).
  exists started, request.
  destruct (Hbtc eq_refl) as [Hasset Hnetwork].
  split; [exact Htrace|]. split; [exact Hreq|]. split; [exact Hver|].
  split; [exact Hasset | exact Hnetwork].
Defined.

(** C9 (as stated) fails: SwapOut makes no check of the chain argument; for
    the chain "lbtc" it returns a swap without error whose staged request has
    an empty Asset and an empty Network. *)
Lemma C9_swap_out_request_counterexample :
  exists swap s' request,
    SwapOut Demo.sv Demo.s0 "P" "lbtc" "600000x1x0" "N" 100000 = (Ok swap, s')
    /\ SwapOutRequest (Data swap) = Some request
    /\ sor_Asset request = EmptyString
    /\ sor_Network request = EmptyString.
Proof.
  eexists. eexists. eexists.
  split; [vm_compute; reflexivity|].
  split; [vm_compute; reflexivity|].
  split; reflexivity.
Qed.

(** ** Admission: one swap per channel *)

Section Admission.

Context {World : Type}.
Variable sv : SwapServices World.

Implicit Type s : SwapService World.

Lemma one_swap_per_channel_insert s s' key swap :
  one_swap_per_channel s ->
  hasActiveSwapOnChannel s (GetScid (Data swap)) = false ->
  activeSwaps s' = <[key := swap]> (activeSwaps s) ->
  one_swap_per_channel s'.
Proof.
  intros Hinv Hfree Hmap k1 k2 swap1 swap2. rewrite Hmap.
  rewrite (hasActiveSwapOnChannel_false s) in Hfree.
  rewrite !lookup_insert_Some.
  intros [[<- <-]|[Hne1 Hlook1]] [[<- <-]|[Hne2 Hlook2]] Hscid.
  - reflexivity.
  - exfalso. exact (Hfree k2 swap2 Hlook2 (eq_sym Hscid)).
  - exfalso. exact (Hfree k1 swap1 Hlook1 Hscid).
  - exact (Hinv k1 k2 swap1 swap2 Hlook1 Hlook2 Hscid).
Qed.

Lemma one_swap_per_channel_delete s s' key :
  one_swap_per_channel s ->
  activeSwaps s' = delete key (activeSwaps s) ->
  one_swap_per_channel s'.
Proof.
  intros Hinv Hmap k1 k2 swap1 swap2. rewrite Hmap.
  rewrite !lookup_delete_Some.
  intros [_ Hlook1] [_ Hlook2]. exact (Hinv k1 k2 swap1 swap2 Hlook1 Hlook2).
Qed.

Lemma one_swap_per_channel_same_map s s' :
  one_swap_per_channel s -> activeSwaps s' = activeSwaps s -> one_swap_per_channel s'.
Proof. intros Hinv Hmap k1 k2 swap1 swap2. rewrite Hmap. apply Hinv. Qed.

(** A new machine on a free channel, already registered under [key], stays
    the only one on its channel through SendEvent. *)
Lemma swap_SendEvent_admitted s0 s key held swap event :
  SendEvent_keeps_scid sv ->
  one_swap_per_channel s0 ->
  hasActiveSwapOnChannel s0 (GetScid (Data swap)) = false ->
  activeSwaps s = <[key := held]> (activeSwaps s0) ->
  one_swap_per_channel (snd (swap_SendEvent sv s key swap event)).
Proof.
  intros Hkeeps Hinv Hfree Hmap. unfold swap_SendEvent. cbn.
  pose proof (Hkeeps (world s) swap event) as Hscid.
  destruct (SendEvent sv (world s) swap event) as [[[after done] err] w].
  cbn in Hscid.
  apply (one_swap_per_channel_insert s0 _ key after Hinv).
  - rewrite Hscid. exact Hfree.
  - cbn. rewrite Hmap. apply insert_insert_eq.
Qed.

Lemma one_swap_per_channel_remove_if s (done : bool) key :
  one_swap_per_channel s ->
  one_swap_per_channel (if done then RemoveActiveSwap s key else s).
Proof.
  intros Hinv. destruct done; [|exact Hinv].
  exact (one_swap_per_channel_delete s (RemoveActiveSwap s key) key Hinv eq_refl).
Qed.

Lemma reject_request_activeSwaps s swapId peerId err :
  activeSwaps (snd (reject_request sv s swapId peerId err)) = activeSwaps s.
Proof.
  unfold reject_request.
  destruct (MarshalPeerswapMessage sv _) as [[msgBytes msgType]|e]; [|reflexivity].
  unfold SendMessage. cbn.
  destruct (messenger_SendMessage sv (world s) peerId msgBytes msgType) as [e w].
  reflexivity.
Qed.

Lemma SwapOut_admission s peer chain channelId initiator amount :
  SendEvent_keeps_scid sv ->
  one_swap_per_channel s ->
  one_swap_per_channel (snd (SwapOut sv s peer chain channelId initiator amount))
  /\ (active_on_channel s channelId ->
      SwapOut sv s peer chain channelId initiator amount
      = (Err ErrActiveSwapOnChannel, s)).
Proof.
  intros Hkeeps Hinv. unfold SwapOut.
  destruct (hasActiveSwapOnChannel s channelId) eqn:Hfree.
  - split; [exact Hinv | reflexivity].
  - split.
    2:{ intros Hactive. apply hasActiveSwapOnChannel_true in Hactive. congruence. }
    destruct (newSwapOutSenderFSM sv (world s)) as [fsm w1].
    cbn [world with_world AddActiveSwap with_activeSwaps].
    destruct (getRandomPrivkey sv w1) as [privkey w2].
    destruct (chain_fields sv chain) as [asset network].
    destruct (MarshalPeerswapMessage sv _) as [[nextMessage nextMessageType]|e].
    + match goal with
      | |- context [swap_SendEvent sv ?s1 ?key ?swap ?ev] =>
          pose proof (swap_SendEvent_admitted s s1 key swap swap ev Hkeeps Hinv Hfree)
            as Hsent;
          destruct (swap_SendEvent sv s1 key swap ev) as [[[after done] err] s2]
      end.
      cbn in Hsent.
      assert (Hs2 : one_swap_per_channel s2).
      { apply Hsent. rewrite !insert_insert_eq. reflexivity. }
      destruct err; [exact Hs2|]. cbn.
      apply one_swap_per_channel_remove_if, Hs2.
    + cbn [snd].
      match goal with
      | |- one_swap_per_channel (assign _ ?key ?swap) =>
          apply (one_swap_per_channel_insert s _ key swap Hinv Hfree)
      end.
      cbn. rewrite !insert_insert_eq. reflexivity.
Qed.


Lemma SwapIn_admission s peer chain channelId initiator amount :
  SendEvent_keeps_scid sv ->
  one_swap_per_channel s ->
  one_swap_per_channel (snd (SwapIn sv s peer chain channelId initiator amount))
  /\ (active_on_channel s channelId ->
      SwapIn sv s peer chain channelId initiator amount
      = (Err ErrActiveSwapOnChannel, s)).
Proof.
  intros Hkeeps Hinv. unfold SwapIn.
  destruct (hasActiveSwapOnChannel s channelId) eqn:Hfree.
  - split; [exact Hinv | reflexivity].
  - split.
    2:{ intros Hactive. apply hasActiveSwapOnChannel_true in Hactive. congruence. }
    destruct (chain_fields sv chain) as [asset network].
    destruct (newSwapInSenderFSM sv (world s)) as [fsm w1].
    cbn [world with_world AddActiveSwap with_activeSwaps].
    destruct (getRandomPrivkey sv w1) as [privkey w2].
    destruct (MarshalPeerswapMessage sv _) as [[nextMessage nextMessageType]|e].
    + match goal with
      | |- context [swap_SendEvent sv ?s1 ?key ?swap ?ev] =>
          pose proof (swap_SendEvent_admitted s s1 key swap swap ev Hkeeps Hinv Hfree)
            as Hsent;
          destruct (swap_SendEvent sv s1 key swap ev) as [[[after done] err] s2]
      end.
      cbn in Hsent.
      assert (Hs2 : one_swap_per_channel s2).
      { apply Hsent. rewrite !insert_insert_eq. reflexivity. }
      destruct err; [exact Hs2|]. cbn.
      apply one_swap_per_channel_remove_if, Hs2.
    + cbn [snd].
      match goal with
      | |- one_swap_per_channel (assign _ ?key ?swap) =>
          apply (one_swap_per_channel_insert s _ key swap Hinv Hfree)
      end.
      cbn. rewrite !insert_insert_eq. reflexivity.
Qed.

Lemma OnSwapOutRequestReceived_admission s swapId peerId message :
  SendEvent_keeps_scid sv ->
  one_swap_per_channel s ->
  one_swap_per_channel (snd (OnSwapOutRequestReceived sv s swapId peerId message))
  /\ (active_on_channel s (sor_Scid message) ->
      OnSwapOutRequestReceived sv s swapId peerId message
      = (Some ErrActiveSwapOnChannel, s)).
Proof.
  intros Hkeeps Hinv. unfold OnSwapOutRequestReceived.
  destruct (hasActiveSwapOnChannel s (sor_Scid message)) eqn:Hfree.
  - split; [exact Hinv | reflexivity].
  - split.
    2:{ intros Hactive. apply hasActiveSwapOnChannel_true in Hactive. congruence. }
    destruct (Validate_SwapOutRequest sv message) as [err|].
    + apply (one_swap_per_channel_same_map s _ Hinv), reject_request_activeSwaps.
    + destruct (getRandomPrivkey sv (world s)) as [privkey w1].
      match goal with
      | |- context [swap_SendEvent sv ?s1 ?key ?swap ?ev] =>
          pose proof (swap_SendEvent_admitted s s1 key swap swap ev Hkeeps Hinv Hfree
                        eq_refl) as Hsent;
          destruct (swap_SendEvent sv s1 key swap ev) as [[[after done] err] s2]
      end.
      cbn in Hsent. cbn.
      destruct err; [exact Hsent|]. cbn.
      apply one_swap_per_channel_remove_if, Hsent.
Qed.

Lemma OnSwapInRequestReceived_admission s swapId peerId message :
  SendEvent_keeps_scid sv ->
  one_swap_per_channel s ->
  one_swap_per_channel (snd (OnSwapInRequestReceived sv s swapId peerId message))
  /\ (active_on_channel s (sir_Scid message) ->
      OnSwapInRequestReceived sv s swapId peerId message
      = (Some ErrActiveSwapOnChannel, s)).
Proof.
  intros Hkeeps Hinv. unfold OnSwapInRequestReceived.
  destruct (hasActiveSwapOnChannel s (sir_Scid message)) eqn:Hfree.
  - split; [exact Hinv | reflexivity].
  - split.
    2:{ intros Hactive. apply hasActiveSwapOnChannel_true in Hactive. congruence. }
    destruct (Validate_SwapInRequest sv message) as [err|].
    + apply (one_swap_per_channel_same_map s _ Hinv), reject_request_activeSwaps.
    + cbn [world with_world AddActiveSwap with_activeSwaps].
      destruct (getRandomPrivkey sv (world s)) as [privkey w1].
      match goal with
      | |- context [swap_SendEvent sv ?s1 ?key ?swap ?ev] =>
          pose proof (swap_SendEvent_admitted s s1 key swap swap ev Hkeeps Hinv Hfree)
            as Hsent;
          destruct (swap_SendEvent sv s1 key swap ev) as [[[after done] err] s2]
      end.
      cbn in Hsent. cbn.
      apply one_swap_per_channel_remove_if, Hsent.
      rewrite !insert_insert_eq. reflexivity.
Qed.

(** C3 (as amended): each of SwapOut, SwapIn, OnSwapOutRequestReceived and
    OnSwapInRequestReceived keeps the registry with at most one active swap
    per channel, and when a swap is already active on the requested channel
    it fails with the error "already has an active swap on channel" and leaves
    the service as it was, with no new machine. *)
Theorem C3_admission_one_swap_per_channel (s : SwapService World) :
  SendEvent_keeps_scid sv ->
  one_swap_per_channel s ->
  (forall peer chain channelId initiator amount,
      one_swap_per_channel (snd (SwapOut sv s peer chain channelId initiator amount))
      /\ (active_on_channel s channelId ->
          SwapOut sv s peer chain channelId initiator amount
          = (Err (ErrorString "already has an active swap on channel"), s)))
  /\ (forall peer chain channelId initiator amount,
        one_swap_per_channel (snd (SwapIn sv s peer chain channelId initiator amount))
        /\ (active_on_channel s channelId ->
            SwapIn sv s peer chain channelId initiator amount
            = (Err (ErrorString "already has an active swap on channel"), s)))
  /\ (forall swapId peerId message,
        one_swap_per_channel
          (snd (OnSwapOutRequestReceived sv s swapId peerId message))
        /\ (active_on_channel s (sor_Scid message) ->
            OnSwapOutRequestReceived sv s swapId peerId message
            = (Some (ErrorString "already has an active swap on channel"), s)))
  /\ (forall swapId peerId message,
        one_swap_per_channel
          (snd (OnSwapInRequestReceived sv s swapId peerId message))
        /\ (active_on_channel s (sir_Scid message) ->
            OnSwapInRequestReceived sv s swapId peerId message
            = (Some (ErrorString "already has an active swap on channel"), s))).
Proof.
  intros Hkeeps Hinv. split; [|split; [|split]]; intros.
  - apply SwapOut_admission; assumption.
  - apply SwapIn_admission; assumption.
  - apply OnSwapOutRequestReceived_admission; assumption.
  - apply OnSwapInRequestReceived_admission; assumption.
Qed.

End Admission.

Lemma Demo_keeps_scid : SendEvent_keeps_scid Demo.sv.
Proof.
  intros w swap event. cbn. unfold Demo.sendEvent.
  destruct (String.eqb (Current swap) "StoreDown"); [reflexivity|].
  destruct (Demo.next (Current swap) event) as [[cur done]|]; reflexivity.
Qed.

Lemma Demo_s1_one_swap_per_channel (cur : string) : one_swap_per_channel (Demo.s1 cur).
Proof.
  intros k1 k2 swap1 swap2. unfold Demo.s1, AddActiveSwap. cbn.
  rewrite !lookup_insert_Some, !lookup_empty.
  intros [[<- _]|[_ Hnone]] [[<- _]|[_ Hnone']] _; congruence.
Qed.

Lemma C3_admission_one_swap_per_channel_witness :
  let s := Demo.s1 "AwaitingAgreement" in
  SwapOut Demo.sv s "P" "btc" "600000x1x0" "N" 100000
  = (Err (ErrorString "already has an active swap on channel"), s)
  /\ one_swap_per_channel (snd (SwapOut Demo.sv s "P" "btc" "700000x2x1" "N" 100000))
  /\ OnSwapInRequestReceived Demo.sv s Demo.idB "B"
       {| sir_ProtocolVersion := 2; sir_SwapId := Demo.idB; sir_Asset := "";
          sir_Network := "mainnet"; sir_Scid := "600000x1x0"; sir_Amount := 100000;
          sir_Pubkey := "" |}
     = (Some (ErrorString "already has an active swap on channel"), s).
Proof.
  intros s.
  destruct (C3_admission_one_swap_per_channel Demo.sv s Demo_keeps_scid
              (Demo_s1_one_swap_per_channel "AwaitingAgreement"))
    as (Hout & _ & _ & Hin).
  assert (Hbusy : active_on_channel s "600000x1x0").
  { exists (SwapId_String Demo.idA), (Demo.swapWith Demo.idA "AwaitingAgreement").
    split; vm_compute; reflexivity. }
  split; [|split].
  - exact (proj2 (Hout "P" "btc" "600000x1x0" "N" 100000%Z) Hbusy).
  - exact (proj1 (Hout "P" "btc" "700000x2x1" "N" 100000%Z)).
  - exact (proj2 (Hin Demo.idB "B"
                    {| sir_ProtocolVersion := 2; sir_SwapId := Demo.idB; sir_Asset := "";
                       sir_Network := "mainnet"; sir_Scid := "600000x1x0";
                       sir_Amount := 100000; sir_Pubkey := "" |}) Hbusy).
Defined.

(** Two consecutive calls of SwapOut on one channel: the first registers a
    swap, the second is refused and changes nothing. *)
Example double_channel_admission :
  let first := SwapOut Demo.sv Demo.s0 "P" "btc" "600000x1x0" "N" 100000 in
  let second := SwapOut Demo.sv (snd first) "P" "btc" "600000x1x0" "N" 100000 in
  size (activeSwaps (snd first)) = 1%nat
  /\ second = (Err (ErrorString "already has an active swap on channel"), snd first).
Proof. split; vm_compute; reflexivity. Qed.

(** C3 (as stated) fails for RecoverSwaps, which also adds to activeSwaps and
    makes no admission check: over a store that lists two unfinished swaps on
    channel "600000x1x0" it turns the empty registry into one with two active
    swaps on that channel. *)
Lemma C3_admission_counterexample :
  one_swap_per_channel Demo.sStored
  /\ fst (RecoverSwaps Demo.sv Demo.sStored) = None
  /\ ~ one_swap_per_channel (snd (RecoverSwaps Demo.sv Demo.sStored)).
Proof.
  split; [|split].
  - intros k1 k2 swap1 swap2 Hlook. cbn in Hlook. rewrite lookup_empty in Hlook.
    discriminate Hlook.
  - vm_compute. reflexivity.
  - intros Hinv.
    specialize (Hinv (SwapId_String Demo.idA) (SwapId_String Demo.idB)
                  (Demo.swapWith Demo.idA "AwaitingAgreement")
                  (Demo.swapWith Demo.idB "AwaitingAgreement")
                  ltac:(vm_compute; reflexivity) ltac:(vm_compute; reflexivity)
                  eq_refl).
    vm_compute in Hinv. discriminate Hinv.
Qed.

(** ** The type recorded for a swap-in receiver *)

Section SwapInReceiver.

Context {World : Type}.
Variable sv : SwapServices World.

(** RecoverSwaps picks the constructor from the Type and Role of the stored
    machine. *)
Lemma fromStore_receiver (swap : SwapStateMachine) :
  Role swap = SWAPROLE_RECEIVER ->
  fromStore sv swap
  = match Type_ swap with
    | SWAPTYPE_IN => swapInReceiverFromStore sv swap
    | SWAPTYPE_OUT => swapOutReceiverFromStore sv swap
    end.
Proof.
  intros Hrole. unfold fromStore. rewrite Hrole.
  destruct (Type_ swap); reflexivity.
Qed.

(** C2 (the code at a request that is admitted): the swap that
    OnSwapInRequestReceived creates and starts with
    Event_SwapInReceiver_OnRequestReceived carries the swap-in request, the
    role of a receiver and, in its SwapData, the type SWAPTYPE_OUT, not
    SWAPTYPE_IN. *)
Theorem C2_swap_in_receiver_data_type
    (s : SwapService World) (swapId : SwapId) (peerId : string)
    (message : SwapInRequestMessage) :
  hasActiveSwapOnChannel s (sir_Scid message) = false ->
  Validate_SwapInRequest sv message = None ->
  exists started,
    trace (snd (OnSwapInRequestReceived sv s swapId peerId message))
    = trace s ++ [Eff_SendEvent started Event_SwapInReceiver_OnRequestReceived]
    /\ SwapInRequest (Data started) = Some message
    /\ Data_Role (Data started) = SWAPROLE_RECEIVER
    /\ Data_Type (Data started) = SWAPTYPE_OUT
    /\ Data_Type (Data started) <> SWAPTYPE_IN.
Proof.
  intros Hfree Hvalid. unfold OnSwapInRequestReceived. rewrite Hfree, Hvalid.
  cbn [world with_world AddActiveSwap with_activeSwaps].
  destruct (getRandomPrivkey sv (world s)) as [privkey w1].
  match goal with
  | |- context [swap_SendEvent sv ?s1 ?key ?swap ?ev] =>
      exists swap;
      pose proof (swap_SendEvent_trace sv s1 key swap ev) as Htrace;
      destruct (swap_SendEvent sv s1 key swap ev) as [[[after done] err] s2]
  end.
  cbn in Htrace. cbn [snd]. split.
  - destruct done; exact Htrace.
  - repeat split. discriminate.
Qed.

End SwapInReceiver.

Lemma C2_swap_in_receiver_data_type_witness :
  let message :=
    {| sir_ProtocolVersion := 2; sir_SwapId := Demo.idB; sir_Asset := "";
       sir_Network := "mainnet"; sir_Scid := "600000x1x0"; sir_Amount := 100000;
       sir_Pubkey := "" |} in
  let r := OnSwapInRequestReceived Demo.sv Demo.s0 Demo.idB "A" message in
  fst r = None
  /\ (exists started,
        trace (snd r) = [Eff_SendEvent started Event_SwapInReceiver_OnRequestReceived]
        /\ Data_Type (Data started) = SWAPTYPE_OUT)
  /\ (Data_Type <$> (Data <$> activeSwaps (snd r) !! SwapId_String Demo.idB))
     = Some SWAPTYPE_OUT
  /\ (Type_ <$> activeSwaps (snd r) !! SwapId_String Demo.idB) = Some SWAPTYPE_IN.
Proof.
  intros message r.
  destruct (C2_swap_in_receiver_data_type Demo.sv Demo.s0 Demo.idB "A" message
              ltac:(vm_compute; reflexivity) ltac:(reflexivity))
    as (started & Htrace & _ & _ & Htype & _).
  split; [vm_compute; reflexivity|].
  split; [exists started; split; [exact Htrace | exact Htype]|].
  split; vm_compute; reflexivity.
Defined.

(** * Further properties of the service *)

(** ** The registry as a map *)

Section RegistryMap.

Context {World : Type}.
Variable sv : SwapServices World.

Implicit Type s : SwapService World.

(** AddActiveSwap, GetActiveSwap and RemoveActiveSwap behave as insertion,
    lookup and deletion of one key: a swap that was added is found, a swap
    that was removed is not, and no other key is affected by either. *)
Theorem registry_round_trip s (swapId other : string) (swap : SwapStateMachine) :
  GetActiveSwap (AddActiveSwap s swapId swap) swapId = Ok swap
  /\ GetActiveSwap (RemoveActiveSwap s swapId) swapId = Err ErrSwapDoesNotExist
  /\ GetActiveSwap (RemoveActiveSwap (AddActiveSwap s swapId swap) swapId) swapId
     = Err ErrSwapDoesNotExist
  /\ (other <> swapId ->
      GetActiveSwap (AddActiveSwap s swapId swap) other = GetActiveSwap s other
      /\ GetActiveSwap (RemoveActiveSwap s swapId) other = GetActiveSwap s other)
  /\ (activeSwaps s !! swapId = None ->
      activeSwaps (RemoveActiveSwap s swapId) = activeSwaps s).
Proof.
  unfold GetActiveSwap, AddActiveSwap, RemoveActiveSwap. cbn.
  rewrite lookup_insert_eq, !lookup_delete_eq.
  split; [reflexivity|]. split; [reflexivity|]. split; [reflexivity|]. split.
  - intros Hne. rewrite lookup_insert_ne, lookup_delete_ne by congruence.
    split; reflexivity.
  - intros Hnone. apply delete_id, Hnone.
Qed.

(** hasActiveSwapOnChannel answers true exactly when some active swap has
    the given scid; on the registry of NewSwapService it answers false for
    every channel. *)
Theorem hasActiveSwapOnChannel_exact s (channelId : string) (w : World) :
  (hasActiveSwapOnChannel s channelId = true <->
   exists key swap, activeSwaps s !! key = Some swap /\ GetScid (Data swap) = channelId)
  /\ hasActiveSwapOnChannel (NewSwapService sv w) channelId = false.
Proof.
  split.
  - apply hasActiveSwapOnChannel_true.
  - apply hasActiveSwapOnChannel_false. intros key swap Hlook.
    cbn in Hlook. rewrite lookup_empty in Hlook. discriminate Hlook.
Qed.

End RegistryMap.

Lemma registry_round_trip_witness :
  GetActiveSwap (AddActiveSwap Demo.s0 "aa" (Demo.swapWith Demo.idA "")) "bb"
  = Err ErrSwapDoesNotExist
  /\ activeSwaps (RemoveActiveSwap Demo.s0 "aa") = activeSwaps Demo.s0.
Proof.
  destruct (registry_round_trip Demo.s0 "aa" "bb" (Demo.swapWith Demo.idA ""))
    as (_ & _ & _ & Hother & Habsent).
  split.
  - rewrite (proj1 (Hother ltac:(discriminate))). reflexivity.
  - apply Habsent. reflexivity.
Defined.

(** ** Message dispatch: what is refused and what is let through *)

Section Dispatch.

Context {World : Type}.
Variable sv : SwapServices World.

Implicit Type s : SwapService World.

(** A message of a non-request type that names a swap which is not active is
    refused with ErrSwapDoesNotExist and the service is left as it was. *)
Theorem message_for_unknown_swap_refused s (peerId msgTypeString : string)
    (payload : list Byte.byte) (ty : MessageType) (i : Inbound) :
  (Z.of_nat (List.length payload) <= 102400)%Z ->
  HexStringToMessageType sv msgTypeString = Ok ty ->
  decodes sv ty payload i ->
  is_request i = false ->
  activeSwaps s !! SwapId_String (inbound_SwapId i) = None ->
  OnMessageReceived sv s peerId msgTypeString payload = (Some ErrSwapDoesNotExist, s).
Proof.
  intros Hlen Hty Hdec Hreq Hnone.
  rewrite (size_check_passed sv s peerId msgTypeString payload Hlen).
  unfold dispatchMessage. rewrite Hty.
  destruct i as [m|m|m|m|m|m|m]; try discriminate Hreq;
    cbn in Hdec; destruct Hdec as [-> Hdec]; rewrite Hdec;
    cbn [inbound_SwapId] in Hnone;
    unfold dispatch_checked, isMessageSenderExpectedPeer;
    rewrite (GetActiveSwap_None s _ Hnone); reflexivity.
Qed.

(** A payload of a type the dispatcher does not know is dropped without an
    error and without being decoded; a payload that its own decoder refuses
    gives the decoder's error.  In both cases the service is left as it
    was. *)
Theorem undecodable_message_changes_nothing s (peerId msgTypeString : string)
    (payload : list Byte.byte) (ty : MessageType) :
  (Z.of_nat (List.length payload) <= 102400)%Z ->
  HexStringToMessageType sv msgTypeString = Ok ty ->
  (forall tag, ty = MESSAGETYPE_OTHER tag ->
     OnMessageReceived sv s peerId msgTypeString payload = (None, s))
  /\ (forall err, decode_fails sv ty payload err ->
        OnMessageReceived sv s peerId msgTypeString payload = (Some err, s)).
Proof.
  intros Hlen Hty.
  rewrite (size_check_passed sv s peerId msgTypeString payload Hlen).
  unfold dispatchMessage. rewrite Hty. split.
  - intros tag ->. reflexivity.
  - intros err Hfail. destruct ty; cbn in Hfail; try contradiction;
      rewrite Hfail; reflexivity.
Qed.

End Dispatch.

Lemma message_for_unknown_swap_refused_witness :
  OnMessageReceived Demo.sv Demo.s0 "A" "a45f" (Demo.payloadFor Demo.idA "bye")
  = (Some ErrSwapDoesNotExist, Demo.s0).
Proof.
  apply (message_for_unknown_swap_refused Demo.sv Demo.s0 "A" "a45f"
           (Demo.payloadFor Demo.idA "bye") MESSAGETYPE_CANCELED
           (In_Cancel {| cm_SwapId := Demo.idA; cm_Message := "bye" |})).
  - vm_compute. discriminate.
  - reflexivity.
  - split; vm_compute; reflexivity.
  - reflexivity.
  - reflexivity.
Defined.

Lemma undecodable_message_changes_nothing_witness :
  let s := Demo.s1 "AwaitingAgreement" in
  OnMessageReceived Demo.sv s "A" "a463" (Demo.payloadFor Demo.idA "poll") = (None, s)
  /\ OnMessageReceived Demo.sv s "A" "a45b" []
     = (Some (ErrorString "unexpected end of JSON input"), s).
Proof.
  intros s. split.
  - apply (proj1 (undecodable_message_changes_nothing Demo.sv s "A" "a463"
                    (Demo.payloadFor Demo.idA "poll") (MESSAGETYPE_OTHER 42083)
                    ltac:(vm_compute; discriminate) ltac:(reflexivity)) 42083%Z).
    reflexivity.
  - apply (proj2 (undecodable_message_changes_nothing Demo.sv s "A" "a45b"
                    [] MESSAGETYPE_SWAPOUTAGREEMENT
                    ltac:(vm_compute; discriminate) ltac:(reflexivity))).
    reflexivity.
Defined.

Lemma expected_peer_dispatched_witness :
  let s := Demo.s1 "AwaitingAgreement" in
  let agreement :=
    {| soa_ProtocolVersion := 2; soa_SwapId := Demo.idA; soa_Pubkey := "";
       soa_Payreq := "lnbc1fee" |} in
  OnMessageReceived Demo.sv s "A" "a45b" (Demo.payloadFor Demo.idA "lnbc1fee")
  = OnSwapOutAgreementReceived Demo.sv
      (observe (Eff_Dispatch H_OnSwapOutAgreementReceived Demo.idA) s) agreement.
Proof.
  intros s agreement.
  apply (expected_peer_dispatched Demo.sv s "A" "a45b"
           (Demo.payloadFor Demo.idA "lnbc1fee") MESSAGETYPE_SWAPOUTAGREEMENT
           (In_SwapOutAgreement agreement) (Demo.swapWith Demo.idA "AwaitingAgreement")).
  - vm_compute. discriminate.
  - reflexivity.
  - split; vm_compute; reflexivity.
  - reflexivity.
  - vm_compute. reflexivity.
  - reflexivity.
Defined.

(** ** Stage messages that pass validation *)

Section ValidMessage.

Context {World : Type}.
Variable sv : SwapServices World.

Implicit Type s : SwapService World.

(** What the lines after SendEvent make of its answer. *)
Lemma return_after_swap_SendEvent s key swap event after done err w :
  SendEvent sv (world s) swap event = (after, done, err, w) ->
  fst (return_after_SendEvent (swap_SendEvent sv s key swap event)) = err
  /\ activeSwaps (snd (return_after_SendEvent (swap_SendEvent sv s key swap event)))
     = match err with
       | Some _ => <[key := after]> (activeSwaps s)
       | None => if done then delete (Id after) (<[key := after]> (activeSwaps s))
                 else <[key := after]> (activeSwaps s)
       end.
Proof.
  intros Hsend. unfold swap_SendEvent. cbn. rewrite Hsend. cbn.
  destruct err; [split; reflexivity|]. destruct done; split; reflexivity.
Qed.

(** A stage message (SwapOutAgreement, SwapInAgreement, OpeningTxBroadcasted,
    Cancel, CoopClose) addressed to an active swap and passing its validation
    (a Cancel has none) is stored in the field of its type, and the machine
    with the stored envelope gets exactly one event, the event of the stage;
    the handler returns what SendEvent returns. *)
Theorem valid_stage_message_stored s (i : Inbound) (peerId : string)
    (swap : SwapStateMachine) :
  is_request i = false ->
  activeSwaps s !! SwapId_String (inbound_SwapId i) = Some swap ->
  validate sv i swap = None ->
  let key := SwapId_String (inbound_SwapId i) in
  let stored := upd_Data (store_envelope i) swap in
  trace (snd (handler sv i peerId s))
  = trace s ++ [Eff_SendEvent stored (normal_event i)]
  /\ CancelMessage_ (Data stored) = CancelMessage_ (Data swap)
  /\ (forall after done err w,
        SendEvent sv (world s) stored (normal_event i) = (after, done, err, w) ->
        fst (handler sv i peerId s) = err
        /\ (done = false \/ err <> None ->
            activeSwaps (snd (handler sv i peerId s)) !! key = Some after)).
Proof.
  intros Hreq Hactive Hvalid key stored.
  assert (Hcall : handler sv i peerId s
                  = return_after_SendEvent
                      (swap_SendEvent sv (assign s key stored) key stored (normal_event i))).
  { destruct i as [m|m|m|m|m|m|m]; try discriminate Hreq;
      cbn [handler inbound_SwapId validate normal_event] in *;
      [ unfold OnSwapOutAgreementReceived
      | unfold OnSwapInAgreementReceived
      | unfold OnTxOpenedMessage
      | unfold OnCancelReceived
      | unfold OnCoopCloseReceived ];
      cbv zeta; rewrite (GetActiveSwap_Some s _ swap Hactive); try rewrite Hvalid;
      reflexivity. }
  split; [|split].
  - rewrite Hcall, return_after_SendEvent_trace, swap_SendEvent_trace. reflexivity.
  - destruct i; try discriminate Hreq; reflexivity.
  - intros after done err w Hsend. rewrite Hcall.
    destruct (return_after_swap_SendEvent (assign s key stored) key stored
                (normal_event i) after done err w Hsend) as [Herr Hmap].
    split; [exact Herr|]. intros Hstay. rewrite Hmap.
    destruct err as [e|]; [apply lookup_insert_eq|].
    destruct Hstay as [-> | Hne]; [apply lookup_insert_eq | congruence].
Qed.

End ValidMessage.

Lemma valid_stage_message_stored_witness :
  let s := Demo.s1 "AwaitingAgreement" in
  let agreement :=
    {| soa_ProtocolVersion := 2; soa_SwapId := Demo.idA; soa_Pubkey := "";
       soa_Payreq := "lnbc1fee" |} in
  let stored :=
    upd_Data (set_SwapOutAgreement (Some agreement))
             (Demo.swapWith Demo.idA "AwaitingAgreement") in
  trace (snd (OnSwapOutAgreementReceived Demo.sv s agreement))
  = [Eff_SendEvent stored Event_OnFeeInvoiceReceived]
  /\ activeSwaps (snd (OnSwapOutAgreementReceived Demo.sv s agreement))
       !! SwapId_String Demo.idA
     = Some (Demo.move "AwaitingOpeningTx" stored).
Proof.
  intros s agreement stored.
  destruct (valid_stage_message_stored Demo.sv s (In_SwapOutAgreement agreement) "A"
              (Demo.swapWith Demo.idA "AwaitingAgreement")
              ltac:(reflexivity) ltac:(vm_compute; reflexivity) ltac:(reflexivity))
    as (Htrace & _ & Hsend).
  split; [exact Htrace|].
  refine (proj2 (Hsend (Demo.move "AwaitingOpeningTx" stored) false None _ _) _).
  - vm_compute. reflexivity.
  - left. reflexivity.
Defined.

(** ** Requests from a peer *)

Section Requests.

Context {World : Type}.
Variable sv : SwapServices World.

Implicit Type s : SwapService World.

(** A request on a free channel that fails its validation registers no swap
    and hands no event to any machine: a CancelMessage with the swap id and
    the text "invalid request " followed by the validation error is
    marshalled and given to the messenger for the requesting peer, and the
    handler returns what the messenger returns, or the marshalling error with
    the service as it was. *)
Theorem invalid_request_answered_with_cancel s (swapId : SwapId) (peerId : string)
    (err : error) (outRequest : SwapOutRequestMessage) (inRequest : SwapInRequestMessage)
    (r : option error * SwapService World) :
  (hasActiveSwapOnChannel s (sor_Scid outRequest) = false
   /\ Validate_SwapOutRequest sv outRequest = Some err
   /\ r = OnSwapOutRequestReceived sv s swapId peerId outRequest)
  \/ (hasActiveSwapOnChannel s (sir_Scid inRequest) = false
      /\ Validate_SwapInRequest sv inRequest = Some err
      /\ r = OnSwapInRequestReceived sv s swapId peerId inRequest) ->
  let cancel :=
    PM_Cancel {| cm_SwapId := swapId;
                 cm_Message := ("invalid request " ++ Error_ sv err)%string |} in
  (forall e, MarshalPeerswapMessage sv cancel = Err e -> r = (Some e, s))
  /\ (forall msgBytes msgType,
        MarshalPeerswapMessage sv cancel = Ok (msgBytes, msgType) ->
        fst r = fst (messenger_SendMessage sv (world s) peerId msgBytes msgType)
        /\ activeSwaps (snd r) = activeSwaps s
        /\ trace (snd r) = trace s ++ [Eff_SendMessage peerId msgBytes msgType]).
Proof.
  intros Hcase cancel.
  assert (Hr : r = reject_request sv s swapId peerId err).
  { destruct Hcase as [(Hfree & Hinvalid & ->)|(Hfree & Hinvalid & ->)].
    - unfold OnSwapOutRequestReceived. rewrite Hfree, Hinvalid. reflexivity.
    - unfold OnSwapInRequestReceived. rewrite Hfree, Hinvalid. reflexivity. }
  subst r. unfold reject_request. fold cancel. split.
  - intros e ->. reflexivity.
  - intros msgBytes msgType ->. unfold SendMessage. cbn.
    destruct (messenger_SendMessage sv (world s) peerId msgBytes msgType) as [e w].
    repeat split.
Qed.

(** A valid swap-out request on a free channel creates a receiver whose data
    names the requesting peer as PeerNodeId and holds the request; the machine
    gets Event_OnSwapOutRequestReceived, and unless it is done at once it is
    then the swap registered under the hex of the swap id, whatever was
    registered under that key before. *)
Theorem swap_out_request_registers_receiver s (swapId : SwapId) (peerId : string)
    (message : SwapOutRequestMessage) :
  hasActiveSwapOnChannel s (sor_Scid message) = false ->
  Validate_SwapOutRequest sv message = None ->
  let fsm := newSwapOutReceiverFSM sv swapId in
  let privkey := fst (getRandomPrivkey sv (world s)) in
  let started :=
    set_Data (WithSwapOutMessage message
                (NewSwapDataFromRequest (SwapId_ fsm) peerId SWAPTYPE_OUT privkey)) fsm in
  trace (snd (OnSwapOutRequestReceived sv s swapId peerId message))
  = trace s ++ [Eff_SendEvent started Event_OnSwapOutRequestReceived]
  /\ PeerNodeId (Data started) = peerId
  /\ GetScid (Data started) = sor_Scid message
  /\ (forall after done err w,
        SendEvent sv (snd (getRandomPrivkey sv (world s))) started
          Event_OnSwapOutRequestReceived = (after, done, err, w) ->
        fst (OnSwapOutRequestReceived sv s swapId peerId message) = err
        /\ (done = false \/ err <> None ->
            activeSwaps (snd (OnSwapOutRequestReceived sv s swapId peerId message))
            = <[SwapId_String swapId := after]> (activeSwaps s))).
Proof.
  intros Hfree Hvalid fsm privkey started.
  unfold OnSwapOutRequestReceived. rewrite Hfree, Hvalid.
  subst started privkey fsm.
  destruct (getRandomPrivkey sv (world s)) as [privkey w1]. cbn [fst snd].
  match goal with
  | |- context [swap_SendEvent sv ?s1 ?key ?swap ?ev] =>
      set (s1' := s1); set (started := swap)
  end.
  split.
  - rewrite return_after_SendEvent_trace, swap_SendEvent_trace. reflexivity.
  - do 2 (split; [reflexivity|]).
    intros after done err w Hsend.
    destruct (return_after_swap_SendEvent sv s1' (SwapId_String swapId) started
                Event_OnSwapOutRequestReceived after done err w Hsend) as [Herr Hmap].
    split; [exact Herr|]. intros Hstay. rewrite Hmap.
    assert (Hins : <[SwapId_String swapId := after]> (activeSwaps s1')
                   = <[SwapId_String swapId := after]> (activeSwaps s)).
    { subst s1'. cbn. apply insert_insert_eq. }
    destruct err as [e|]; [exact Hins|].
    destruct Hstay as [-> | Hne]; [exact Hins | congruence].
Qed.

End Requests.

Lemma invalid_request_answered_with_cancel_witness :
  let request :=
    {| sor_ProtocolVersion := 1; sor_SwapId := Demo.idB; sor_Asset := "";
       sor_Network := "mainnet"; sor_Scid := "700000x2x1"; sor_Amount := 100000;
       sor_Pubkey := "" |} in
  let s := Demo.s1 "AwaitingAgreement" in
  let r := OnSwapOutRequestReceived Demo.sv s Demo.idB "B" request in
  fst r = None
  /\ activeSwaps (snd r) = activeSwaps s
  /\ trace (snd r)
     = [Eff_SendMessage "B"
          (Demo.payloadFor Demo.idB "invalid request incompatible protocol version")
          42079].
Proof.
  intros request s r.
  destruct (invalid_request_answered_with_cancel Demo.sv s Demo.idB "B"
              (ErrorString "incompatible protocol version") request
              {| sir_ProtocolVersion := 1; sir_SwapId := Demo.idB; sir_Asset := "";
                 sir_Network := ""; sir_Scid := ""; sir_Amount := 0; sir_Pubkey := "" |}
              r ltac:(left; repeat split; vm_compute; reflexivity))
    as [_ Hsent].
  exact (Hsent _ _ eq_refl).
Defined.

Lemma swap_out_request_registers_receiver_witness :
  let request :=
    {| sor_ProtocolVersion := 2; sor_SwapId := Demo.idA; sor_Asset := "";
       sor_Network := "mainnet"; sor_Scid := "700000x2x1"; sor_Amount := 100000;
       sor_Pubkey := "" |} in
  let s := Demo.s1 "AwaitingAgreement" in
  let s' := snd (OnSwapOutRequestReceived Demo.sv s Demo.idA "B" request) in
  (PeerNodeId <$> (Data <$> activeSwaps s !! SwapId_String Demo.idA)) = Some "A"%string
  /\ (PeerNodeId <$> (Data <$> activeSwaps s' !! SwapId_String Demo.idA))
     = Some "B"%string
  /\ size (activeSwaps s') = 1%nat.
Proof.
  intros request s s'.
  destruct (swap_out_request_registers_receiver Demo.sv s Demo.idA "B" request
              ltac:(vm_compute; reflexivity) ltac:(reflexivity))
    as (_ & _ & _ & Hsend).
  split; [vm_compute; reflexivity|].
  match type of Hsend with
  | forall after done err w, SendEvent _ ?w0 ?started _ = _ -> _ =>
      destruct (Hsend (Demo.move "AwaitingOpeningTx" started) false None
                  (snd (Demo.sendEvent w0 started Event_OnSwapOutRequestReceived))
                  ltac:(vm_compute; reflexivity)) as [_ Hmap]
  end.
  unfold s'. rewrite (Hmap ltac:(left; reflexivity)). split.
  - rewrite lookup_insert_eq. reflexivity.
  - vm_compute. reflexivity.
Defined.

(** ** Starting a swap-in, and starts that fail *)

Section Starts.

Context {World : Type}.
Variable sv : SwapServices World.

Implicit Type s : SwapService World.

(** When SwapIn returns without error, the machine was started with
    Event_SwapInSender_OnSwapInRequested and at that moment its data has the
    type SWAPTYPE_IN, the given initiator and peer, and a SwapInRequest with
    ProtocolVersion 2, the SwapId of the new machine, the given scid and
    amount, the hex of the compressed public key of the swap's key and the
    Asset and Network chosen from the chain; NextMessage and NextMessageType
    hold the marshalled request. *)
Theorem swap_in_request_staged
    (s s' : SwapService World) (peer chain channelId initiator : string) (amount : Z)
    (swap : SwapStateMachine) :
  SwapIn sv s peer chain channelId initiator amount = (Ok swap, s') ->
  exists started request,
    trace s' = trace s ++ [Eff_SendEvent started Event_SwapInSender_OnSwapInRequested]
    /\ SwapInRequest (Data started) = Some request
    /\ SwapOutRequest (Data started) = None
    /\ Data_Type (Data started) = SWAPTYPE_IN
    /\ InitiatorNodeId (Data started) = initiator
    /\ PeerNodeId (Data started) = peer
    /\ sir_ProtocolVersion request = 2%Z
    /\ sir_SwapId request = SwapId_ (fst (newSwapInSenderFSM sv (world s)))
    /\ sir_Scid request = channelId
    /\ sir_Amount request = amount
    /\ sir_Pubkey request
       = EncodeToString (SerializeCompressedPubKey sv (PrivkeyBytes (Data started)))
    /\ (sir_Asset request, sir_Network request) = chain_fields sv chain
    /\ MarshalPeerswapMessage sv (PM_SwapInRequest request)
       = Ok (NextMessage (Data started), NextMessageType (Data started)).
Proof.
  unfold SwapIn. intros Hcall.
  destruct (hasActiveSwapOnChannel s channelId); [discriminate Hcall|].
  destruct (chain_fields sv chain) as [asset network] eqn:Hchain.
  destruct (newSwapInSenderFSM sv (world s)) as [fsm w1] eqn:Hnew.
  cbn [world with_world AddActiveSwap with_activeSwaps] in Hcall.
  destruct (getRandomPrivkey sv w1) as [privkey w2].
  match type of Hcall with
  | context [MarshalPeerswapMessage sv (PM_SwapInRequest ?r)] =>
      set (request := r) in *
  end.
  destruct (MarshalPeerswapMessage sv (PM_SwapInRequest request))
    as [[nextMessage nextMessageType]|e] eqn:Hmarshal; [|discriminate Hcall].
  match type of Hcall with
  | context [swap_SendEvent sv _ _ ?m Event_SwapInSender_OnSwapInRequested] =>
      set (started := m) in *
  end.
  exists started, request.
  assert (Htrace : trace s'
                   = trace s ++ [Eff_SendEvent started Event_SwapInSender_OnSwapInRequested]).
  { unfold swap_SendEvent in Hcall. cbn in Hcall.
    destruct (SendEvent sv w2 started Event_SwapInSender_OnSwapInRequested)
      as [[[after done] err] w3].
    destruct err; [discriminate Hcall|].
    inversion Hcall; subst. destruct done; reflexivity. }
  split; [exact Htrace|].
  do 11 (split; [reflexivity|]). exact Hmarshal.
Qed.

(** Whenever SwapOut or SwapIn returns an error, a swap is active on the
    channel afterwards: either one was active before and the call was
    refused, or the swap the call created stays registered when the
    marshalling or the first event fails. *)
Theorem failed_start_keeps_channel_busy s (peer chain channelId initiator : string)
    (amount : Z) (e : error) (s' : SwapService World) :
  SendEvent_keeps_scid sv ->
  SwapOut sv s peer chain channelId initiator amount = (Err e, s')
  \/ SwapIn sv s peer chain channelId initiator amount = (Err e, s') ->
  active_on_channel s' channelId
  /\ hasActiveSwapOnChannel s' channelId = true.
Proof.
  intros Hkeeps Hcall.
  enough (Hactive : active_on_channel s' channelId).
  { split; [exact Hactive | apply hasActiveSwapOnChannel_true, Hactive]. }
  destruct Hcall as [Hcall|Hcall].
  - unfold SwapOut in Hcall.
    destruct (hasActiveSwapOnChannel s channelId) eqn:Hfree.
    { injection Hcall as _ Hs. subst s'. apply hasActiveSwapOnChannel_true, Hfree. }
    destruct (newSwapOutSenderFSM sv (world s)) as [fsm w1].
    cbn [world with_world AddActiveSwap with_activeSwaps] in Hcall.
    destruct (getRandomPrivkey sv w1) as [privkey w2].
    destruct (chain_fields sv chain) as [asset network].
    destruct (MarshalPeerswapMessage sv _) as [[nextMessage nextMessageType]|e'].
    + unfold swap_SendEvent in Hcall. cbn [world with_world observe assign] in Hcall.
      match type of Hcall with
      | context [SendEvent sv ?w ?m ?ev] =>
          pose proof (Hkeeps w m ev) as Hscid;
          destruct (SendEvent sv w m ev) as [[[after done] err] w3]
      end.
      cbn in Hscid. destruct err; [|discriminate Hcall].
      injection Hcall as _ Hs. subst s'. exists (Id fsm), after. split.
      * cbn. apply lookup_insert_eq.
      * exact Hscid.
    + injection Hcall as _ Hs. subst s'. eexists (Id fsm), _. split.
      * cbn. apply lookup_insert_eq.
      * reflexivity.
  - unfold SwapIn in Hcall.
    destruct (hasActiveSwapOnChannel s channelId) eqn:Hfree.
    { injection Hcall as _ Hs. subst s'. apply hasActiveSwapOnChannel_true, Hfree. }
    destruct (chain_fields sv chain) as [asset network].
    destruct (newSwapInSenderFSM sv (world s)) as [fsm w1].
    cbn [world with_world AddActiveSwap with_activeSwaps] in Hcall.
    destruct (getRandomPrivkey sv w1) as [privkey w2].
    destruct (MarshalPeerswapMessage sv _) as [[nextMessage nextMessageType]|e'].
    + unfold swap_SendEvent in Hcall. cbn [world with_world observe assign] in Hcall.
      match type of Hcall with
      | context [SendEvent sv ?w ?m ?ev] =>
          pose proof (Hkeeps w m ev) as Hscid;
          destruct (SendEvent sv w m ev) as [[[after done] err] w3]
      end.
      cbn in Hscid. destruct err; [|discriminate Hcall].
      injection Hcall as _ Hs. subst s'. exists (Id fsm), after. split.
      * cbn. apply lookup_insert_eq.
      * exact Hscid.
    + injection Hcall as _ Hs. subst s'. eexists (Id fsm), _. split.
      * cbn. apply lookup_insert_eq.
      * reflexivity.
Qed.

End Starts.

Lemma swap_in_request_staged_witness :
  let r := SwapIn Demo.sv Demo.s0 "P" "l-btc" "600000x1x0" "N" 100000 in
  exists started request,
    trace (snd r) = [Eff_SendEvent started Event_SwapInSender_OnSwapInRequested]
    /\ SwapInRequest (Data started) = Some request
    /\ Data_Type (Data started) = SWAPTYPE_IN
    /\ sir_Network request = EmptyString.
Proof.
  intros r.
  pose (returned := match fst r with
                    | Ok swap => swap
                    | Err _ => Demo.swapWith Demo.idA ""
                    end).
  destruct (swap_in_request_staged Demo.sv Demo.s0 (snd r)
              "P" "l-btc" "600000x1x0" "N" 100000 returned
              ltac:(vm_compute; reflexivity))
    as (started & request & Htrace & Hreq & _ & Htype & _ & _ & _ & _ & _ & _ & _
        & Hchain & _).
  exists started, request.
  split; [exact Htrace|]. split; [exact Hreq|]. split; [exact Htype|].
  change (snd (sir_Asset request, sir_Network request) = EmptyString).
  rewrite Hchain. reflexivity.
Defined.

(** ** Calls that never register a swap *)

Section Shrinking.

Context {World : Type} {A : Type}.
Variable sv : SwapServices World.
Variable f : SwapStateMachine -> A.
Hypothesis Hreads : reads_identity f.
Hypothesis Hkeeps : SendEvent_keeps sv f.

Implicit Type s : SwapService World.

Lemma shrinks_refl s : shrinks f s s.
Proof. intros key swap Hlook. eauto. Qed.

Lemma shrinks_trans s1 s2 s3 : shrinks f s1 s2 -> shrinks f s2 s3 -> shrinks f s1 s3.
Proof.
  intros H12 H23 key swap3 Hlook3.
  destruct (H23 key swap3 Hlook3) as (swap2 & Hlook2 & Hf23).
  destruct (H12 key swap2 Hlook2) as (swap1 & Hlook1 & Hf12).
  exists swap1. split; [exact Hlook1 | congruence].
Qed.

Lemma shrinks_same_map s s' : activeSwaps s' = activeSwaps s -> shrinks f s s'.
Proof. intros Hmap key swap Hlook. rewrite Hmap in Hlook. eauto. Qed.

Lemma shrinks_delete s s' key :
  activeSwaps s' = delete key (activeSwaps s) -> shrinks f s s'.
Proof.
  intros Hmap k swap Hlook. rewrite Hmap in Hlook.
  apply lookup_delete_Some in Hlook as [_ Hlook]. eauto.
Qed.

Lemma shrinks_remove_if s (done : bool) key :
  shrinks f s (if done then RemoveActiveSwap s key else s).
Proof.
  destruct done; [|apply shrinks_refl].
  apply (shrinks_delete s _ key). reflexivity.
Qed.

Lemma shrinks_touch s s' key held swap' :
  activeSwaps s !! key = Some held ->
  f swap' = f held ->
  activeSwaps s' = <[key := swap']> (activeSwaps s) ->
  shrinks f s s'.
Proof.
  intros Hheld Hf Hmap k swap Hlook. rewrite Hmap in Hlook.
  apply lookup_insert_Some in Hlook as [[<- <-]|[_ Hlook]]; eauto.
Qed.

(** An assignment of fields other than the requests leaves [f] alone. *)
Lemma reads_identity_upd (g : SwapData -> SwapData) swap :
  (forall d, SwapInRequest (g d) = SwapInRequest d
             /\ SwapOutRequest (g d) = SwapOutRequest d) ->
  f (upd_Data g swap) = f swap.
Proof.
  intros Hg. unfold upd_Data. apply Hreads; apply Hg.
Qed.

(** An event sent to a swap that the registry holds under [key]. *)
Lemma swap_SendEvent_shrinks s s1 key held held1 swap event :
  activeSwaps s !! key = Some held ->
  f swap = f held ->
  activeSwaps s1 = <[key := held1]> (activeSwaps s) ->
  shrinks f s (snd (swap_SendEvent sv s1 key swap event)).
Proof.
  intros Hheld Hf Hmap. unfold swap_SendEvent. cbn.
  pose proof (Hkeeps (world s1) swap event) as Hafter.
  destruct (SendEvent sv (world s1) swap event) as [[[after done] err] w].
  cbn in Hafter. apply (shrinks_touch s _ key held after Hheld).
  - congruence.
  - cbn. rewrite Hmap. apply insert_insert_eq.
Qed.

Lemma return_after_SendEvent_shrinks s
    (r : SwapStateMachine * bool * option error * SwapService World) :
  shrinks f s (snd r) -> shrinks f s (snd (return_after_SendEvent r)).
Proof.
  destruct r as [[[after done] err] s2]. cbn. intros Hs2.
  destruct err; [exact Hs2|]. cbn.
  apply (shrinks_trans s s2 _ Hs2), shrinks_remove_if.
Qed.

Lemma same_map_insert s key held :
  activeSwaps s !! key = Some held ->
  activeSwaps s = <[key := held]> (activeSwaps s).
Proof. intros Hheld. symmetry. apply insert_id, Hheld. Qed.

(** The two shapes of a handler: the event goes to the swap as it is held, or
    to the swap after an assignment that is written through. *)
Lemma send_held_shrinks s key held event :
  activeSwaps s !! key = Some held ->
  shrinks f s (snd (swap_SendEvent sv s key held event)).
Proof.
  intros Hheld.
  exact (swap_SendEvent_shrinks s s key held held held event Hheld eq_refl
           (same_map_insert s key held Hheld)).
Qed.

Lemma send_assigned_shrinks s key held (g : SwapData -> SwapData) event :
  activeSwaps s !! key = Some held ->
  (forall d, SwapInRequest (g d) = SwapInRequest d
             /\ SwapOutRequest (g d) = SwapOutRequest d) ->
  shrinks f s (snd (swap_SendEvent sv (assign s key (upd_Data g held)) key
                      (upd_Data g held) event)).
Proof.
  intros Hheld Hg.
  exact (swap_SendEvent_shrinks s (assign s key (upd_Data g held)) key held
           (upd_Data g held) (upd_Data g held) event
           Hheld (reads_identity_upd g held Hg) eq_refl).
Qed.

Lemma chain_callback_shrinks s
    (r : SwapStateMachine * bool * option error * SwapService World) :
  shrinks f s (snd r) ->
  shrinks f s
    (snd (let '(swap, done, err, s2) := r in
          match err with
          | Some ErrEventRejected => (None, s2)
          | Some err => (Some err, s2)
          | None => (@None error, if done then RemoveActiveSwap s2 (Id swap) else s2)
          end)).
Proof.
  destruct r as [[[after done] err] s2]. cbn. intros Hs2.
  destruct err as [e|]; [destruct e; exact Hs2|]. cbn.
  apply (shrinks_trans s s2 _ Hs2), shrinks_remove_if.
Qed.

Lemma OnTxConfirmed_shrinks s swapId txHex :
  shrinks f s (snd (OnTxConfirmed sv s swapId txHex)).
Proof.
  unfold OnTxConfirmed, GetActiveSwap.
  destruct (activeSwaps s !! swapId) as [held|] eqn:Hheld; [|apply shrinks_refl].
  apply chain_callback_shrinks.
  apply (send_assigned_shrinks s swapId held (set_OpeningTxHex txHex) _ Hheld).
  intros d. split; reflexivity.
Qed.

Lemma OnCsvPassed_shrinks s swapId :
  shrinks f s (snd (OnCsvPassed sv s swapId)).
Proof.
  unfold OnCsvPassed, GetActiveSwap.
  destruct (activeSwaps s !! swapId) as [held|] eqn:Hheld; [|apply shrinks_refl].
  apply chain_callback_shrinks, send_held_shrinks, Hheld.
Qed.

Lemma OnFeeInvoicePaid_shrinks s swapId :
  shrinks f s (snd (OnFeeInvoicePaid sv s swapId)).
Proof.
  unfold OnFeeInvoicePaid, GetActiveSwap.
  destruct (activeSwaps s !! _) as [held|] eqn:Hheld; [|apply shrinks_refl].
  apply return_after_SendEvent_shrinks, send_held_shrinks, Hheld.
Qed.

Lemma OnClaimInvoicePaid_shrinks s swapId :
  shrinks f s (snd (OnClaimInvoicePaid sv s swapId)).
Proof.
  unfold OnClaimInvoicePaid, GetActiveSwap.
  destruct (activeSwaps s !! _) as [held|] eqn:Hheld; [|apply shrinks_refl].
  apply return_after_SendEvent_shrinks, send_held_shrinks, Hheld.
Qed.

Lemma observe_shrinks s e s' :
  shrinks f (observe e s) s' -> shrinks f s s'.
Proof. intros H. exact H. Qed.

Lemma OnPayment_shrinks s description :
  shrinks f s (OnPayment sv s description).
Proof.
  unfold OnPayment.
  destruct (String.eqb (getPaymentLabel description) "fee").
  { destruct (ParseSwapIdFromString sv _) as [swapId|e]; [|apply shrinks_refl].
    apply observe_shrinks with (e := Eff_Dispatch H_OnFeeInvoicePaid swapId).
    apply OnFeeInvoicePaid_shrinks. }
  destruct (String.eqb (getPaymentLabel description) "claim"); [|apply shrinks_refl].
  destruct (ParseSwapIdFromString sv _) as [swapId|e]; [|apply shrinks_refl].
  apply observe_shrinks with (e := Eff_Dispatch H_OnClaimInvoicePaid swapId).
  apply OnClaimInvoicePaid_shrinks.
Qed.

Lemma SenderOnTxConfirmed_shrinks s swapId :
  shrinks f s (snd (SenderOnTxConfirmed sv s swapId)).
Proof.
  unfold SenderOnTxConfirmed, GetActiveSwap.
  destruct (activeSwaps s !! swapId) as [held|] eqn:Hheld; [|apply shrinks_refl].
  pose proof (send_held_shrinks s swapId held Event_OnTxConfirmed Hheld) as Hsent.
  destruct (swap_SendEvent sv s swapId held Event_OnTxConfirmed)
    as [[[after done] err] s2].
  cbn in Hsent. destruct err; [exact Hsent|]. cbn.
  apply (shrinks_trans s s2 _ Hsent).
  apply (shrinks_trans s2 (if done then RemoveActiveSwap s2 (Id after) else s2)).
  - apply shrinks_remove_if.
  - apply (shrinks_delete _ _ (Id after)). reflexivity.
Qed.

Lemma timeoutCallback_shrinks s swapId :
  shrinks f s (timeoutCallback sv s swapId).
Proof.
  unfold timeoutCallback, GetActiveSwap.
  destruct (activeSwaps s !! swapId) as [held|] eqn:Hheld; [|apply shrinks_refl].
  pose proof (send_assigned_shrinks s swapId held (set_toCancel false) Event_OnTimeout
                Hheld ltac:(intros d; split; reflexivity)) as Hsent.
  destruct (swap_SendEvent sv _ swapId _ Event_OnTimeout) as [[[after done] err] s2].
  cbn in Hsent. destruct err; [exact Hsent|].
  apply (shrinks_trans s s2 _ Hsent), shrinks_remove_if.
Qed.

Lemma handler_shrinks s (i : Inbound) (peerId : string) :
  is_request i = false ->
  shrinks f s (snd (handler sv i peerId s)).
Proof.
  intros Hreq.
  destruct i as [m|m|m|m|m|m|m]; try discriminate Hreq; cbn [handler];
    [ unfold OnSwapOutAgreementReceived
    | unfold OnSwapInAgreementReceived
    | unfold OnTxOpenedMessage
    | unfold OnCancelReceived
    | unfold OnCoopCloseReceived ];
    unfold HandleInvalidMessage, GetActiveSwap; cbv zeta;
    (destruct (activeSwaps s !! _) as [held|] eqn:Hheld; [|apply shrinks_refl]);
    repeat match goal with
           | |- context [match ?v with Some _ => _ | None => _ end] =>
               destruct v
           end;
    apply return_after_SendEvent_shrinks;
    match goal with
    | |- context [assign s ?key (upd_Data ?g held)] =>
        apply (send_assigned_shrinks s key held g _ Hheld)
    end;
    intros d; split; reflexivity.
Qed.

Lemma dispatch_checked_shrinks s peerId swapId h
    (k : SwapService World -> option error * SwapService World) :
  (forall s1, shrinks f s1 (snd (k s1))) ->
  shrinks f s (snd (dispatch_checked s peerId swapId h k)).
Proof.
  intros Hk. unfold dispatch_checked.
  destruct (isMessageSenderExpectedPeer s peerId swapId) as [ok|e];
    [|apply shrinks_refl].
  destruct ok; cbn [negb]; [|apply shrinks_refl].
  apply observe_shrinks with (e := Eff_Dispatch h swapId). apply Hk.
Qed.

Lemma OnMessageReceived_shrinks s peerId msgTypeString payload :
  ~ is_request_tag sv msgTypeString ->
  shrinks f s (snd (OnMessageReceived sv s peerId msgTypeString payload)).
Proof.
  intros Hnot. unfold OnMessageReceived.
  destruct (Z.of_nat (List.length payload) >? 100 * 1024)%Z; [apply shrinks_refl|].
  unfold dispatchMessage.
  destruct (HexStringToMessageType sv msgTypeString) as [ty|e] eqn:Hty;
    [|apply shrinks_refl].
  destruct ty; try apply shrinks_refl.
  - exfalso. apply Hnot. right. exact Hty.
  - exfalso. apply Hnot. left. exact Hty.
  - destruct (Unmarshal_SwapInAgreement sv payload) as [m|e]; [|apply shrinks_refl].
    apply dispatch_checked_shrinks. intros s1.
    exact (handler_shrinks s1 (In_SwapInAgreement m) peerId eq_refl).
  - destruct (Unmarshal_SwapOutAgreement sv payload) as [m|e]; [|apply shrinks_refl].
    apply dispatch_checked_shrinks. intros s1.
    exact (handler_shrinks s1 (In_SwapOutAgreement m) peerId eq_refl).
  - destruct (Unmarshal_OpeningTxBroadcasted sv payload) as [m|e]; [|apply shrinks_refl].
    apply dispatch_checked_shrinks. intros s1.
    exact (handler_shrinks s1 (In_OpeningTxBroadcasted m) peerId eq_refl).
  - destruct (Unmarshal_Cancel sv payload) as [m|e]; [|apply shrinks_refl].
    apply dispatch_checked_shrinks. intros s1.
    exact (handler_shrinks s1 (In_Cancel m) peerId eq_refl).
  - destruct (Unmarshal_CoopClose sv payload) as [m|e]; [|apply shrinks_refl].
    apply dispatch_checked_shrinks. intros s1.
    exact (handler_shrinks s1 (In_CoopClose m) peerId eq_refl).
Qed.

Lemma callback_shrinks s (c : Call) :
  is_callback c = true -> shrinks f s (call sv s c).
Proof.
  intros Hcb. destruct c; try discriminate Hcb; cbn [call].
  - apply OnTxConfirmed_shrinks.
  - apply OnCsvPassed_shrinks.
  - apply OnPayment_shrinks.
  - apply SenderOnTxConfirmed_shrinks.
  - apply timeoutCallback_shrinks.
Qed.

End Shrinking.

(** ** Invariants of the runs *)

Section RunInvariants.

Context {World : Type}.
Variable sv : SwapServices World.

Implicit Type s : SwapService World.

Lemma reads_identity_unit : reads_identity (fun _ : SwapStateMachine => tt).
Proof. intros swap d _ _. reflexivity. Qed.

Lemma reads_identity_Id : reads_identity Id.
Proof. intros swap d _ _. reflexivity. Qed.

Lemma reads_identity_scid : reads_identity scid_of.
Proof.
  intros swap d Hin Hout. unfold scid_of, GetScid. cbn. rewrite Hin, Hout. reflexivity.
Qed.

(** A callback (OnTxConfirmed, OnCsvPassed, OnPayment, SenderOnTxConfirmed,
    the timeout callback) and a message whose type is not a request never
    register a swap: every swap active after the call was active before it
    under the same key, and if SendEvent keeps the Id and the scid of a
    machine it has the same Id and the same scid as before. *)
Theorem callbacks_never_register s (c : Call) :
  is_callback c = true
  \/ (exists peerId msgTypeString payload,
        c = Call_OnMessageReceived peerId msgTypeString payload
        /\ ~ is_request_tag sv msgTypeString) ->
  forall key swap',
    activeSwaps (call sv s c) !! key = Some swap' ->
    exists swap,
      activeSwaps s !! key = Some swap
      /\ (SendEvent_keeps_Id sv -> Id swap' = Id swap)
      /\ (SendEvent_keeps_scid sv -> GetScid (Data swap') = GetScid (Data swap)).
Proof.
  intros Hc key swap' Hlook.
  assert (Hall : forall (A : Type) (f : SwapStateMachine -> A),
             reads_identity f -> SendEvent_keeps sv f -> shrinks f s (call sv s c)).
  { intros A f Hreads Hkeeps.
    destruct Hc as [Hcb|(peerId & msgTypeString & payload & -> & Hnot)].
    - apply callback_shrinks; assumption.
    - cbn [call]. apply OnMessageReceived_shrinks; assumption. }
  destruct (Hall unit (fun _ => tt) reads_identity_unit ltac:(intros w m e; reflexivity)
              key swap' Hlook) as (swap & Hswap & _).
  exists swap. split; [exact Hswap|]. split.
  - intros HkId.
    destruct (Hall string Id reads_identity_Id HkId key swap' Hlook)
      as (swap0 & Hswap0 & Heq). congruence.
  - intros Hkscid.
    destruct (Hall string scid_of reads_identity_scid Hkscid key swap' Hlook)
      as (swap0 & Hswap0 & Heq). unfold scid_of in Heq. congruence.
Qed.

Lemma shrinks_one_swap_per_channel s s' :
  shrinks scid_of s s' -> one_swap_per_channel s -> one_swap_per_channel s'.
Proof.
  intros Hshr Hinv k1 k2 swap1 swap2 Hlook1 Hlook2 Hscid.
  destruct (Hshr k1 swap1 Hlook1) as (old1 & Hold1 & Hf1).
  destruct (Hshr k2 swap2 Hlook2) as (old2 & Hold2 & Hf2).
  apply (Hinv k1 k2 old1 old2 Hold1 Hold2). unfold scid_of in *. congruence.
Qed.

Lemma shrinks_well_keyed s s' :
  shrinks Id s s' -> well_keyed s -> well_keyed s'.
Proof.
  intros Hshr Hinv key swap Hlook.
  destruct (Hshr key swap Hlook) as (old & Hold & Hf).
  rewrite Hf. exact (Hinv key old Hold).
Qed.

Lemma OnMessageReceived_one_swap_per_channel s peerId msgTypeString payload :
  SendEvent_keeps_scid sv ->
  one_swap_per_channel s ->
  one_swap_per_channel (snd (OnMessageReceived sv s peerId msgTypeString payload)).
Proof.
  intros Hkeeps Hinv.
  destruct (HexStringToMessageType sv msgTypeString) as [ty|e] eqn:Hty.
  2:{ apply (shrinks_one_swap_per_channel s); [|exact Hinv].
      apply (OnMessageReceived_shrinks sv scid_of reads_identity_scid Hkeeps).
      intros [H|H]; congruence. }
  assert (Hother : ty <> MESSAGETYPE_SWAPOUTREQUEST -> ty <> MESSAGETYPE_SWAPINREQUEST ->
                   one_swap_per_channel
                     (snd (OnMessageReceived sv s peerId msgTypeString payload))).
  { intros Hout Hin. apply (shrinks_one_swap_per_channel s); [|exact Hinv].
    apply (OnMessageReceived_shrinks sv scid_of reads_identity_scid Hkeeps).
    intros [H|H]; congruence. }
  destruct ty; try (apply Hother; discriminate).
  - unfold OnMessageReceived.
    destruct (Z.of_nat (List.length payload) >? 100 * 1024)%Z; [exact Hinv|].
    unfold dispatchMessage. rewrite Hty.
    destruct (Unmarshal_SwapInRequest sv payload) as [m|e]; [|exact Hinv].
    apply OnSwapInRequestReceived_admission; assumption.
  - unfold OnMessageReceived.
    destruct (Z.of_nat (List.length payload) >? 100 * 1024)%Z; [exact Hinv|].
    unfold dispatchMessage. rewrite Hty.
    destruct (Unmarshal_SwapOutRequest sv payload) as [m|e]; [|exact Hinv].
    apply OnSwapOutRequestReceived_admission; assumption.
Qed.

Lemma call_one_swap_per_channel s (c : Call) :
  SendEvent_keeps_scid sv ->
  is_RecoverSwaps c = false ->
  one_swap_per_channel s ->
  one_swap_per_channel (call sv s c).
Proof.
  intros Hkeeps Hnot Hinv.
  destruct c eqn:Hcall; try discriminate Hnot;
    try (apply (shrinks_one_swap_per_channel s); [|exact Hinv];
         rewrite <- Hcall;
         apply (callback_shrinks sv scid_of reads_identity_scid Hkeeps);
         rewrite Hcall; reflexivity);
    cbn [call].
  - apply SwapOut_admission; assumption.
  - apply SwapIn_admission; assumption.
  - apply OnMessageReceived_one_swap_per_channel; assumption.
Qed.

(** At most one active swap per channel is an invariant of the service: it
    holds on the registry of NewSwapService and after every run of calls of
    the entry points other than RecoverSwaps, provided SendEvent leaves the
    scid of a machine as it is. *)
Theorem one_swap_per_channel_invariant (w : World) (calls : list Call) :
  SendEvent_keeps_scid sv ->
  forallb (fun c => negb (is_RecoverSwaps c)) calls = true ->
  one_swap_per_channel (run sv (NewSwapService sv w) calls).
Proof.
  intros Hkeeps. unfold run.
  assert (Hinit : one_swap_per_channel (NewSwapService sv w)).
  { intros k1 k2 swap1 swap2 Hlook. cbn in Hlook. rewrite lookup_empty in Hlook.
    discriminate Hlook. }
  revert Hinit. generalize (NewSwapService sv w) as s.
  induction calls as [|c calls IH]; intros s Hinv Hcalls; [exact Hinv|].
  cbn in Hcalls. apply andb_true_iff in Hcalls as [Hc Hrest].
  cbn [fold_left]. apply IH; [|exact Hrest].
  apply call_one_swap_per_channel; [exact Hkeeps | | exact Hinv].
  apply negb_true_iff, Hc.
Qed.

(** *** Every swap under its own Id *)

Lemma well_keyed_insert s s' key swap :
  well_keyed s -> Id swap = key ->
  activeSwaps s' = <[key := swap]> (activeSwaps s) ->
  well_keyed s'.
Proof.
  intros Hinv Hid Hmap k swap' Hlook. rewrite Hmap in Hlook.
  apply lookup_insert_Some in Hlook as [[<- <-]|[_ Hlook]];
    [exact Hid | exact (Hinv k swap' Hlook)].
Qed.

Lemma well_keyed_remove_if s (done : bool) key :
  well_keyed s -> well_keyed (if done then RemoveActiveSwap s key else s).
Proof.
  intros Hinv. apply (shrinks_well_keyed s); [|exact Hinv].
  apply shrinks_remove_if.
Qed.

Lemma swap_SendEvent_well_keyed s0 s1 key held swap event :
  SendEvent_keeps_Id sv ->
  well_keyed s0 ->
  Id swap = key ->
  activeSwaps s1 = <[key := held]> (activeSwaps s0) ->
  well_keyed (snd (swap_SendEvent sv s1 key swap event)).
Proof.
  intros Hkeeps Hinv Hid Hmap. unfold swap_SendEvent. cbn.
  pose proof (Hkeeps (world s1) swap event) as Hafter.
  destruct (SendEvent sv (world s1) swap event) as [[[after done] err] w].
  cbn in Hafter. apply (well_keyed_insert s0 _ key after Hinv).
  - congruence.
  - cbn. rewrite Hmap. apply insert_insert_eq.
Qed.

Lemma SwapOut_well_keyed s peer chain channelId initiator amount :
  SendEvent_keeps_Id sv -> well_keyed s ->
  well_keyed (snd (SwapOut sv s peer chain channelId initiator amount)).
Proof.
  intros Hkeeps Hinv. unfold SwapOut.
  destruct (hasActiveSwapOnChannel s channelId); [exact Hinv|].
  destruct (newSwapOutSenderFSM sv (world s)) as [fsm w1].
  cbn [world with_world AddActiveSwap with_activeSwaps].
  destruct (getRandomPrivkey sv w1) as [privkey w2].
  destruct (chain_fields sv chain) as [asset network].
  destruct (MarshalPeerswapMessage sv _) as [[nextMessage nextMessageType]|e].
  - match goal with
    | |- context [swap_SendEvent sv ?s1 ?key ?swap ?ev] =>
        pose proof (swap_SendEvent_well_keyed s s1 key swap swap ev Hkeeps Hinv eq_refl)
          as Hsent;
        destruct (swap_SendEvent sv s1 key swap ev) as [[[after done] err] s2]
    end.
    cbn in Hsent.
    assert (Hs2 : well_keyed s2).
    { apply Hsent. rewrite !insert_insert_eq. reflexivity. }
    destruct err; [exact Hs2|]. cbn. apply well_keyed_remove_if, Hs2.
  - cbn [snd].
    match goal with
    | |- well_keyed (assign _ ?key ?swap) =>
        apply (well_keyed_insert s _ key swap Hinv eq_refl)
    end.
    cbn. rewrite !insert_insert_eq. reflexivity.
Qed.

Lemma SwapIn_well_keyed s peer chain channelId initiator amount :
  SendEvent_keeps_Id sv -> well_keyed s ->
  well_keyed (snd (SwapIn sv s peer chain channelId initiator amount)).
Proof.
  intros Hkeeps Hinv. unfold SwapIn.
  destruct (hasActiveSwapOnChannel s channelId); [exact Hinv|].
  destruct (chain_fields sv chain) as [asset network].
  destruct (newSwapInSenderFSM sv (world s)) as [fsm w1].
  cbn [world with_world AddActiveSwap with_activeSwaps].
  destruct (getRandomPrivkey sv w1) as [privkey w2].
  destruct (MarshalPeerswapMessage sv _) as [[nextMessage nextMessageType]|e].
  - match goal with
    | |- context [swap_SendEvent sv ?s1 ?key ?swap ?ev] =>
        pose proof (swap_SendEvent_well_keyed s s1 key swap swap ev Hkeeps Hinv eq_refl)
          as Hsent;
        destruct (swap_SendEvent sv s1 key swap ev) as [[[after done] err] s2]
    end.
    cbn in Hsent.
    assert (Hs2 : well_keyed s2).
    { apply Hsent. rewrite !insert_insert_eq. reflexivity. }
    destruct err; [exact Hs2|]. cbn. apply well_keyed_remove_if, Hs2.
  - cbn [snd].
    match goal with
    | |- well_keyed (assign _ ?key ?swap) =>
        apply (well_keyed_insert s _ key swap Hinv eq_refl)
    end.
    cbn. rewrite !insert_insert_eq. reflexivity.
Qed.

Lemma reject_request_well_keyed s swapId peerId err :
  well_keyed s -> well_keyed (snd (reject_request sv s swapId peerId err)).
Proof.
  intros Hinv key swap Hlook. rewrite reject_request_activeSwaps in Hlook.
  exact (Hinv key swap Hlook).
Qed.

Lemma OnSwapOutRequestReceived_well_keyed s swapId peerId message :
  SendEvent_keeps_Id sv -> receivers_keyed sv -> well_keyed s ->
  well_keyed (snd (OnSwapOutRequestReceived sv s swapId peerId message)).
Proof.
  intros Hkeeps Hrecv Hinv. unfold OnSwapOutRequestReceived.
  destruct (hasActiveSwapOnChannel s (sor_Scid message)); [exact Hinv|].
  destruct (Validate_SwapOutRequest sv message) as [err|].
  { apply reject_request_well_keyed, Hinv. }
  destruct (getRandomPrivkey sv (world s)) as [privkey w1].
  match goal with
  | |- context [swap_SendEvent sv ?s1 ?key ?swap ?ev] =>
      pose proof (swap_SendEvent_well_keyed s s1 key swap swap ev Hkeeps Hinv
                    (proj1 (Hrecv swapId)) eq_refl) as Hsent;
      destruct (swap_SendEvent sv s1 key swap ev) as [[[after done] err] s2]
  end.
  cbn in Hsent. cbn. destruct err; [exact Hsent|]. cbn.
  apply well_keyed_remove_if, Hsent.
Qed.

Lemma OnSwapInRequestReceived_well_keyed s swapId peerId message :
  SendEvent_keeps_Id sv -> receivers_keyed sv -> well_keyed s ->
  well_keyed (snd (OnSwapInRequestReceived sv s swapId peerId message)).
Proof.
  intros Hkeeps Hrecv Hinv. unfold OnSwapInRequestReceived.
  destruct (hasActiveSwapOnChannel s (sir_Scid message)); [exact Hinv|].
  destruct (Validate_SwapInRequest sv message) as [err|].
  { apply reject_request_well_keyed, Hinv. }
  cbn [world with_world AddActiveSwap with_activeSwaps].
  destruct (getRandomPrivkey sv (world s)) as [privkey w1].
  match goal with
  | |- context [swap_SendEvent sv ?s1 ?key ?swap ?ev] =>
      pose proof (swap_SendEvent_well_keyed s s1 key swap swap ev Hkeeps Hinv
                    (proj2 (Hrecv swapId))) as Hsent;
      destruct (swap_SendEvent sv s1 key swap ev) as [[[after done] err] s2]
  end.
  cbn in Hsent. cbn. apply well_keyed_remove_if, Hsent.
  rewrite !insert_insert_eq. reflexivity.
Qed.

Lemma OnMessageReceived_well_keyed s peerId msgTypeString payload :
  SendEvent_keeps_Id sv -> receivers_keyed sv -> well_keyed s ->
  well_keyed (snd (OnMessageReceived sv s peerId msgTypeString payload)).
Proof.
  intros Hkeeps Hrecv Hinv.
  destruct (HexStringToMessageType sv msgTypeString) as [ty|e] eqn:Hty.
  2:{ apply (shrinks_well_keyed s); [|exact Hinv].
      apply (OnMessageReceived_shrinks sv Id reads_identity_Id Hkeeps).
      intros [H|H]; congruence. }
  assert (Hother : ty <> MESSAGETYPE_SWAPOUTREQUEST -> ty <> MESSAGETYPE_SWAPINREQUEST ->
                   well_keyed (snd (OnMessageReceived sv s peerId msgTypeString payload))).
  { intros Hout Hin. apply (shrinks_well_keyed s); [|exact Hinv].
    apply (OnMessageReceived_shrinks sv Id reads_identity_Id Hkeeps).
    intros [H|H]; congruence. }
  destruct ty; try (apply Hother; discriminate).
  - unfold OnMessageReceived.
    destruct (Z.of_nat (List.length payload) >? 100 * 1024)%Z; [exact Hinv|].
    unfold dispatchMessage. rewrite Hty.
    destruct (Unmarshal_SwapInRequest sv payload) as [m|e]; [|exact Hinv].
    apply OnSwapInRequestReceived_well_keyed; assumption.
  - unfold OnMessageReceived.
    destruct (Z.of_nat (List.length payload) >? 100 * 1024)%Z; [exact Hinv|].
    unfold dispatchMessage. rewrite Hty.
    destruct (Unmarshal_SwapOutRequest sv payload) as [m|e]; [|exact Hinv].
    apply OnSwapOutRequestReceived_well_keyed; assumption.
Qed.

Lemma RecoverSwaps_loop_well_keyed (swaps : list SwapStateMachine) s :
  Recover_keeps_Id sv -> well_keyed s ->
  well_keyed (snd (RecoverSwaps_loop sv s swaps)).
Proof.
  intros Hkeeps. revert s. induction swaps as [|swap rest IH]; intros s Hinv;
    [exact Hinv|].
  cbn [RecoverSwaps_loop].
  destruct (IsFinished sv swap); [apply IH, Hinv|].
  cbn [world AddActiveSwap with_activeSwaps].
  pose proof (Hkeeps (world s) (fromStore sv swap)) as Hafter.
  destruct (Recover sv (world s) (fromStore sv swap)) as [[[after done] err] w].
  cbn in Hafter.
  match goal with
  | |- context [assign ?s1 ?key after] =>
      assert (Hs1 : well_keyed (assign s1 key after))
  end.
  { apply (well_keyed_insert s _ (Id (fromStore sv swap)) after Hinv Hafter).
    cbn. apply insert_insert_eq. }
  destruct err; [exact Hs1|]. apply IH, well_keyed_remove_if, Hs1.
Qed.

Lemma call_well_keyed s (c : Call) :
  SendEvent_keeps_Id sv -> Recover_keeps_Id sv -> receivers_keyed sv ->
  well_keyed s -> well_keyed (call sv s c).
Proof.
  intros Hkeeps Hrecover Hrecv Hinv.
  destruct c eqn:Hcall;
    try (apply (shrinks_well_keyed s); [|exact Hinv];
         rewrite <- Hcall;
         apply (callback_shrinks sv Id reads_identity_Id Hkeeps);
         rewrite Hcall; reflexivity);
    cbn [call].
  - apply SwapOut_well_keyed; assumption.
  - apply SwapIn_well_keyed; assumption.
  - apply OnMessageReceived_well_keyed; assumption.
  - unfold RecoverSwaps. destruct (ListAll sv (world s)) as [swaps|e]; [|exact Hinv].
    apply RecoverSwaps_loop_well_keyed; assumption.
Qed.

(** Every active swap is registered under its own Id, after every run of
    calls from the registry of NewSwapService, RecoverSwaps included,
    provided SendEvent and Recover leave the Id of a machine as it is and the
    two receiver constructors name the machine after the hex of the swap
    id. *)
Theorem well_keyed_invariant (w : World) (calls : list Call) :
  SendEvent_keeps_Id sv -> Recover_keeps_Id sv -> receivers_keyed sv ->
  well_keyed (run sv (NewSwapService sv w) calls).
Proof.
  intros Hkeeps Hrecover Hrecv. unfold run.
  assert (Hinit : well_keyed (NewSwapService sv w)).
  { intros key swap Hlook. cbn in Hlook. rewrite lookup_empty in Hlook.
    discriminate Hlook. }
  revert Hinit. generalize (NewSwapService sv w) as s.
  induction calls as [|c calls IH]; intros s Hinv; [exact Hinv|].
  cbn [fold_left]. apply IH. apply call_well_keyed; assumption.
Qed.

End RunInvariants.

Lemma Demo_keeps_Id : SendEvent_keeps_Id Demo.sv.
Proof.
  intros w swap event. cbn. unfold Demo.sendEvent.
  destruct (String.eqb (Current swap) "StoreDown"); [reflexivity|].
  destruct (Demo.next (Current swap) event) as [[cur done]|]; reflexivity.
Qed.

Lemma Demo_Recover_keeps_Id : Recover_keeps_Id Demo.sv.
Proof. intros w swap. reflexivity. Qed.

Lemma Demo_receivers_keyed : receivers_keyed Demo.sv.
Proof. intros swapId. split; reflexivity. Qed.

Lemma Demo_s1_well_keyed (cur : string) : well_keyed (Demo.s1 cur).
Proof.
  intros key swap. unfold Demo.s1, AddActiveSwap. cbn.
  rewrite lookup_insert_Some, lookup_empty.
  intros [[<- <-]|[_ Hnone]]; [reflexivity | discriminate Hnone].
Qed.

(** A run of the demo service: two starts on one channel, a request of a peer
    on another channel, an agreement, and a confirmation. *)
Lemma one_swap_per_channel_invariant_witness :
  one_swap_per_channel
    (run Demo.sv Demo.s0
       [Call_SwapOut "P" "btc" "600000x1x0" "N" 100000;
        Call_SwapOut "P" "btc" "600000x1x0" "N" 100000;
        Call_OnMessageReceived "B" "a455" (Demo.payloadFor Demo.idB "700000x2x1");
        Call_OnTxConfirmed (SwapId_String Demo.idB) "0200";
        Call_Timeout (SwapId_String Demo.idB)]).
Proof.
  apply (one_swap_per_channel_invariant Demo.sv Demo.w0).
  - exact Demo_keeps_scid.
  - reflexivity.
Defined.

Lemma well_keyed_invariant_witness :
  well_keyed
    (run Demo.sv Demo.sStored
       [Call_RecoverSwaps;
        Call_SwapIn "P" "l-btc" "700000x2x1" "N" 100000;
        Call_OnCsvPassed (SwapId_String Demo.idA)]).
Proof.
  apply (well_keyed_invariant Demo.sv (world Demo.sStored)).
  - exact Demo_keeps_Id.
  - exact Demo_Recover_keeps_Id.
  - exact Demo_receivers_keyed.
Defined.

Lemma callbacks_never_register_witness :
  let s := Demo.s1 "AwaitingConfirmation" in
  activeSwaps (call Demo.sv s (Call_OnCsvPassed (SwapId_String Demo.idA)))
    !! SwapId_String Demo.idB = None.
Proof.
  intros s.
  destruct (activeSwaps (call Demo.sv s (Call_OnCsvPassed (SwapId_String Demo.idA)))
              !! SwapId_String Demo.idB) as [swap'|] eqn:Hlook; [|reflexivity].
  destruct (callbacks_never_register Demo.sv s (Call_OnCsvPassed (SwapId_String Demo.idA))
              ltac:(left; reflexivity) (SwapId_String Demo.idB) swap' Hlook)
    as (swap & Hswap & _).
  vm_compute in Hswap. discriminate Hswap.
Defined.

(** ** What a callback does to the swap it names *)

Section NamedSwap.

Context {World : Type}.
Variable sv : SwapServices World.

Implicit Type s : SwapService World.

(** In a registry where every swap is under its own Id, and with a SendEvent
    that keeps the Id, a callback (OnTxConfirmed, OnCsvPassed,
    OnFeeInvoicePaid, OnClaimInvoicePaid) whose event finishes the swap
    removes exactly that swap, and one whose event does not finish it (or is
    refused) leaves the machine that SendEvent returned under the same key;
    every other entry of the registry is as before. *)
Theorem callback_updates_or_removes_named_swap s (swapId : SwapId) (txHex : string)
    (swap : SwapStateMachine) (r : option error * SwapService World)
    (sent : SwapStateMachine) (event : EventType) :
  SendEvent_keeps_Id sv ->
  well_keyed s ->
  let key := SwapId_String swapId in
  activeSwaps s !! key = Some swap ->
  (r = OnTxConfirmed sv s key txHex
   /\ sent = upd_Data (set_OpeningTxHex txHex) swap /\ event = Event_OnTxConfirmed)
  \/ (r = OnCsvPassed sv s key /\ sent = swap /\ event = Event_OnCsvPassed)
  \/ (r = OnFeeInvoicePaid sv s swapId /\ sent = swap /\ event = Event_OnFeeInvoicePaid)
  \/ (r = OnClaimInvoicePaid sv s swapId /\ sent = swap
      /\ event = Event_OnClaimInvoicePaid) ->
  forall after done err w,
    SendEvent sv (world s) sent event = (after, done, err, w) ->
    activeSwaps (snd r)
    = match err with
      | None => if done then delete key (activeSwaps s)
                else <[key := after]> (activeSwaps s)
      | Some _ => <[key := after]> (activeSwaps s)
      end.
Proof.
  intros Hkeeps Hinv key Hactive Hcase after done err w Hsend.
  assert (Hid : Id after = key).
  { pose proof (Hkeeps (world s) sent event) as Hafter. rewrite Hsend in Hafter.
    cbn in Hafter. rewrite Hafter.
    destruct Hcase as [(_ & -> & _)|[(_ & -> & _)|[(_ & -> & _)|(_ & -> & _)]]];
      exact (Hinv key swap Hactive). }
  assert (Hgone : delete key (<[key := after]> (activeSwaps s))
                  = delete key (activeSwaps s)).
  { apply delete_insert_eq. }
  destruct Hcase as [(-> & -> & ->)|[(-> & -> & ->)|[(-> & -> & ->)|(-> & -> & ->)]]];
    [ unfold OnTxConfirmed | unfold OnCsvPassed
    | unfold OnFeeInvoicePaid | unfold OnClaimInvoicePaid ];
    fold key; rewrite (GetActiveSwap_Some s key swap Hactive);
    unfold swap_SendEvent; cbn; rewrite Hsend;
    (destruct err as [e|]; [try destruct e | destruct done]);
    cbn; rewrite ?insert_insert_eq, ?Hid, ?Hgone; reflexivity.
Qed.

(** SenderOnTxConfirmed hands Event_OnTxConfirmed to the swap as the registry
    holds it, without an assignment to OpeningTxHex.  An error of SendEvent,
    ErrEventRejected included, is returned and the swap stays registered;
    when SendEvent succeeds the swap is removed whether it is done or not. *)
Theorem SenderOnTxConfirmed_always_removes s (swapId : string) (swap : SwapStateMachine) :
  activeSwaps s !! swapId = Some swap ->
  trace (snd (SenderOnTxConfirmed sv s swapId))
  = trace s ++ [Eff_SendEvent swap Event_OnTxConfirmed]
  /\ (forall after done err w,
        SendEvent sv (world s) swap Event_OnTxConfirmed = (after, done, err, w) ->
        fst (SenderOnTxConfirmed sv s swapId) = err
        /\ match err with
           | Some _ =>
               activeSwaps (snd (SenderOnTxConfirmed sv s swapId))
               = <[swapId := after]> (activeSwaps s)
           | None =>
               activeSwaps (snd (SenderOnTxConfirmed sv s swapId))
               = delete (Id after) (<[swapId := after]> (activeSwaps s))
           end).
Proof.
  intros Hactive. unfold SenderOnTxConfirmed.
  rewrite (GetActiveSwap_Some s swapId swap Hactive). unfold swap_SendEvent. cbn.
  split.
  - destruct (SendEvent sv (world s) swap Event_OnTxConfirmed) as [[[after done] err] w].
    destruct err; [reflexivity|]. destruct done; reflexivity.
  - intros after done err w Hsend. rewrite Hsend.
    destruct err as [e|]; [split; reflexivity|]. split; [reflexivity|].
    destruct done; cbn; [|reflexivity].
    apply map_eq. intros k. rewrite !lookup_delete.
    destruct (decide (Id after = k)); reflexivity.
Qed.

(** The timeout callback does nothing for a swap that is not active; for an
    active swap it clears toCancel and then hands the machine exactly one
    event, Event_OnTimeout; when SendEvent fails the swap stays registered
    with the machine SendEvent returned. *)
Theorem timeout_callback_fires_once s (swapId : string) :
  (activeSwaps s !! swapId = None -> timeoutCallback sv s swapId = s)
  /\ (forall swap,
        activeSwaps s !! swapId = Some swap ->
        let cleared := upd_Data (set_toCancel false) swap in
        trace (timeoutCallback sv s swapId)
        = trace s ++ [Eff_SendEvent cleared Event_OnTimeout]
        /\ toCancel (Data cleared) = false
        /\ (forall after done e w,
              SendEvent sv (world s) cleared Event_OnTimeout = (after, done, Some e, w) ->
              activeSwaps (timeoutCallback sv s swapId)
              = <[swapId := after]> (activeSwaps s))).
Proof.
  split.
  - intros Hnone. unfold timeoutCallback.
    rewrite (GetActiveSwap_None s swapId Hnone). reflexivity.
  - intros swap Hactive cleared. unfold timeoutCallback.
    rewrite (GetActiveSwap_Some s swapId swap Hactive). fold cleared.
    unfold swap_SendEvent. cbn. split; [|split; [reflexivity|]].
    + destruct (SendEvent sv (world s) cleared Event_OnTimeout)
        as [[[after done] err] w].
      destruct err; [reflexivity|]. destruct done; reflexivity.
    + intros after done e w Hsend. rewrite Hsend. cbn. apply insert_insert_eq.
Qed.

End NamedSwap.

Lemma callback_updates_or_removes_named_swap_witness :
  let s := Demo.s1 "AwaitingConfirmation" in
  activeSwaps (snd (OnCsvPassed Demo.sv s (SwapId_String Demo.idA)))
  = delete (SwapId_String Demo.idA) (activeSwaps s)
  /\ activeSwaps (snd (OnFeeInvoicePaid Demo.sv s Demo.idA))
     = <[SwapId_String Demo.idA := Demo.swapWith Demo.idA "AwaitingConfirmation"]>
         (activeSwaps s).
Proof.
  intros s.
  pose (swap := Demo.swapWith Demo.idA "AwaitingConfirmation").
  split.
  - exact (callback_updates_or_removes_named_swap Demo.sv s Demo.idA "" swap
             (OnCsvPassed Demo.sv s (SwapId_String Demo.idA)) swap Event_OnCsvPassed
             Demo_keeps_Id (Demo_s1_well_keyed "AwaitingConfirmation")
             ltac:(vm_compute; reflexivity)
             ltac:(right; left; repeat split)
             (Demo.move "ClaimedCsv" swap) true None
             (snd (Demo.sendEvent (world s) swap Event_OnCsvPassed))
             ltac:(vm_compute; reflexivity)).
  - exact (callback_updates_or_removes_named_swap Demo.sv s Demo.idA "" swap
             (OnFeeInvoicePaid Demo.sv s Demo.idA) swap Event_OnFeeInvoicePaid
             Demo_keeps_Id (Demo_s1_well_keyed "AwaitingConfirmation")
             ltac:(vm_compute; reflexivity)
             ltac:(right; right; left; repeat split)
             swap false (Some ErrEventRejected) (world s)
             ltac:(vm_compute; reflexivity)).
Defined.

Lemma SenderOnTxConfirmed_always_removes_witness :
  let key := SwapId_String Demo.idA in
  fst (SenderOnTxConfirmed Demo.sv (Demo.s1 "AwaitingAgreement") key)
  = Some ErrEventRejected
  /\ activeSwaps (snd (SenderOnTxConfirmed Demo.sv (Demo.s1 "AwaitingConfirmation") key))
       !! key = None.
Proof.
  intros key. split.
  - pose (swap := Demo.swapWith Demo.idA "AwaitingAgreement").
    destruct (SenderOnTxConfirmed_always_removes Demo.sv (Demo.s1 "AwaitingAgreement")
                key swap ltac:(vm_compute; reflexivity)) as [_ Hsend].
    exact (proj1 (Hsend swap false (Some ErrEventRejected) Demo.w0
                    ltac:(vm_compute; reflexivity))).
  - pose (swap := Demo.swapWith Demo.idA "AwaitingConfirmation").
    destruct (SenderOnTxConfirmed_always_removes Demo.sv (Demo.s1 "AwaitingConfirmation")
                key swap ltac:(vm_compute; reflexivity)) as [_ Hsend].
    rewrite (proj2 (Hsend (Demo.move "ClaimedPreimage" swap) true None
                      (snd (Demo.sendEvent Demo.w0 swap Event_OnTxConfirmed))
                      ltac:(vm_compute; reflexivity))).
    apply lookup_delete_eq.
Defined.

Lemma timeout_callback_fires_once_witness :
  timeoutCallback Demo.sv Demo.s0 "00" = Demo.s0
  /\ events_of (trace (timeoutCallback Demo.sv (Demo.s1 "AwaitingAgreement")
                         (SwapId_String Demo.idA)))
     = [Event_OnTimeout].
Proof.
  split.
  - apply (proj1 (timeout_callback_fires_once Demo.sv Demo.s0 "00")). reflexivity.
  - rewrite (proj1 (proj2 (timeout_callback_fires_once Demo.sv
                             (Demo.s1 "AwaitingAgreement") (SwapId_String Demo.idA))
                      (Demo.swapWith Demo.idA "AwaitingAgreement")
                      ltac:(vm_compute; reflexivity))).
    reflexivity.
Defined.

(** ** Recovery *)

Section Recovery.

Context {World : Type}.
Variable sv : SwapServices World.

Implicit Type s : SwapService World.

Lemma RecoverSwaps_loop_keys (swaps : list SwapStateMachine) s key :
  is_Some (activeSwaps (snd (RecoverSwaps_loop sv s swaps)) !! key) ->
  is_Some (activeSwaps s !! key)
  \/ exists stored, In stored swaps /\ IsFinished sv stored = false
                    /\ key = Id (fromStore sv stored).
Proof.
  revert s. induction swaps as [|swap rest IH]; intros s Hsome; [left; exact Hsome|].
  cbn [RecoverSwaps_loop] in Hsome.
  destruct (IsFinished sv swap) eqn:Hfin.
  { destruct (IH s Hsome) as [Hold|(stored & Hin & Hrest)]; [left; exact Hold|].
    right. exists stored. split; [right; exact Hin | exact Hrest]. }
  cbn [world AddActiveSwap with_activeSwaps] in Hsome.
  destruct (Recover sv (world s) (fromStore sv swap)) as [[[after done] err] w].
  assert (Hins : is_Some (<[Id (fromStore sv swap) := after]>
                            (<[Id (fromStore sv swap) := fromStore sv swap]>
                               (activeSwaps s)) !! key) ->
                 is_Some (activeSwaps s !! key)
                 \/ exists stored, In stored (swap :: rest)
                                   /\ IsFinished sv stored = false
                                   /\ key = Id (fromStore sv stored)).
  { rewrite insert_insert_eq. intros Hs2.
    destruct (decide (Id (fromStore sv swap) = key)) as [<-|Hne].
    - right. exists swap. split; [left; reflexivity|]. split; [exact Hfin | reflexivity].
    - left. rewrite lookup_insert_ne in Hs2 by exact Hne. exact Hs2. }
  destruct err as [e|]; [exact (Hins Hsome)|].
  destruct (IH _ Hsome) as [Hold|(stored & Hin & Hrest)].
  - apply Hins. destruct done; [|exact Hold].
    destruct Hold as [x Hx]. cbn in Hx.
    apply lookup_delete_Some in Hx as [_ Hx]. eauto.
  - right. exists stored. split; [right; exact Hin | exact Hrest].
Qed.

(** RecoverSwaps returns the error of the store without touching the
    service; over a store that lists only finished swaps it changes nothing;
    and every key it adds to the registry is the Id of the machine rebuilt
    from an unfinished stored swap. *)
Theorem RecoverSwaps_registers_only_unfinished s :
  (forall e, ListAll sv (world s) = Err e -> RecoverSwaps sv s = (Some e, s))
  /\ (forall swaps,
        ListAll sv (world s) = Ok swaps ->
        (Forall (fun stored => IsFinished sv stored = true) swaps ->
         RecoverSwaps sv s = (None, s))
        /\ (forall key,
              is_Some (activeSwaps (snd (RecoverSwaps sv s)) !! key) ->
              is_Some (activeSwaps s !! key)
              \/ exists stored, In stored swaps /\ IsFinished sv stored = false
                                /\ key = Id (fromStore sv stored))).
Proof.
  unfold RecoverSwaps. split.
  - intros e ->. reflexivity.
  - intros swaps ->. split.
    + intros Hall. induction Hall as [|stored rest Hfin Hrest IH]; [reflexivity|].
      cbn [RecoverSwaps_loop]. rewrite Hfin. exact IH.
    + intros key. apply RecoverSwaps_loop_keys.
Qed.

Lemma RecoverSwaps_loop_registers (swaps : list SwapStateMachine) s :
  (forall stored w,
      In stored swaps -> IsFinished sv stored = false ->
      exists after w', Recover sv w (fromStore sv stored) = (after, false, None, w')) ->
  fst (RecoverSwaps_loop sv s swaps) = None
  /\ (forall key, is_Some (activeSwaps s !! key) ->
                  is_Some (activeSwaps (snd (RecoverSwaps_loop sv s swaps)) !! key))
  /\ (forall stored, In stored swaps -> IsFinished sv stored = false ->
                     is_Some (activeSwaps (snd (RecoverSwaps_loop sv s swaps))
                                !! Id (fromStore sv stored))).
Proof.
  revert s. induction swaps as [|swap rest IH]; intros s Hrecover.
  { split; [reflexivity|]. split; [intros key H; exact H | intros stored []]. }
  cbn [RecoverSwaps_loop].
  assert (Hrest : forall stored w,
             In stored rest -> IsFinished sv stored = false ->
             exists after w', Recover sv w (fromStore sv stored) = (after, false, None, w')).
  { intros stored w Hin. apply Hrecover. right. exact Hin. }
  destruct (IsFinished sv swap) eqn:Hfin.
  { destruct (IH s Hrest) as (Hnil & Hold & Hnew).
    split; [exact Hnil|]. split; [exact Hold|].
    intros stored [<-|Hin] Hunfinished; [congruence | exact (Hnew stored Hin Hunfinished)]. }
  cbn [world AddActiveSwap with_activeSwaps].
  destruct (Hrecover swap (world s) (or_introl eq_refl) Hfin) as (after & w' & Hrec).
  rewrite Hrec.
  match goal with
  | |- context [RecoverSwaps_loop sv ?s2 rest] =>
      destruct (IH s2 Hrest) as (Hnil & Hold & Hnew);
      assert (Hkey : is_Some (activeSwaps s2 !! Id (fromStore sv swap)))
        by (cbn; rewrite lookup_insert_eq; eauto);
      assert (Hmono : forall key, is_Some (activeSwaps s !! key) ->
                                  is_Some (activeSwaps s2 !! key))
  end.
  { intros key Hsome. cbn. rewrite insert_insert_eq.
    destruct (decide (Id (fromStore sv swap) = key)) as [<-|Hne].
    - rewrite lookup_insert_eq. eauto.
    - rewrite lookup_insert_ne by exact Hne. exact Hsome. }
  split; [exact Hnil|]. split.
  - intros key Hsome. apply Hold, Hmono, Hsome.
  - intros stored [<-|Hin] Hunfinished; [apply Hold, Hkey | exact (Hnew stored Hin Hunfinished)].
Qed.

(** When the recovery of every unfinished stored swap succeeds without
    finishing it, RecoverSwaps returns nil, every swap that was active stays
    active, and every unfinished stored swap is active afterwards under the
    Id of its rebuilt machine. *)
Theorem RecoverSwaps_registers_every_unfinished s (swaps : list SwapStateMachine) :
  ListAll sv (world s) = Ok swaps ->
  (forall stored w,
      In stored swaps -> IsFinished sv stored = false ->
      exists after w', Recover sv w (fromStore sv stored) = (after, false, None, w')) ->
  fst (RecoverSwaps sv s) = None
  /\ (forall key, is_Some (activeSwaps s !! key) ->
                  is_Some (activeSwaps (snd (RecoverSwaps sv s)) !! key))
  /\ (forall stored, In stored swaps -> IsFinished sv stored = false ->
                     is_Some (activeSwaps (snd (RecoverSwaps sv s))
                                !! Id (fromStore sv stored))).
Proof.
  intros Hlist Hrecover. unfold RecoverSwaps. rewrite Hlist.
  apply RecoverSwaps_loop_registers, Hrecover.
Qed.

End Recovery.

Lemma RecoverSwaps_registers_only_unfinished_witness :
  let finished := Demo.swapWith Demo.idA "Canceled" in
  let s := NewSwapService Demo.sv
             {| Demo.counter := 7; Demo.stored := [finished]; Demo.sent := 0 |} in
  RecoverSwaps Demo.sv s = (None, s).
Proof.
  intros finished s.
  destruct (RecoverSwaps_registers_only_unfinished Demo.sv s) as [_ Hlisted].
  apply (proj1 (Hlisted [finished] eq_refl)).
  repeat constructor.
Defined.

Lemma RecoverSwaps_registers_every_unfinished_witness :
  let s' := snd (RecoverSwaps Demo.sv Demo.sStored) in
  is_Some (activeSwaps s' !! SwapId_String Demo.idA)
  /\ is_Some (activeSwaps s' !! SwapId_String Demo.idB).
Proof.
  intros s'.
  pose (a := Demo.swapWith Demo.idA "AwaitingAgreement").
  pose (b := Demo.swapWith Demo.idB "AwaitingAgreement").
  destruct (RecoverSwaps_registers_every_unfinished Demo.sv Demo.sStored [a; b] eq_refl)
    as (_ & _ & Hall).
  - intros stored w [<-|[<-|[]]] _; eexists _, _; reflexivity.
  - split.
    + exact (Hall a (or_introl eq_refl) eq_refl).
    + exact (Hall b (or_intror (or_introl eq_refl)) eq_refl).
Defined.

(** ** Payment labels and hex keys *)

Lemma ascii_eqb_underscore (c : ascii) :
  Ascii.eqb c "_" = if ascii_dec "_" c then true else false.
Proof.
  destruct (ascii_dec "_" c) as [<-|Hne]; [reflexivity|].
  apply Ascii.eqb_neq. congruence.
Qed.

Lemma string_cut_label (label rest : string) :
  no_underscore label = true ->
  string_cut "_" (label ++ String "_" rest) = Some (label, rest).
Proof.
  induction label as [|c label IH]; intros Hno.
  - cbv [String.append]. rewrite string_cut_unfold. cbn.
    rewrite prefix_empty. reflexivity.
  - cbn in Hno. apply andb_true_iff in Hno as [Hc Hlabel].
    change (String c label ++ String "_" rest)%string
      with (String c (label ++ String "_" rest)%string).
    rewrite string_cut_unfold. cbn [String.prefix].
    rewrite ascii_eqb_underscore in Hc.
    destruct (ascii_dec "_" c); [discriminate Hc|].
    rewrite (IH Hlabel). reflexivity.
Qed.

Lemma string_cut_before (s before after : string) :
  string_cut "_" s = Some (before, after) -> no_underscore before = true.
Proof.
  revert before after. induction s as [|c s IH]; intros before after Hcut;
    rewrite string_cut_unfold in Hcut.
  - cbn in Hcut. discriminate Hcut.
  - cbn [String.prefix] in Hcut.
    destruct (ascii_dec "_" c) as [<-|Hne].
    + rewrite prefix_empty in Hcut. inversion Hcut. reflexivity.
    + destruct (string_cut "_" s) as [[b a]|]; [|discriminate Hcut].
      injection Hcut as <- <-. cbn.
      rewrite ascii_eqb_underscore. destruct (ascii_dec "_" c); [congruence|].
      cbn. exact (IH b a eq_refl).
Qed.

(** getPaymentLabel returns the text before the first underscore: for every
    label without an underscore the description made of the label, an
    underscore and any rest has that label, and the rest is what remains after
    the label and one more character; a description without an underscore has
    the empty label; and no label ever contains an underscore. *)
Theorem getPaymentLabel_first_separator (label rest description : string) :
  (no_underscore label = true ->
   getPaymentLabel (label ++ "_" ++ rest) = label
   /\ string_drop (String.length label + 1) (label ++ "_" ++ rest) = rest)
  /\ (no_underscore description = true -> getPaymentLabel description = EmptyString)
  /\ no_underscore (getPaymentLabel description) = true.
Proof.
  split; [|split].
  - intros Hno. split.
    + unfold getPaymentLabel, SplitN_2, PaymentLabelSeparator.
      change (label ++ "_" ++ rest)%string with (label ++ String "_" rest)%string.
      rewrite (string_cut_label label rest Hno). reflexivity.
    + clear Hno. induction label as [|c label IH]; [reflexivity|]. exact IH.
  - intros Hno. apply getPaymentLabel_no_separator.
    destruct (string_cut "_" description) as [[before after]|] eqn:Hcut; [|reflexivity].
    exfalso. apply string_cut_Some in Hcut. subst description.
    clear -Hno. induction before as [|c before IH].
    + cbn in Hno. discriminate Hno.
    + cbv [String.append] in Hno. fold String.append in Hno. cbn in Hno.
      apply andb_true_iff in Hno as [_ Hno]. exact (IH Hno).
  - unfold getPaymentLabel, SplitN_2, PaymentLabelSeparator.
    destruct (string_cut "_" description) as [[before after]|] eqn:Hcut;
      [|reflexivity].
    cbn. exact (string_cut_before description before after Hcut).
Qed.

Lemma getPaymentLabel_first_separator_witness :
  getPaymentLabel "claim_ab_cd" = "claim"%string
  /\ string_drop 6 "claim_ab_cd" = "ab_cd"%string
  /\ getPaymentLabel "claim" = EmptyString.
Proof.
  destruct (getPaymentLabel_first_separator "claim" "ab_cd" "claim")
    as (Hlabel & Hnone & _).
  destruct (Hlabel eq_refl) as [H1 H2].
  split; [exact H1|]. split; [exact H2 | exact (Hnone eq_refl)].
Defined.

Lemma decode_hex_of_byte (b : Byte.byte) (rest : string) :
  Demo.decodeHex (hex_of_byte b ++ rest)
  = match Demo.decodeHex rest with
    | Some bs => Some (b :: bs)
    | None => None
    end.
Proof. destruct b; reflexivity. Qed.

Lemma decodeHex_EncodeToString (bs : list Byte.byte) :
  Demo.decodeHex (EncodeToString bs) = Some bs.
Proof.
  induction bs as [|b bs IH]; [reflexivity|].
  cbn [EncodeToString]. rewrite decode_hex_of_byte, IH. reflexivity.
Qed.

Lemma EncodeToString_length (bs : list Byte.byte) :
  String.length (EncodeToString bs) = (2 * List.length bs)%nat.
Proof.
  induction bs as [|b bs IH]; [reflexivity|].
  cbn [EncodeToString List.length]. unfold hex_of_byte.
  cbv [String.append]. fold String.append. cbn [String.length]. rewrite IH. lia.
Qed.

(** hex.EncodeToString doubles the length and loses nothing: two byte strings
    with the same hex form are equal.  So two swap ids with the same hex form,
    the key of the registry, are the same id. *)
Theorem EncodeToString_injective (x y : list Byte.byte) (a b : SwapId) :
  String.length (EncodeToString x) = (2 * List.length x)%nat
  /\ (EncodeToString x = EncodeToString y -> x = y)
  /\ (SwapId_String a = SwapId_String b -> a = b).
Proof.
  assert (Hinj : forall u v, EncodeToString u = EncodeToString v -> u = v).
  { intros u v Heq. pose proof (decodeHex_EncodeToString u) as Hu.
    rewrite Heq, decodeHex_EncodeToString in Hu. congruence. }
  split; [apply EncodeToString_length|]. split; [apply Hinj|].
  unfold SwapId_String. intros Heq. destruct a as [u], b as [v]. cbn in Heq.
  f_equal. apply Hinj, Heq.
Qed.

Lemma EncodeToString_injective_witness :
  String.length (SwapId_String Demo.idA) = 64%nat
  /\ Demo.idA = {| swapid_bytes := repeat Byte.xaa 32 |}.
Proof.
  destruct (EncodeToString_injective (swapid_bytes Demo.idA) [] Demo.idA
              {| swapid_bytes := repeat Byte.xaa 32 |}) as (Hlen & _ & Hid).
  split; [exact Hlen | exact (Hid eq_refl)].
Defined.

Section Events.

Context {World : Type}.
Variable sv : SwapServices World.

Implicit Type s : SwapService World.

Ltac break_match :=
  match goal with
  | |- context [match ?x with _ => _ end] =>
      lazymatch x with
      | context [match _ with _ => _ end] => fail
      | _ => destruct x eqn:?
      end
  | |- context [if ?x then _ else _] =>
      lazymatch x with
      | context [match _ with _ => _ end] => fail
      | context [if _ then _ else _] => fail
      | _ => destruct x eqn:?
      end
  end.

Ltac trace_done :=
  cbn [trace snd fst observe assign with_world with_activeSwaps RemoveActiveSwap
       AddActiveSwap world];
  eexists; split;
  [ rewrite <- ?app_assoc; first [ reflexivity | symmetry; apply app_nil_r ]
  | cbn; lia ].

(** Every call of an entry point other than RecoverSwaps hands at most one
    event to a machine: the observations it adds contain at most one
    SendEvent. *)
Theorem call_sends_at_most_one_event s (c : Call) :
  is_RecoverSwaps c = false ->
  exists l, trace (call sv s c) = trace s ++ l /\ (List.length (events_of l) <= 1)%nat.
Proof.
  intros Hnot. destruct c; try discriminate Hnot; cbn [call];
    unfold SwapOut, SwapIn, OnMessageReceived, dispatchMessage, dispatch_checked,
      OnSwapOutRequestReceived, OnSwapInRequestReceived, OnSwapOutAgreementReceived,
      OnSwapInAgreementReceived, OnTxOpenedMessage, OnCancelReceived,
      OnCoopCloseReceived, HandleInvalidMessage, reject_request, SendMessage,
      OnTxConfirmed, OnCsvPassed, OnPayment, OnFeeInvoicePaid, OnClaimInvoicePaid,
      SenderOnTxConfirmed, timeoutCallback, return_after_SendEvent, swap_SendEvent,
      isMessageSenderExpectedPeer, GetActiveSwap;
    repeat break_match; trace_done.
Qed.

End Events.

Lemma call_sends_at_most_one_event_witness :
  (List.length
     (events_of (trace (call Demo.sv Demo.s0
                          (Call_SwapOut "P" "btc" "600000x1x0" "N" 100000)))) <= 1)%nat.
Proof.
  destruct (call_sends_at_most_one_event Demo.sv Demo.s0
              (Call_SwapOut "P" "btc" "600000x1x0" "N" 100000) eq_refl)
    as (l & Htrace & Hle).
  rewrite Htrace. exact Hle.
Defined.

Lemma hasActiveSwapOnChannel_exact_witness :
  hasActiveSwapOnChannel (Demo.s1 "AwaitingAgreement") "600000x1x0" = true
  /\ hasActiveSwapOnChannel Demo.s0 "600000x1x0" = false.
Proof.
  split.
  - apply (proj1 (hasActiveSwapOnChannel_exact Demo.sv (Demo.s1 "AwaitingAgreement")
                    "600000x1x0" Demo.w0)).
    exists (SwapId_String Demo.idA), (Demo.swapWith Demo.idA "AwaitingAgreement").
    split; vm_compute; reflexivity.
  - exact (proj2 (hasActiveSwapOnChannel_exact Demo.sv Demo.s0 "600000x1x0" Demo.w0)).
Defined.

Lemma StoreDown_keeps_scid : SendEvent_keeps_scid StoreDown.sv.
Proof. intros w swap event. reflexivity. Qed.

Lemma failed_start_keeps_channel_busy_witness :
  let r := SwapOut StoreDown.sv Demo.s0 "P" "btc" "600000x1x0" "N" 100000 in
  fst r = Err (ErrorString "store: write failed")
  /\ hasActiveSwapOnChannel (snd r) "600000x1x0" = true.
Proof.
  intros r. split; [vm_compute; reflexivity|].
  apply (failed_start_keeps_channel_busy StoreDown.sv Demo.s0 "P" "btc" "600000x1x0" "N"
           100000 (ErrorString "store: write failed") (snd r) StoreDown_keeps_scid).
  left. vm_compute. reflexivity.
Defined.
